(** * Accounting and caching core of the Binance.US relay

    A shallow embedding of the JavaScript sources ([server.js] and its
    earlier variants) into Rocq:

    - JavaScript numbers are IEEE-754 binary64 values, modelled by the
      Standard Library's [spec_float] with [prec = 53] and [emax = 1024];
      the arithmetic of the cost-basis code is written once over a small
      interface ([Arith]) with two instances, binary64 (what the code runs
      on) and exact rationals (what the specification's "real" numbers are);
    - JavaScript strings are [string]; the library functions the code calls
      on them ([includes], [split], [parseInt], [Number.prototype.toString],
      [Number.prototype.toFixed]) follow ECMA-262;
    - the in-memory cache is explicit state, read and written by a small
      state-and-exception monad; symbol-keyed objects are [gmap string]. *)

From Stdlib Require Import ZArith QArith Qcanon Qround List Bool String Ascii Lia.
From Stdlib Require Import DecimalString DecimalN DecimalPos.
From Stdlib Require Import Floats.SpecFloat.
From stdpp Require Import base option gmap strings.

Local Open Scope Z_scope.

(** ** JavaScript strings *)

Module JsString.

Local Open Scope string_scope.
Local Open Scope Z_scope.

(** The decimal representation of a natural number. *)
Definition digits_of_N (n : N) : string :=
  NilEmpty.string_of_uint (N.to_uint n).

Fixpoint zeros (k : nat) : string :=
  match k with
  | O => EmptyString
  | S k' => String "0" (zeros k')
  end.

(** [s.includes(c)] and [s.indexOf(c) >= 0] for a one-character [c]. *)
Fixpoint includes (c : ascii) (s : string) : bool :=
  match s with
  | EmptyString => false
  | String a s' => if Ascii.eqb a c then true else includes c s'
  end.

(** [s.split(sep)] where [sep] is a set of one-character separators
    ([s.split('.')], [s.split(/e/i)]): the pieces between separators. *)
Fixpoint split_on (sep : ascii -> bool) (s : string) : list string :=
  match s with
  | EmptyString => [EmptyString]
  | String a s' =>
      if sep a then EmptyString :: split_on sep s'
      else match split_on sep s' with
           | piece :: rest => String a piece :: rest
           | [] => [String a EmptyString]
           end
  end.

Definition is_dot (a : ascii) : bool := Ascii.eqb a ".".
Definition is_e (a : ascii) : bool := Ascii.eqb a "e" || Ascii.eqb a "E".

(** [a[i]] of an array of strings: [None] stands for [undefined]. *)
Definition item (i : nat) (a : list string) : option string := nth_error a i.

(** [a[i] || s] with [s] the empty string: [undefined] is falsy. *)
Definition or_empty (o : option string) : string :=
  match o with
  | Some s => s
  | None => EmptyString
  end.

Definition digit_value (a : ascii) : option Z :=
  let n := Z.of_nat (nat_of_ascii a) in
  if (48 <=? n) && (n <=? 57) then Some (n - 48) else None.

(** The longest prefix of decimal digits, read as a number; [None] when
    no digit was read. *)
Fixpoint read_digits (acc : option Z) (s : string) : option Z :=
  match s with
  | EmptyString => acc
  | String a s' =>
      match digit_value a with
      | Some d => read_digits (Some (10 * default 0 acc + d)) s'
      | None => acc
      end
  end.

Definition is_space (a : ascii) : bool :=
  let n := nat_of_ascii a in
  (n =? 32)%nat || ((9 <=? n)%nat && (n <=? 13)%nat).

Fixpoint trim_start (s : string) : string :=
  match s with
  | String a s' => if is_space a then trim_start s' else s
  | EmptyString => s
  end.

(** [parseInt(s, 10)]: leading white space, an optional sign, then the
    longest run of digits; [None] stands for [NaN]. *)
Definition parseInt (s : string) : option Z :=
  match trim_start s with
  | String "-" s' => Z.opp <$> read_digits None s'
  | String "+" s' => read_digits None s'
  | s' => read_digits None s'
  end.

End JsString.

(** ** Exceptions

    What a JavaScript call can complete with: a value, or a thrown error.
    The code defines no error class of its own; the errors that can arise
    are the runtime's ([RangeError], [TypeError]) and the HTTP client's
    (a failed request). *)

Inductive error : Type :=
  | RangeError
  | TypeError
  | RequestFailed (status : Z).

Inductive completion (A : Type) : Type :=
  | Normal (a : A)
  | Throw (e : error).
Arguments Normal {A} a.
Arguments Throw {A} e.

(** An integral Number or an infinity: the result of ECMA-262's
    [ToIntegerOrInfinity]. *)
Inductive intinf : Type :=
  | Fin (z : Z)
  | PosInf
  | NegInf.

(** ** JavaScript numbers: IEEE-754 binary64 *)

Module B64.

Import JsString.
Local Open Scope string_scope.
Local Open Scope Z_scope.

Definition prec : Z := 53.
Definition emax : Z := 1024.

Abbreviation num := spec_float.

Definition nan : num := S754_nan.
Definition pzero : num := S754_zero false.
Definition infinity : num := S754_infinity false.

Definition add : num -> num -> num := SFadd prec emax.
Definition sub : num -> num -> num := SFsub prec emax.
Definition mul : num -> num -> num := SFmul prec emax.
Definition div : num -> num -> num := SFdiv prec emax.
Definition ltb : num -> num -> bool := SFltb.
Definition leb : num -> num -> bool := SFleb.
Definition eqb : num -> num -> bool := SFeqb.

(** The Number closest to an integer (an integer literal; exact below
    [2^53]). *)
Definition of_Z (z : Z) : num := binary_normalize prec emax z 0 false.

(** The Number closest to [m * 10^e]: a decimal literal, and what
    [parseFloat] returns for the decimal text of [m * 10^e]. *)
Definition of_decimal (m e : Z) : num :=
  match e with
  | Zneg p =>
      match m with
      | Z0 => pzero
      | Zpos mp => div (S754_finite false mp 0) (S754_finite false (10 ^ p) 0)
      | Zneg mp => div (S754_finite true mp 0) (S754_finite false (10 ^ p) 0)
      end
  | _ => of_Z (m * 10 ^ e)
  end.

Definition is_finite (x : num) : bool :=
  match x with
  | S754_zero _ | S754_finite _ _ _ => true
  | _ => false
  end.

Definition is_nan (x : num) : bool :=
  match x with
  | S754_nan => true
  | _ => false
  end.

Definition is_zero (x : num) : bool :=
  match x with
  | S754_zero _ => true
  | _ => false
  end.

(** The real value of a finite Number, as a fraction. *)
Definition to_Q (x : num) : Q :=
  match x with
  | S754_finite s m e =>
      match e with
      | Zneg p => cond_Zopp s (Zpos m) # (2 ^ p)
      | _ => cond_Zopp s (Zpos m * 2 ^ e) # 1
      end
  | _ => 0%Q
  end.

(** [Math.floor]. *)
Definition floor (x : num) : num :=
  match x with
  | S754_finite s m e =>
      match e with
      | Zneg p =>
          let z := cond_Zopp s (Zpos m) / 2 ^ Zpos p in
          if z =? 0 then S754_zero s else of_Z z
      | _ => x
      end
  | _ => x
  end.

(** [Math.round]: the closest integer, ties towards [+Infinity]. *)
Definition round (x : num) : num :=
  match x with
  | S754_finite s m e =>
      match e with
      | Zneg p =>
          let z := (2 * cond_Zopp s (Zpos m) + 2 ^ Zpos p) / 2 ^ (Zpos p + 1) in
          if z =? 0 then S754_zero s else of_Z z
      | _ => x
      end
  | _ => x
  end.

(** ECMA-262 [ToIntegerOrInfinity]: [NaN] and zeros give 0, infinities
    stay, other values are truncated towards zero. *)
Definition ToIntegerOrInfinity (x : num) : intinf :=
  match x with
  | S754_nan | S754_zero _ => Fin 0
  | S754_infinity false => PosInf
  | S754_infinity true => NegInf
  | S754_finite s m e =>
      match e with
      | Zneg p => Fin (cond_Zopp s (Zpos m / 2 ^ Zpos p))
      | _ => Fin (cond_Zopp s (Zpos m * 2 ^ e))
      end
  end.

(** *** [Number::toString]

    ECMA-262 writes a finite positive Number [x] with the integers
    [n], [k] and [s] such that [k >= 1], [10^(k-1) <= s < 10^k], the
    Number closest to [s * 10^(n-k)] is [x], and [k] is as small as
    possible; when several [s] qualify, the one closest to [x]. *)

Definition ndigits (z : Z) : Z :=
  Z.of_nat (String.length (digits_of_N (Z.to_N z))).

(** The largest [j] with [m * 10^j < d], for [m < d]. *)
Fixpoint decade_below (fuel : nat) (m d j : Z) : Z :=
  match fuel with
  | O => j
  | S fuel' =>
      if m * 10 <? d then decade_below fuel' (m * 10) d (j + 1) else j
  end.

(** The value [p / q] of a positive finite Number. *)
Definition fraction (m : positive) (e : Z) : Z * Z :=
  match e with
  | Zneg p => (Zpos m, 2 ^ Zpos p)
  | _ => (Zpos m * 2 ^ e, 1)
  end.

(** The [n] with [10^(n-1) <= p/q < 10^n]. *)
Definition decimal_exponent (p q : Z) : Z :=
  if p <? q then - decade_below 400 p q 0 else ndigits (p / q).

(** [floor (p/q / 10^ex)]. *)
Definition scaled_floor (p q ex : Z) : Z :=
  match ex with
  | Zneg _ => (p * 10 ^ (- ex)) / q
  | _ => p / (q * 10 ^ ex)
  end.

(** [p/q] against the midpoint of [s * 10^ex] and [(s+1) * 10^ex]:
    [Lt] when [s] is the closer one, [Gt] when [s+1] is, [Eq] on a tie. *)
Definition nearer_up (p q s ex : Z) : comparison :=
  match ex with
  | Zneg _ => (2 * p * 10 ^ (- ex)) ?= ((2 * s + 1) * q)
  | _ => (2 * p) ?= ((2 * s + 1) * 10 ^ ex * q)
  end.

Definition shortest_pick (x : num) (p q n k : Z) : option (Z * Z) :=
  let ex := n - k in
  let lo := scaled_floor p q ex in
  let hi := lo + 1 in
  let ok_lo := eqb (of_decimal lo ex) x in
  let ok_hi := eqb (of_decimal hi ex) x in
  let carry s := if s =? 10 ^ k then (10 ^ (k - 1), n + 1) else (s, n) in
  match ok_lo, ok_hi with
  | true, true =>
      match nearer_up p q lo ex with
      | Lt => Some (carry lo)
      | Gt => Some (carry hi)
      | Eq => Some (carry (if Z.even lo then lo else hi))
      end
  | true, false => Some (carry lo)
  | false, true => Some (carry hi)
  | false, false => None
  end.

Fixpoint shortest_from (fuel : nat) (x : num) (p q n k : Z) : Z * Z :=
  match fuel with
  | O => (scaled_floor p q (n - k), n)
  | S fuel' =>
      match shortest_pick x p q n k with
      | Some r => r
      | None => shortest_from fuel' x p q n (k + 1)
      end
  end.

(** The digits [s] and the exponent [n] of a positive finite Number. *)
Definition shortest (m : positive) (e : Z) : Z * Z :=
  let '(p, q) := fraction m e in
  shortest_from 17 (S754_finite false m e) p q (decimal_exponent p q) 1.

(** The decimal [digits * 10^(n - k)], [k] being the number of digits,
    written out in full. *)
Definition plain_text (digits : string) (n : Z) : string :=
  let k := Z.of_nat (String.length digits) in
  if k <=? n then digits ++ zeros (Z.to_nat (n - k))
  else if 0 <? n then
    substring 0 (Z.to_nat n) digits ++ "." ++
    substring (Z.to_nat n) (Z.to_nat (k - n)) digits
  else "0." ++ zeros (Z.to_nat (- n)) ++ digits.

(** The same decimal in exponential notation. *)
Definition exponent_text (digits : string) (n : Z) : string :=
  let k := Z.of_nat (String.length digits) in
  let c := if 0 <=? n - 1 then "+" else "-" in
  let ex := digits_of_N (Z.to_N (Z.abs (n - 1))) in
  if k =? 1 then digits ++ "e" ++ c ++ ex
  else substring 0 1 digits ++ "." ++
       substring 1 (Z.to_nat (k - 1)) digits ++ "e" ++ c ++ ex.

(** The last steps of [Number::toString], from the digits of [s] and
    the exponent [n]: in full when [-6 < n <= 21], with an exponent
    otherwise. *)
Definition format_decimal (digits : string) (n : Z) : string :=
  if (-6 <? n) && (n <=? 21) then plain_text digits n
  else exponent_text digits n.

(** [x.toString()]. *)
Definition toString (x : num) : string :=
  match x with
  | S754_nan => "NaN"
  | S754_zero _ => "0"
  | S754_infinity s => if s then "-Infinity" else "Infinity"
  | S754_finite s m e =>
      let '(d, n) := shortest m e in
      (if s then "-" else EmptyString) ++ format_decimal (digits_of_N (Z.to_N d)) n
  end.

(** *** [Number.prototype.toFixed] *)

(** The integer [n] for which [n / 10^f - q] is closest to zero, the
    larger one on a tie ([q >= 0]). *)
Definition round_half_up (q : Q) (f : nat) : N :=
  Z.to_N ((2 * Qnum q * 10 ^ Z.of_nat f + Zpos (Qden q)) / (2 * Zpos (Qden q))).

(** The digits of [n] with a point before the last [f] of them. *)
Definition fixed_digits (n : N) (f : nat) : string :=
  let m := digits_of_N n in
  match f with
  | O => m
  | _ =>
      let k := String.length m in
      let m := if (k <=? f)%nat then zeros (f + 1 - k) ++ m else m in
      let k := String.length m in
      substring 0 (k - f) m ++ "." ++ substring (k - f) f m
  end.

(** Steps 6 to 12 of [toFixed], for a digit count already checked. *)
Definition toFixed_digits (x : num) (f : nat) : string :=
  if negb (is_finite x) then toString x
  else
    let s := if ltb x pzero then "-" else EmptyString in
    let a := SFabs x in
    if leb (of_decimal 1 21) a then s ++ toString a
    else s ++ fixed_digits (round_half_up (to_Q a) f) f.

(** [x.toFixed(fractionDigits)], after [ToIntegerOrInfinity] of the
    argument: a [RangeError] unless [0 <= f <= 100]. *)
Definition toFixed (x : num) (f : intinf) : completion string :=
  match f with
  | Fin f =>
      if (f <? 0) || (100 <? f) then Throw RangeError
      else Normal (toFixed_digits x (Z.to_nat f))
  | _ => Throw RangeError
  end.

End B64.

(** ** The arithmetic of the accounting code

    The cost-basis loops use [+], [-], [*], [/], [<], [<=] and the
    literals [0] and [10] only.  They are written once over this
    interface.  [equal] is JavaScript's [==] on numbers; the code never
    calls it, the properties below are stated with it. *)

Class Arith (num : Type) : Type := {
  lit : Z -> num;
  plus : num -> num -> num;
  minus : num -> num -> num;
  times : num -> num -> num;
  divide : num -> num -> num;
  lt : num -> num -> bool;
  le : num -> num -> bool;
  equal : num -> num -> bool
}.

#[export] Instance B64_Arith : Arith B64.num := {|
  lit := B64.of_Z;
  plus := B64.add;
  minus := B64.sub;
  times := B64.mul;
  divide := B64.div;
  lt := B64.ltb;
  le := B64.leb;
  equal := B64.eqb
|}.

(** Exact arithmetic: rationals in lowest terms, so that equal numbers
    are equal terms. *)
Module Exact.

Definition ltb (a b : Qc) : bool := negb (Qle_bool b a).
Definition leb (a b : Qc) : bool := Qle_bool a b.
Definition eqb (a b : Qc) : bool := Qeq_bool a b.

(** The decimal [m * 10^e]. *)
Definition of_decimal (m e : Z) : Qc :=
  match e with
  | Zneg p => Q2Qc (m # (10 ^ p))
  | _ => Q2Qc (inject_Z (m * 10 ^ e))
  end.

End Exact.

#[export] Instance Exact_Arith : Arith Qc := {|
  lit := fun z => Q2Qc (inject_Z z);
  plus := Qcplus;
  minus := Qcminus;
  times := Qcmult;
  divide := Qcdiv;
  lt := Exact.ltb;
  le := Exact.leb;
  equal := Exact.eqb
|}.

(** ** The cost-basis engine *)

Section CostBasis.

Context {num : Type} `{Arith num}.

(** One record of the exchange's trade history, with [qty] and [price]
    already read by [parseFloat]. *)
Record Trade : Type := {
  qty : num;
  price : num;
  isBuyer : bool
}.

Record OpenState : Type := {
  openQty : num;
  openCost : num
}.

Definition clamp0 (x : num) : num := if lt x (lit 0) then lit 0 else x.

(** The body of the loop of [/positions] (server.js, lines 154 to 156). *)
Definition positions_step (feeRate : num) (s : OpenState) (t : Trade) : OpenState :=
  let q := qty t in
  let p := price t in
  let fee := times (times q p) feeRate in
  if isBuyer t then
    {| openQty := plus (openQty s) q;
       openCost := plus (openCost s) (plus (times q p) fee) |}
  else if lt (lit 0) (openQty s) then
    let avg := divide (openCost s) (openQty s) in
    let oq := minus (openQty s) q in
    let oc := minus (openCost s) (times q avg) in
    {| openQty := clamp0 oq; openCost := clamp0 oc |}
  else s.

Definition positions_pass (feeRate : num) (trades : list Trade) : OpenState :=
  fold_left (positions_step feeRate) trades
    {| openQty := lit 0; openCost := lit 0 |}.

(** What [/positions] computes for one resolved symbol, before it is
    formatted (server.js, lines 158 to 162). *)
Record PositionValues : Type := {
  pv_openQty : num;
  pv_breakEven : num;
  pv_price : num;
  pv_value : num;
  pv_pnl : num
}.

Definition position_values (feeRate : num) (trades : list Trade) (currentPrice : num)
  : option PositionValues :=
  let s := positions_pass feeRate trades in
  if le (openQty s) (lit 0) then None
  else
    let value := times (openQty s) currentPrice in
    if lt value (lit 10) then None
    else
      let breakEven := divide (openCost s) (openQty s) in
      let pnl := times (minus currentPrice breakEven) (openQty s) in
      Some {| pv_openQty := openQty s;
              pv_breakEven := breakEven;
              pv_price := currentPrice;
              pv_value := value;
              pv_pnl := pnl |}.

(** The body of the loop of [/breakeven/:symbol] (server.js, lines 191
    to 193): the same pass, without the two clamps. *)
Definition breakeven_step (feeRate : num) (s : OpenState) (t : Trade) : OpenState :=
  let q := qty t in
  let p := price t in
  let fee := times (times q p) feeRate in
  if isBuyer t then
    {| openQty := plus (openQty s) q;
       openCost := plus (openCost s) (plus (times q p) fee) |}
  else if lt (lit 0) (openQty s) then
    let avg := divide (openCost s) (openQty s) in
    {| openQty := minus (openQty s) q;
       openCost := minus (openCost s) (times q avg) |}
  else s.

Definition breakeven_pass (feeRate : num) (trades : list Trade) : OpenState :=
  fold_left (breakeven_step feeRate) trades
    {| openQty := lit 0; openCost := lit 0 |}.

(** The two numbers [/breakeven/:symbol] reports (server.js, line 195):
    [be] and the total quantity. *)
Definition breakeven_values (feeRate : num) (trades : list Trade) : num * num :=
  let s := breakeven_pass feeRate trades in
  let be := if lt (lit 0) (openQty s) then divide (openCost s) (openQty s) else lit 0 in
  (be, openQty s).

(** The earlier [/breakeven/:symbol] (part_000, lines 186 to 197): buys
    only, no fee.  It returns the break-even price, the total quantity
    and the total spent. *)
Definition buys_only_totals (trades : list Trade) : num * num :=
  fold_left (fun '(totalQty, totalSpent) t =>
               (plus totalQty (qty t), plus totalSpent (times (qty t) (price t))))
            trades (lit 0, lit 0).

Definition breakeven_buys_only (trades : list Trade) : num * num * num :=
  let buys := List.filter isBuyer trades in
  match buys with
  | [] => (lit 0, lit 0, lit 0)
  | _ =>
      let '(totalQty, totalSpent) := buys_only_totals buys in
      (divide totalSpent totalQty, totalQty, totalSpent)
  end.

End CostBasis.

Arguments Trade num : clear implicits.
Arguments OpenState num : clear implicits.
Arguments PositionValues num : clear implicits.

(** ** Reading numbers and writing query strings *)

Module JsValue.

Import JsString.
Local Open Scope string_scope.
Local Open Scope Z_scope.

(** The digits at the front of [s]: their value, their count, the rest. *)
Fixpoint take_digits (acc : Z) (count : Z) (s : string) : Z * Z * string :=
  match s with
  | EmptyString => (acc, count, s)
  | String a s' =>
      match digit_value a with
      | Some d => take_digits (10 * acc + d) (count + 1) s'
      | None => (acc, count, s)
      end
  end.

(** An exponent part [e], [e+] or [e-] followed by at least one digit. *)
Definition take_exponent (s : string) : Z :=
  match s with
  | String a s' =>
      if is_e a then
        match s' with
        | String "-" s'' =>
            let '(v, c, _) := take_digits 0 0 s'' in if 0 <? c then - v else 0
        | String "+" s'' =>
            let '(v, c, _) := take_digits 0 0 s'' in if 0 <? c then v else 0
        | _ => let '(v, c, _) := take_digits 0 0 s' in if 0 <? c then v else 0
        end
      else 0
  | EmptyString => 0
  end.

Definition starts_with_Infinity (s : string) : bool :=
  String.eqb (substring 0 8 s) "Infinity".

(** The unsigned part of a [StrDecimalLiteral]: [None] when [s] does not
    start with one. *)
Definition unsigned_literal (negative : bool) (s : string) : option B64.num :=
  if starts_with_Infinity s then Some (S754_infinity negative)
  else
    let '(ip, ic, rest) := take_digits 0 0 s in
    let '(m, fc, rest') :=
      match rest with
      | String "." r => let '(v, c, r') := take_digits ip 0 r in (v, c, r')
      | _ => (ip, 0, rest)
      end in
    if (ic =? 0) && (fc =? 0) then None
    else
      let ex := take_exponent rest' - fc in
      if m =? 0 then Some (S754_zero negative)
      else Some (B64.of_decimal (if negative then - m else m) ex).

(** [parseFloat(s)]: the longest prefix of [s], after white space,
    that is a decimal literal; [NaN] when there is none. *)
Definition parseFloat (s : string) : B64.num :=
  let r :=
    match trim_start s with
    | String "-" s' => unsigned_literal true s'
    | String "+" s' => unsigned_literal false s'
    | s' => unsigned_literal false s'
    end in
  default B64.nan r.

(** The values the code puts in request parameters. *)
Inductive value : Type :=
  | VStr (s : string)
  | VNum (x : B64.num).

Definition to_string (v : value) : string :=
  match v with
  | VStr s => s
  | VNum x => B64.toString x
  end.

Definition hex_digit (n : N) : ascii :=
  match n with
  | 0%N => "0" | 1%N => "1" | 2%N => "2" | 3%N => "3" | 4%N => "4"
  | 5%N => "5" | 6%N => "6" | 7%N => "7" | 8%N => "8" | 9%N => "9"
  | 10%N => "A" | 11%N => "B" | 12%N => "C" | 13%N => "D" | 14%N => "E"
  | _ => "F"
  end%char.

(** The [application/x-www-form-urlencoded] byte serializer. *)
Definition form_byte (a : ascii) : string :=
  let n := N_of_ascii a in
  if (n =? 32)%N then "+"
  else if (n =? 42)%N || (n =? 45)%N || (n =? 46)%N || (n =? 95)%N
          || ((48 <=? n)%N && (n <=? 57)%N)
          || ((65 <=? n)%N && (n <=? 90)%N)
          || ((97 <=? n)%N && (n <=? 122)%N)
  then String a EmptyString
  else String "%" (String (hex_digit (n / 16)) (String (hex_digit (n mod 16)) EmptyString)).

Fixpoint form_encode (s : string) : string :=
  match s with
  | EmptyString => EmptyString
  | String a s' => form_byte a ++ form_encode s'
  end.

(** [new URLSearchParams(params).toString()] for an object literal
    [params]: its properties in insertion order. *)
Fixpoint URLSearchParams_toString (params : list (string * value)) : string :=
  match params with
  | [] => EmptyString
  | [(k, v)] => form_encode k ++ "=" ++ form_encode (to_string v)
  | (k, v) :: rest =>
      form_encode k ++ "=" ++ form_encode (to_string v) ++ "&" ++
      URLSearchParams_toString rest
  end.

End JsValue.

(** ** The exchange, the clock and the cache

    The remote API is a collaborator: a reply (a value or a failure) and
    the time it took, for each request and the instant it was sent at.
    [Date.now()] reads the clock; only an [await] lets it advance. *)

Record Balance : Type := {
  asset : string;
  free : string;
  locked : string
}.

Record Account : Type := {
  accountType : string;
  balances : list Balance
}.

Record RawTrade : Type := {
  raw_qty : string;
  raw_price : string;
  raw_isBuyer : bool
}.

Record SymbolFilter : Type := {
  filterType : string;
  stepSize : string;
  minQty : string;
  tickSize : string
}.

Record SymbolInfo : Type := {
  symbol : string;
  filters : list SymbolFilter
}.

Record ExchangeInfo : Type := {
  symbols : list SymbolInfo
}.

Record Reply (A : Type) : Type := {
  outcome : completion A;
  elapsed : N
}.
Arguments outcome {A} r.
Arguments elapsed {A} r.

(** One successful or failed HTTP request per endpoint; the first
    argument is the URL, the second the [X-MBX-APIKEY]
    header, the third the instant of the request. *)
Record Exchange : Type := {
  api_account : string -> option string -> Z -> Reply Account;
  api_myTrades : string -> option string -> Z -> Reply (list RawTrade);
  api_ticker_price : string -> Z -> Reply string;
  api_exchangeInfo : string -> Z -> Reply ExchangeInfo
}.

(** [{ data, ts }] and [{ price, ts }]. *)
Record Entry (A : Type) : Type := {
  data : A;
  ts : Z
}.
Arguments data {A} e.
Arguments ts {A} e.

Record PriceEntry : Type := {
  pe_price : B64.num;
  pe_ts : Z
}.

(** The module-level variables of server.js, the clock, and the log of
    the requests sent so far (latest first). *)
Record World : Type := {
  clock : Z;
  cache_account : Entry (option Account);
  cache_trades : gmap string (Entry (list RawTrade));
  cache_prices : gmap string PriceEntry;
  exchangeInfoCache : Entry (option ExchangeInfo);
  requests : list string
}.

(** The state at start-up (server.js, lines 25 to 29 and 43). *)
Definition initial_world (t0 : Z) : World := {|
  clock := t0;
  cache_account := {| data := None; ts := 0 |};
  cache_trades := ∅;
  cache_prices := ∅;
  exchangeInfoCache := {| data := None; ts := 0 |};
  requests := []
|}.

(** Computations that read and write the world and may throw. *)
Definition M (A : Type) : Type := World -> completion A * World.

Definition ret {A : Type} (a : A) : M A := fun w => (Normal a, w).

Definition throw {A : Type} (e : error) : M A := fun w => (Throw e, w).

Definition bind {A B : Type} (m : M A) (k : A -> M B) : M B :=
  fun w =>
    match m w with
    | (Normal a, w') => k a w'
    | (Throw e, w') => (Throw e, w')
    end.

(** [try { m } catch { h }]. *)
Definition try_catch {A : Type} (m : M A) (h : error -> M A) : M A :=
  fun w =>
    match m w with
    | (Normal a, w') => (Normal a, w')
    | (Throw e, w') => h e w'
    end.

Definition lift {A : Type} (c : completion A) : M A := fun w => (c, w).

Definition get_world : M World := fun w => (Normal w, w).

Definition Date_now : M Z := fun w => (Normal (clock w), w).

(** [await axios.get(url)]: the request is logged, the clock advances by
    the time the reply took, and a failed request throws. *)
Definition await_get {A : Type} (url : string) (api : Z -> Reply A) : M A :=
  fun w =>
    let r := api (clock w) in
    (outcome r,
     {| clock := clock w + Z.of_N (elapsed r);
        cache_account := cache_account w;
        cache_trades := cache_trades w;
        cache_prices := cache_prices w;
        exchangeInfoCache := exchangeInfoCache w;
        requests := url :: requests w |}).

Definition set_cache_account (e : Entry (option Account)) : M unit :=
  fun w =>
    (Normal tt,
     {| clock := clock w;
        cache_account := e;
        cache_trades := cache_trades w;
        cache_prices := cache_prices w;
        exchangeInfoCache := exchangeInfoCache w;
        requests := requests w |}).

Definition set_cache_trades (sym : string) (e : Entry (list RawTrade)) : M unit :=
  fun w =>
    (Normal tt,
     {| clock := clock w;
        cache_account := cache_account w;
        cache_trades := <[sym := e]> (cache_trades w);
        cache_prices := cache_prices w;
        exchangeInfoCache := exchangeInfoCache w;
        requests := requests w |}).

Definition set_cache_prices (sym : string) (e : PriceEntry) : M unit :=
  fun w =>
    (Normal tt,
     {| clock := clock w;
        cache_account := cache_account w;
        cache_trades := cache_trades w;
        cache_prices := <[sym := e]> (cache_prices w);
        exchangeInfoCache := exchangeInfoCache w;
        requests := requests w |}).

Definition set_exchangeInfoCache (e : Entry (option ExchangeInfo)) : M unit :=
  fun w =>
    (Normal tt,
     {| clock := clock w;
        cache_account := cache_account w;
        cache_trades := cache_trades w;
        cache_prices := cache_prices w;
        exchangeInfoCache := e;
        requests := requests w |}).

Declare Scope js_scope.
Delimit Scope js_scope with js.
Notation "'let*' x := m 'in' k" := (bind m (fun x => k))
  (at level 10, x name, m at level 100, k at level 200,
   format "'[v' 'let*'  x  :=  m  'in' '/' k ']'") : js_scope.
Notation "m ;;; k" := (bind m (fun _ => k))
  (at level 100, k at level 200, right associativity) : js_scope.

(** ** server.js *)

Module Server.

Import JsString JsValue.
Local Open Scope string_scope.
Local Open Scope Z_scope.
Local Open Scope js_scope.

Definition ACCOUNT_TTL : Z := 5000.
Definition TRADES_TTL : Z := 60000.
Definition PRICE_TTL : Z := 5000.
Definition EXCHANGE_INFO_TTL : Z := 60 * 60 * 1000.
Definition BASE : string := "https://api.binance.us".

(** [parseFloat(process.env.BINANCE_FEE || 0.001)]: an unset or empty
    variable is falsy. *)
Definition FEE_RATE (BINANCE_FEE : option string) : B64.num :=
  match BINANCE_FEE with
  | Some (String a s) => parseFloat (String a s)
  | _ => parseFloat (B64.toString (B64.of_decimal 1 (-3)))
  end.

(** [Math.log10]: fixed by ECMA-262 at the special values, an
    implementation's approximation elsewhere. *)
Definition log10 (approx : B64.num -> B64.num) (x : B64.num) : B64.num :=
  match x with
  | S754_nan => B64.nan
  | S754_infinity false => B64.infinity
  | S754_infinity true => B64.nan
  | S754_zero _ => S754_infinity true
  | S754_finite true _ _ => B64.nan
  | S754_finite false _ _ =>
      if B64.eqb x (B64.of_Z 1) then B64.pzero else approx x
  end.

(** The response of a handler: [res.json(body)] or
    [res.status(500).json({ error })]. *)
Inductive Response (A : Type) : Type :=
  | Json (body : A)
  | Status500 (e : error).
Arguments Json {A} body.
Arguments Status500 {A} e.

Definition respond {A : Type} (m : M A) : World -> Response A * World :=
  fun w =>
    match m w with
    | (Normal a, w') => (Json a, w')
    | (Throw e, w') => (Status500 e, w')
    end.

Section Environment.

(** [crypto.createHmac("sha256", key).update(msg).digest("hex")] for
    a string key. *)
Variable hmac_sha256_hex : string -> string -> string.

(** [process.env.BINANCE_API_KEY] and [process.env.BINANCE_API_SECRET]:
    [None] is [undefined], a variable that is not set. *)
Variable API_KEY : option string.
Variable API_SECRET : option string.
Variable BINANCE_FEE : option string.

Variable exchange : Exchange.

Variable log10_approx : B64.num -> B64.num.

(** [crypto.createHmac] takes a string key of any length, the empty
    one included, and throws a [TypeError] for [undefined]. *)
Definition createHmac_hex (key : option string) (msg : string) : completion string :=
  match key with
  | Some k => Normal (hmac_sha256_hex k msg)
  | None => Throw TypeError
  end.

Definition signQuery (params : list (string * value)) : completion string :=
  let qs := URLSearchParams_toString params in
  match createHmac_hex API_SECRET qs with
  | Normal sig => Normal (qs ++ "&signature=" ++ sig)
  | Throw e => Throw e
  end.

Definition getExchangeInfo : M ExchangeInfo :=
  let refresh : M ExchangeInfo :=
    let url := BASE ++ "/api/v3/exchangeInfo" in
    let* r := await_get url (api_exchangeInfo exchange url) in
    let* now' := Date_now in
    set_exchangeInfoCache {| data := Some r; ts := now' |} ;;;
    ret r in
  let* w := get_world in
  let* now := Date_now in
  match data (exchangeInfoCache w) with
  | Some d =>
      if now - ts (exchangeInfoCache w) <? EXCHANGE_INFO_TTL then ret d
      else refresh
  | None => refresh
  end.

Definition adjustToStepSize (qty stepSize : B64.num) : completion string :=
  let precision := B64.round (log10 log10_approx (B64.div (B64.of_Z 1) stepSize)) in
  B64.toFixed (B64.mul (B64.floor (B64.div qty stepSize)) stepSize)
              (B64.ToIntegerOrInfinity precision).

Definition getAccountCached : M Account :=
  let refresh : M Account :=
    let* now := Date_now in
    let* qs := lift (signQuery [("timestamp", VNum (B64.of_Z now))]) in
    let url := BASE ++ "/api/v3/account?" ++ qs in
    let* r := await_get url (api_account exchange url API_KEY) in
    let* now' := Date_now in
    set_cache_account {| data := Some r; ts := now' |} ;;;
    ret r in
  let* w := get_world in
  let* now := Date_now in
  match data (cache_account w) with
  | Some d =>
      if now - ts (cache_account w) <? ACCOUNT_TTL then ret d
      else refresh
  | None => refresh
  end.

Definition getTradesCached (sym : string) : M (list RawTrade) :=
  let refresh : M (list RawTrade) :=
    let* now := Date_now in
    let q := "symbol=" ++ sym ++ "&timestamp=" ++ B64.toString (B64.of_Z now) in
    let* sig := lift (createHmac_hex API_SECRET q) in
    let url := BASE ++ "/api/v3/myTrades?" ++ q ++ "&signature=" ++ sig in
    let* r := await_get url (api_myTrades exchange url API_KEY) in
    let* now' := Date_now in
    set_cache_trades sym {| data := r; ts := now' |} ;;;
    ret r in
  let* w := get_world in
  let* now := Date_now in
  match cache_trades w !! sym with
  | Some c =>
      if now - ts c <? TRADES_TTL then ret (data c)
      else refresh
  | None => refresh
  end.

Definition getPriceCached (sym : string) : M B64.num :=
  let refresh : M B64.num :=
    let url := BASE ++ "/api/v3/ticker/price?symbol=" ++ sym in
    let* r := await_get url (api_ticker_price exchange url) in
    let price := parseFloat r in
    let* now' := Date_now in
    set_cache_prices sym {| pe_price := price; pe_ts := now' |} ;;;
    ret price in
  let* w := get_world in
  let* now := Date_now in
  match cache_prices w !! sym with
  | Some c =>
      if now - pe_ts c <? PRICE_TTL then ret (pe_price c)
      else refresh
  | None => refresh
  end.

(** *** [GET /positions] *)

Definition parse_trade (t : RawTrade) : Trade B64.num :=
  {| qty := parseFloat (raw_qty t);
     price := parseFloat (raw_price t);
     isBuyer := raw_isBuyer t |}.

Definition is_quote_asset (a : string) : bool :=
  String.eqb a "USD" || String.eqb a "USDT" || String.eqb a "USDC".

(** The assets held, with [free + locked], quote currencies left out
    (server.js, lines 139 and 140). *)
Definition held_assets (acct : Account) : list (string * B64.num) :=
  List.filter (fun a => B64.ltb (B64.of_Z 0) (snd a) && negb (is_quote_asset (fst a)))
         (map (fun b => (asset b, B64.add (parseFloat (free b)) (parseFloat (locked b))))
              (balances acct)).

(** What the candidate loop has assigned so far: [symbol], [trades]
    and [price], each [null] at first. *)
Record Resolved : Type := {
  r_symbol : option string;
  r_trades : option (list RawTrade);
  r_price : option B64.num
}.

(** The candidate loop (server.js, lines 147 to 149).  A candidate's
    failure is swallowed by the empty [catch]; [symbol] and [trades]
    are assigned before the price is awaited, so they stay assigned
    when that request fails. *)
Fixpoint resolve_symbol (candidates : list string) (st : Resolved) : M Resolved :=
  match candidates with
  | [] => ret st
  | s :: rest =>
      fun w =>
        match getTradesCached s w with
        | (Normal t, w1) =>
            match t with
            | [] => resolve_symbol rest st w1
            | _ :: _ =>
                match getPriceCached s w1 with
                | (Normal p, w2) =>
                    (Normal {| r_symbol := Some s; r_trades := Some t; r_price := Some p |}, w2)
                | (Throw _, w2) =>
                    resolve_symbol rest
                      {| r_symbol := Some s; r_trades := Some t; r_price := r_price st |} w2
                end
            end
        | (Throw _, w1) => resolve_symbol rest st w1
        end
  end.

(** One element of the response of [/positions]. *)
Record Position : Type := {
  pos_symbol : string;
  positionAmt : string;
  breakEven : string;
  entryPrice : string;
  currentPrice : string;
  marketValue : string;
  unrealizedPL : string
}.

Definition render_position (sym : string) (v : PositionValues B64.num) : Position :=
  {| pos_symbol := sym;
     positionAmt := B64.toFixed_digits (pv_openQty v) 8;
     breakEven := B64.toFixed_digits (pv_breakEven v) 8;
     entryPrice := B64.toFixed_digits (pv_breakEven v) 8;
     currentPrice := B64.toFixed_digits (pv_price v) 8;
     marketValue := B64.toFixed_digits (pv_value v) 2;
     unrealizedPL := B64.toFixed_digits (pv_pnl v) 2 |}.

(** The body of the loop over the assets: the positions pushed for
    one asset (none or one). *)
Definition position_of_asset (a : string) : M (list Position) :=
  let symbolCandidates := [a ++ "USDT"; a ++ "USDC"; a ++ "USD"] in
  let* r := resolve_symbol symbolCandidates
              {| r_symbol := None; r_trades := None; r_price := None |} in
  match r_symbol r, r_trades r, r_price r with
  | Some sym, Some trades, Some p =>
      match position_values (FEE_RATE BINANCE_FEE) (map parse_trade trades) p with
      | Some v => ret [render_position sym v]
      | None => ret []
      end
  | _, _, _ => ret []
  end.

Fixpoint positions_of_assets (assets : list (string * B64.num)) : M (list Position) :=
  match assets with
  | [] => ret []
  | a :: rest =>
      let* ps := position_of_asset (fst a) in
      let* qs := positions_of_assets rest in
      ret (ps ++ qs)%list
  end.

Definition get_positions : World -> Response (list Position) * World :=
  respond (let* acct := getAccountCached in
           positions_of_assets (held_assets acct)).

(** *** [GET /breakeven/:symbol] *)

Record BreakEven : Type := {
  be_breakEven : string;
  be_averagePrice : string;
  be_totalQuantity : string
}.

(** [symbol.toUpperCase()] on a text of ASCII characters: the letters a
    to z are changed and nothing else.  Outside ASCII the Unicode case
    mapping applies, which is not modelled; the properties of
    [get_breakeven] that depend on the key are stated for ASCII
    symbols. *)
Definition upper (a : ascii) : ascii :=
  let n := nat_of_ascii a in
  if ((97 <=? n) && (n <=? 122))%nat then ascii_of_nat (n - 32) else a.

Fixpoint toUpperCase (s : string) : string :=
  match s with
  | EmptyString => EmptyString
  | String a s' => String (upper a) (toUpperCase s')
  end.

Definition get_breakeven (param : string) : World -> Response BreakEven * World :=
  respond (let sym := toUpperCase param in
           let* trades := getTradesCached sym in
           let '(be, q) := breakeven_values (FEE_RATE BINANCE_FEE) (map parse_trade trades) in
           ret {| be_breakEven := B64.toFixed_digits be 8;
                  be_averagePrice := B64.toFixed_digits be 8;
                  be_totalQuantity := B64.toFixed_digits q 8 |}).

End Environment.

End Server.

(** ** The earlier server (part_000, part_003): tick and lot sizes *)

Module Legacy.

Import JsString.
Local Open Scope string_scope.
Local Open Scope Z_scope.

(** [countDecimals(num)].  The result is an integral Number, modelled
    by its integer, or [NaN], modelled by [None]. *)
Definition countDecimals (num : B64.num) : option Z :=
  let s := B64.toString num in
  if includes "e" s || includes "E" s then
    let parts := split_on is_e s in
    let base := nth 0 parts EmptyString in
    let exp := item 1 parts in
    let e := exp ≫= parseInt in
    let dec := Z.of_nat (String.length (or_empty (item 1 (split_on is_dot base)))) in
    match e with
    | Some e' => Some (Z.max 0 (dec - e'))
    | None => None
    end
  else if includes "." s then
    Some (Z.of_nat (String.length (or_empty (item 1 (split_on is_dot s)))))
  else Some 0.

(** [ToIntegerOrInfinity] of a result of [countDecimals]. *)
Definition fraction_digits (d : option Z) : intinf :=
  match d with
  | Some z => Fin z
  | None => Fin 0
  end.

Definition roundPrice (price tickSize : B64.num) : completion string :=
  let decimals := countDecimals tickSize in
  B64.toFixed (B64.mul (B64.floor (B64.div price tickSize)) tickSize)
              (fraction_digits decimals).

Definition adjustQtyForLotSize (qty stepSize minQty : B64.num) : completion string :=
  let n := B64.mul (B64.floor (B64.div qty stepSize)) stepSize in
  let n := if B64.ltb n minQty then minQty else n in
  let decimals := countDecimals stepSize in
  B64.toFixed n (fraction_digits decimals).

End Legacy.

(** ** The cost-basis pass as the specification words it

    "If it is a buy: [openQty += qty]; [openCost += qty*price +
    qty*price*feeRate].  If it is a sell and [openQty > 0]: compute
    [avg = openCost / openQty]; [openQty -= qty]; [openCost -= qty*avg];
    clamp both to zero if they go negative.  A sell encountered while
    [openQty == 0] is a no-op." *)

Section CostBasisSpec.

Context {num : Type} `{Arith num}.

Definition spec_clamp (x : num) : num := if lt x (lit 0) then lit 0 else x.

Definition spec_after_buy (feeRate : num) (s : OpenState num) (q p : num) : OpenState num :=
  {| openQty := plus (openQty s) q;
     openCost := plus (openCost s) (plus (times q p) (times (times q p) feeRate)) |}.

Definition spec_after_sell (s : OpenState num) (q : num) : OpenState num :=
  {| openQty := spec_clamp (minus (openQty s) q);
     openCost := spec_clamp (minus (openCost s) (times q (divide (openCost s) (openQty s)))) |}.

(** One trade takes the state [s] to the state [s'] as the
    specification says. *)
Definition spec_trade (feeRate : num) (s : OpenState num) (t : Trade num) (s' : OpenState num) : Prop :=
  (isBuyer t = true -> s' = spec_after_buy feeRate s (qty t) (price t)) /\
  (isBuyer t = false -> lt (lit 0) (openQty s) = true -> s' = spec_after_sell s (qty t)) /\
  (isBuyer t = false -> equal (openQty s) (lit 0) = true -> s' = s).

End CostBasisSpec.

(** ** Sums over a trade list, in the order of the list *)

Section Sums.

Context {num : Type} `{Arith num}.

Definition sum_of (f : Trade num -> num) (trades : list (Trade num)) : num :=
  fold_left (fun acc t => plus acc (f t)) trades (lit 0).

(** The sum of the quantities. *)
Definition sum_qty (trades : list (Trade num)) : num := sum_of qty trades.

(** The fee-inclusive cost: the sum of [qty*price + qty*price*feeRate]. *)
Definition sum_cost (feeRate : num) (trades : list (Trade num)) : num :=
  sum_of (fun t => plus (times (qty t) (price t))
                        (times (times (qty t) (price t)) feeRate)) trades.

(** The cost without fees: the sum of [qty*price]. *)
Definition sum_spent (trades : list (Trade num)) : num :=
  sum_of (fun t => times (qty t) (price t)) trades.

End Sums.

(** ** Sample trade histories *)

Module Samples.

Definition buy {num : Type} (q p : num) : Trade num :=
  {| qty := q; price := p; isBuyer := true |}.

Definition sell {num : Type} (q p : num) : Trade num :=
  {| qty := q; price := p; isBuyer := false |}.

Definition d := B64.of_decimal.

(** The default fee rate, [0.001]. *)
Definition fee : B64.num := Server.FEE_RATE None.

(** Buy 1 at 100, buy 1 at 200, sell 1 at 300. *)
Definition two_buys_one_sell : list (Trade B64.num) :=
  [buy (d 1 0) (d 100 0); buy (d 1 0) (d 200 0); sell (d 1 0) (d 300 0)].

(** Buy 1 at 100, then sell 2 at 100: an oversell. *)
Definition oversell : list (Trade B64.num) :=
  [buy (d 1 0) (d 100 0); sell (d 2 0) (d 100 0)].

(** Buy 0.1 at 0.53, then sell 0.1: a full close. *)
Definition full_close : list (Trade B64.num) :=
  [buy (d 1 (-1)) (d 53 (-2)); sell (d 1 (-1)) (d 60 (-2))].

(** Buy 2 at 10. *)
Definition one_buy : list (Trade B64.num) := [buy (d 2 0) (d 10 0)].

(** Buy 2 at 5: worth exactly 10 at the price 5. *)
Definition worth_ten : list (Trade B64.num) := [buy (d 2 0) (d 5 0)].

End Samples.

(** ** The cache contract

    "[get(category, key, ttl, fetcher)] returns the cached value if
    [now - fetchedAt < ttl]; otherwise invokes [fetcher], stores the
    result with a fresh timestamp, and returns it."  A cached read is
    described by the entry it looks at, its TTL, and the request it makes
    on a miss. *)

(** Time passing between two reads. *)
Definition advance (delta : Z) (w : World) : World :=
  {| clock := clock w + delta;
     cache_account := cache_account w;
     cache_trades := cache_trades w;
     cache_prices := cache_prices w;
     exchangeInfoCache := exchangeInfoCache w;
     requests := requests w |}.

(** No fresh value: nothing stored, or stored [ttl] or more ago. *)
Definition stale {A : Type} (stored : World -> option (Entry A)) (ttl : Z) (w : World) : Prop :=
  stored w = None \/ exists c, stored w = Some c /\ ttl <= clock w - ts c.

Record CacheContract {A : Type} (read : M A) (stored : World -> option (Entry A))
       (ttl : Z) (request : World -> string * Reply A) : Prop := {
  (** a fresh value is returned as stored; nothing is sent, nothing changes *)
  cc_fresh : forall w c,
    stored w = Some c -> clock w - ts c < ttl ->
    read w = (Normal (data c), w);
  (** otherwise one request is sent; its result is stored with the time
      of its arrival and returned *)
  cc_refresh : forall w d,
    stale stored ttl w ->
    outcome (snd (request w)) = Normal d ->
    exists w',
      read w = (Normal d, w') /\
      stored w' = Some {| data := d; ts := clock w' |} /\
      clock w' = clock w + Z.of_N (elapsed (snd (request w))) /\
      requests w' = fst (request w) :: requests w;
  (** a failed request is thrown on and leaves the entry as it was *)
  cc_failure : forall w e,
    stale stored ttl w ->
    outcome (snd (request w)) = Throw e ->
    exists w',
      read w = (Throw e, w') /\
      stored w' = stored w /\
      requests w' = fst (request w) :: requests w;
  (** two reads within the TTL: the same value, one request *)
  cc_twice : forall w d delta,
    stale stored ttl w ->
    outcome (snd (request w)) = Normal d ->
    0 <= delta < ttl ->
    exists w',
      read w = (Normal d, w') /\
      read (advance delta w') = (Normal d, advance delta w') /\
      requests (advance delta w') = fst (request w) :: requests w;
  (** a read once the TTL has elapsed sends a request again *)
  cc_expired : forall w d delta,
    stale stored ttl w ->
    outcome (snd (request w)) = Normal d ->
    ttl <= delta ->
    exists w',
      read w = (Normal d, w') /\
      requests (snd (read (advance delta w'))) =
        fst (request (advance delta w')) :: fst (request w) :: requests w
}.

(** What each cached read of server.js looks at, and the request it makes. *)
Module CacheReads.

Import JsValue.
Local Open Scope string_scope.

Definition stored_account (w : World) : option (Entry Account) :=
  match data (cache_account w) with
  | Some d => Some {| data := d; ts := ts (cache_account w) |}
  | None => None
  end.

Definition stored_trades (sym : string) (w : World) : option (Entry (list RawTrade)) :=
  cache_trades w !! sym.

Definition stored_price (sym : string) (w : World) : option (Entry B64.num) :=
  match cache_prices w !! sym with
  | Some c => Some {| data := pe_price c; ts := pe_ts c |}
  | None => None
  end.

Definition stored_info (w : World) : option (Entry ExchangeInfo) :=
  match data (exchangeInfoCache w) with
  | Some d => Some {| data := d; ts := ts (exchangeInfoCache w) |}
  | None => None
  end.

Section Requests.

Variable hmac_sha256_hex : string -> string -> string.
Variable API_KEY : option string.
Variable secret : string.
Variable exchange : Exchange.

Definition account_url (w : World) : string :=
  let qs := URLSearchParams_toString [("timestamp", VNum (B64.of_Z (clock w)))] in
  Server.BASE ++ "/api/v3/account?" ++ qs ++ "&signature=" ++ hmac_sha256_hex secret qs.

Definition account_request (w : World) : string * Reply Account :=
  (account_url w, api_account exchange (account_url w) API_KEY (clock w)).

Definition trades_url (sym : string) (w : World) : string :=
  let q := "symbol=" ++ sym ++ "&timestamp=" ++ B64.toString (B64.of_Z (clock w)) in
  Server.BASE ++ "/api/v3/myTrades?" ++ q ++ "&signature=" ++ hmac_sha256_hex secret q.

Definition trades_request (sym : string) (w : World) : string * Reply (list RawTrade) :=
  (trades_url sym w, api_myTrades exchange (trades_url sym w) API_KEY (clock w)).

Definition price_url (sym : string) : string :=
  Server.BASE ++ "/api/v3/ticker/price?symbol=" ++ sym.

(** The price is stored after [parseFloat]. *)
Definition price_request (sym : string) (w : World) : string * Reply B64.num :=
  let r := api_ticker_price exchange (price_url sym) (clock w) in
  (price_url sym,
   {| outcome := match outcome r with
                 | Normal s => Normal (parseFloat s)
                 | Throw e => Throw e
                 end;
      elapsed := elapsed r |}).

Definition info_url : string := Server.BASE ++ "/api/v3/exchangeInfo".

Definition info_request (w : World) : string * Reply ExchangeInfo :=
  (info_url, api_exchangeInfo exchange info_url (clock w)).

End Requests.

End CacheReads.

(** ** A sample exchange *)

Module SampleExchange.

Local Open Scope string_scope.

Definition account : Account :=
  {| accountType := "SPOT";
     balances := [ {| asset := "BTC"; free := "2.00000000"; locked := "0.00000000" |};
                   {| asset := "USD"; free := "50.00"; locked := "0.00" |} ] |}.

Definition trades : list RawTrade :=
  [ {| raw_qty := "2.00000000"; raw_price := "10.00000000"; raw_isBuyer := true |} ].

Definition info : ExchangeInfo :=
  {| symbols := [ {| symbol := "BTCUSDT";
                     filters := [ {| filterType := "LOT_SIZE"; stepSize := "0.00100000";
                                     minQty := "0.00100000"; tickSize := EmptyString |} ] |} ] |}.

(** Every request succeeds after 20 ms. *)
Definition exchange : Exchange :=
  {| api_account := fun _ _ _ => {| outcome := Normal account; elapsed := 20 |};
     api_myTrades := fun _ _ _ => {| outcome := Normal trades; elapsed := 20 |};
     api_ticker_price := fun _ _ => {| outcome := Normal "20.00000000"; elapsed := 20 |};
     api_exchangeInfo := fun _ _ => {| outcome := Normal info; elapsed := 20 |} |}.

(** A stand-in for the keyed hash: the properties below do not depend on
    the digest. *)
Definition digest (key msg : string) : string := "00".

End SampleExchange.

(** ** Strings of digits *)

Module Digits.

Import JsString.

Fixpoint all_chars (P : ascii -> bool) (s : string) : bool :=
  match s with
  | EmptyString => true
  | String a s' => P a && all_chars P s'
  end.

Definition is_digit (a : ascii) : bool :=
  match digit_value a with
  | Some _ => true
  | None => false
  end.

(** The number of digits after the point when [digits * 10^(n - k)] is
    written out in full, [k] being the number of digits. *)
Definition fraction_length (digits : string) (n : Z) : Z :=
  Z.max 0 (Z.of_nat (String.length digits) - n).

(** The body of [countDecimals] (part_000, lines 38 to 45) on the text
    [s] of the number. *)
Definition count_in_text (s : string) : option Z :=
  if includes "e" s || includes "E" s then
    let parts := split_on is_e s in
    let base := nth 0 parts EmptyString in
    let exp := item 1 parts in
    let e := exp ≫= parseInt in
    let dec := Z.of_nat (String.length (or_empty (item 1 (split_on is_dot base)))) in
    match e with
    | Some e' => Some (Z.max 0 (dec - e'))
    | None => None
    end
  else if includes "." s then
    Some (Z.of_nat (String.length (or_empty (item 1 (split_on is_dot s)))))
  else Some 0.

End Digits.

(** An exchange on which nothing was ever traded. *)
Definition exchange_without_history : Exchange :=
  {| api_account := api_account SampleExchange.exchange;
     api_myTrades := fun _ _ _ => {| outcome := Normal []; elapsed := 20 |};
     api_ticker_price := api_ticker_price SampleExchange.exchange;
     api_exchangeInfo := api_exchangeInfo SampleExchange.exchange |}.

(** Every cached trade list is empty. *)
Definition no_cached_trades (w : World) : Prop :=
  forall (s : string) (c : Entry (list RawTrade)),
    cache_trades w !! s = Some c -> data c = [].

(** ** Lot sizes in any arithmetic *)

(** [Math.floor]. *)
Class MathFloor (num : Type) : Type := {
  math_floor : num -> num
}.

#[export] Instance B64_MathFloor : MathFloor B64.num := {| math_floor := B64.floor |}.

#[export] Instance Exact_MathFloor : MathFloor Qc :=
  {| math_floor := fun q : Qc => Q2Qc (inject_Z (Qfloor q)) |}.

Section LotValue.

Context {num : Type} `{Arith num} `{MathFloor num}.

(** [Math.floor(qty / stepSize) * stepSize] (part_000, line 56). *)
Definition floored_multiple (qty stepSize : num) : num :=
  times (math_floor (divide qty stepSize)) stepSize.

(** The value [n] that [adjustQtyForLotSize] formats (part_000, lines
    56 and 57). *)
Definition lot_value (qty stepSize minQty : num) : num :=
  let n := floored_multiple qty stepSize in
  if lt n minQty then minQty else n.

End LotValue.

(** ** Texts in ASCII *)

(** A text whose characters are all ASCII, code units below 128.  On
    such a text [toUpperCase] changes the letters a to z and nothing
    else, which is what [Server.toUpperCase] does. *)
Fixpoint ascii_text (s : string) : bool :=
  match s with
  | EmptyString => true
  | String a s' => (nat_of_ascii a <? 128)%nat && ascii_text s'
  end.

(** ** Numbers that are not negative *)

(** What the invariants of the cost-basis code need of [+] and [*]:
    neither makes a negative number out of two numbers that are not
    negative. *)
Class SignLaws (num : Type) `{Arith num} : Prop := {
  plus_not_negative : forall a b,
    lt a (lit 0) = false -> lt b (lit 0) = false -> lt (plus a b) (lit 0) = false;
  times_not_negative : forall a b,
    lt a (lit 0) = false -> lt b (lit 0) = false -> lt (times a b) (lit 0) = false
}.

Section NotNegative.

Context {num : Type} `{Arith num}.

(** A trade as the exchange reports it: neither the quantity nor the
    price is below zero. *)
Definition plain_trade (t : Trade num) : Prop :=
  lt (qty t) (lit 0) = false /\ lt (price t) (lit 0) = false.

Definition not_negative (s : OpenState num) : Prop :=
  lt (openQty s) (lit 0) = false /\ lt (openCost s) (lit 0) = false.

(** The states a pass goes through after each trade. *)
Fixpoint states_from (step : OpenState num -> Trade num -> OpenState num)
         (s : OpenState num) (trades : list (Trade num)) : list (OpenState num) :=
  match trades with
  | [] => []
  | t :: rest => step s t :: states_from step (step s t) rest
  end.

End NotNegative.

(** ** What a read or a handler may change *)

(** The world after one request that took [el] milliseconds. *)
Definition after_request (url : string) (el : N) (w : World) : World :=
  {| clock := clock w + Z.of_N el;
     cache_account := cache_account w;
     cache_trades := cache_trades w;
     cache_prices := cache_prices w;
     exchangeInfoCache := exchangeInfoCache w;
     requests := url :: requests w |}.

(** From [w] to [w'] the clock does not go back, at most [n] requests
    are added to the log, the exchange information stays as it was, no
    cached trade list or price is removed, and those of the symbols
    outside [keys] stay as they were. *)
Record Touches (keys : list string) (n : nat) (w w' : World) : Prop := {
  t_clock : clock w <= clock w';
  t_requests : exists sent,
    requests w' = (sent ++ requests w)%list /\ (List.length sent <= n)%nat;
  t_info : exchangeInfoCache w' = exchangeInfoCache w;
  t_trades : forall s, ~ In s keys -> cache_trades w' !! s = cache_trades w !! s;
  t_prices : forall s, ~ In s keys -> cache_prices w' !! s = cache_prices w !! s;
  t_trades_kept : forall s, is_Some (cache_trades w !! s) -> is_Some (cache_trades w' !! s);
  t_prices_kept : forall s, is_Some (cache_prices w !! s) -> is_Some (cache_prices w' !! s)
}.

(** The pairs [/positions] tries for an asset (server.js, line 144). *)
Definition candidates (a : string) : list string :=
  [(a ++ "USDT")%string; (a ++ "USDC")%string; (a ++ "USD")%string].

(** No cached price is fresh. *)
Definition no_fresh_price (w : World) : Prop :=
  forall (s : string) (c : PriceEntry),
    cache_prices w !! s = Some c -> Server.PRICE_TTL <= clock w - pe_ts c.

(** An exchange whose price endpoint is down. *)
Definition exchange_without_prices : Exchange :=
  {| api_account := api_account SampleExchange.exchange;
     api_myTrades := api_myTrades SampleExchange.exchange;
     api_ticker_price := fun _ _ => {| outcome := Throw (RequestFailed 503); elapsed := 20 |};
     api_exchangeInfo := api_exchangeInfo SampleExchange.exchange |}.

(** ** [GET /balances] *)

Module Balances.

Import JsString JsValue.
Local Open Scope string_scope.
Local Open Scope Z_scope.
Local Open Scope js_scope.

(** One element of the response. *)
Record Row : Type := {
  row_asset : string;
  row_free : string;
  row_locked : string;
  row_total : string
}.

(** [parseFloat(b.free) + parseFloat(b.locked)]. *)
Definition total (b : Balance) : B64.num :=
  B64.add (parseFloat (free b)) (parseFloat (locked b)).

(** The [map] and the [filter] of the handler (part_002, lines 119 to
    126, with 8 digits; part_000, lines 97 to 104, with 12). *)
Definition rows (digits : nat) (bs : list Balance) : list Row :=
  List.filter (fun r => B64.ltb (B64.of_Z 0) (parseFloat (row_total r)))
    (map (fun b => {| row_asset := asset b;
                      row_free := free b;
                      row_locked := locked b;
                      row_total := B64.toFixed_digits (total b) digits |}) bs).

Section Environment.

Variable hmac_sha256_hex : string -> string -> string.
Variable API_KEY : option string.
Variable API_SECRET : option string.
Variable exchange : Exchange.

(** The handler that reads the account through the cache (part_002,
    lines 115 to 132). *)
Definition get_balances : World -> Server.Response (list Row) * World :=
  Server.respond
    (let* acct := Server.getAccountCached hmac_sha256_hex API_KEY API_SECRET exchange in
     ret (rows 8 (balances acct))).

(** The earlier handler, which asks the exchange every time (part_000,
    lines 88 to 110). *)
Definition get_balances_uncached : World -> Server.Response (list Row) * World :=
  Server.respond
    (let* ts := Date_now in
     let* query := lift (Server.signQuery hmac_sha256_hex API_SECRET
                           [("timestamp", VNum (B64.of_Z ts))]) in
     let url := Server.BASE ++ "/api/v3/account?" ++ query in
     let* r := await_get url (api_account exchange url API_KEY) in
     ret (rows 12 (balances r))).

End Environment.

End Balances.

(** A balance of 0.000000004. *)
Definition dust_balance : Balance :=
  {| asset := "ETH"; free := "0.000000004"; locked := "0" |}%string.

(** ** [POST /order] (server.js) *)

Module Orders.

Import JsString JsValue.
Local Open Scope string_scope.
Local Open Scope Z_scope.
Local Open Scope js_scope.

(** The fields the handler reads from [req.body], each a string or a
    Number of the JSON body; [None] is [undefined], a field that is
    absent. *)
Record Body : Type := {
  body_symbol : option value;
  body_side : option value;
  body_quantity : option value;
  body_type : option value;
  body_price : option value;
  body_timeInForce : option value
}.

(** [!v] is false: [undefined], the empty string, the zeros and [NaN]
    are falsy. *)
Definition truthy (v : option value) : bool :=
  match v with
  | None => false
  | Some (VStr s) => negb (String.eqb s EmptyString)
  | Some (VNum x) => negb (B64.is_zero x || B64.is_nan x)
  end.

(** [s === v] for a string [s]. *)
Definition is_string (s : string) (v : value) : bool :=
  match v with
  | VStr t => String.eqb t s
  | VNum _ => false
  end.

(** What the handler answers: [res.json(r.data)],
    [res.status(400).json({ error })] or [res.status(500).json(...)]. *)
Inductive Answer : Type :=
  | Sent (data : string)
  | Status400 (error : string)
  | Status500 (e : error).

Definition answer (m : M Answer) : World -> Answer * World :=
  fun w =>
    match m w with
    | (Normal a, w') => (a, w')
    | (Throw e, w') => (Status500 e, w')
    end.

(** [await axios.post(url, null, ...)]: logged and timed like a
    [get]. *)
Definition await_post {A : Type} (url : string) (api : Z -> Reply A) : M A :=
  await_get url api.

(** The object [params] (server.js, lines 117 to 122): the text of an
    error when a limit order has no price. *)
Definition order_params (symbolv sidev type : value) (qty : B64.num) (now : Z)
           (price timeInForce : option value) : string + list (string * value) :=
  let params := [("symbol", symbolv); ("side", sidev); ("type", type);
                 ("quantity", VNum qty); ("timestamp", VNum (B64.of_Z now))] in
  if is_string "LIMIT" type then
    match price with
    | Some p =>
        if truthy price then
          inr (params ++ [("price", p);
                          ("timeInForce",
                           if truthy timeInForce then default (VStr "GTC") timeInForce
                           else VStr "GTC")])%list
        else inl "LIMIT requires price"
    | None => inl "LIMIT requires price"
    end
  else inr params.

Section Environment.

Variable hmac_sha256_hex : string -> string -> string.
Variable API_KEY : option string.
Variable API_SECRET : option string.
Variable exchange : Exchange.
Variable log10_approx : B64.num -> B64.num.

(** [POST /api/v3/order]: the reply to a request, from its URL, its
    [X-MBX-APIKEY] header and the instant it is sent at. *)
Variable api_order : string -> option string -> Z -> Reply string.

(** The handler from the exchange information on (server.js, lines
    106 to 126). *)
Definition place (symbolv sidev quantityv : value) (body : Body) (info : ExchangeInfo)
  : M Answer :=
  let type := default (VStr "MARKET") (body_type body) in
  match List.find (fun s => is_string (symbol s) symbolv) (symbols info) with
  | None => ret (Status400 "Unknown symbol")
  | Some sym =>
      match List.find (fun f => String.eqb (filterType f) "LOT_SIZE") (filters sym) with
      | None => throw TypeError
      | Some lot =>
          let stepSize := parseFloat (stepSize lot) in
          let minQty := parseFloat (minQty lot) in
          let qty := parseFloat (to_string quantityv) in
          let* adjusted := lift (Server.adjustToStepSize log10_approx qty stepSize) in
          let qty := parseFloat adjusted in
          if B64.ltb qty minQty then
            ret (Status400 ("Quantity " ++ B64.toString qty ++
                            " < minQty " ++ B64.toString minQty))
          else
            let* now := Date_now in
            match order_params symbolv sidev type qty now
                    (body_price body) (body_timeInForce body) with
            | inl error => ret (Status400 error)
            | inr params =>
                let* qs := lift (Server.signQuery hmac_sha256_hex API_SECRET params) in
                let url := Server.BASE ++ "/api/v3/order?" ++ qs in
                let* r := await_post url (api_order url API_KEY) in
                ret (Sent r)
            end
      end
  end.

(** The handler (server.js, lines 100 to 131). *)
Definition post_order (body : Body) : World -> Answer * World :=
  answer
    (match body_symbol body, body_side body, body_quantity body with
     | Some symbolv, Some sidev, Some quantityv =>
         if truthy (body_symbol body) && truthy (body_side body) && truthy (body_quantity body)
         then
           let* info := Server.getExchangeInfo exchange in
           place symbolv sidev quantityv body info
         else ret (Status400 "Missing required parameters")
     | _, _, _ => ret (Status400 "Missing required parameters")
     end).

End Environment.

End Orders.

(** An order for 0.0025 BTC, and an order endpoint that accepts
    everything. *)
Definition sample_order : Orders.Body :=
  {| Orders.body_symbol := Some (JsValue.VStr "BTCUSDT");
     Orders.body_side := Some (JsValue.VStr "BUY");
     Orders.body_quantity := Some (JsValue.VStr "0.0025");
     Orders.body_type := None;
     Orders.body_price := None;
     Orders.body_timeInForce := None |}%string.


Definition accepting_orders : string -> option string -> Z -> Reply string :=
  fun _ _ _ => {| outcome := Normal "{}"%string; elapsed := 20 |}.

(** [Math.log10] where the sample needs it, at 1000. *)
Definition log10_of_1000 : B64.num -> B64.num := fun _ => B64.of_Z 3.

(** ** The order handler that tracks positions (part_001) *)

Section Tracking.

Context {num : Type} `{Arith num}.

(** [positions[symbol]] (part_001, line 5). *)
Record Tracked : Type := {
  totalQty : num;
  totalCost : num;
  avgPrice : num;
  trackedBreakEven : num
}.

(** The object stored for a symbol that is seen for the first time
    (part_001, lines 65 to 70). *)
Definition untracked : Tracked :=
  {| totalQty := lit 0; totalCost := lit 0; avgPrice := lit 0; trackedBreakEven := lit 0 |}.

(** The two [if] statements of part_001, lines 75 to 99, on the object
    [pos]; [qty] and [price] are the Numbers of [qty * price]. *)
Definition track (side : string) (qty price : num) (pos : Tracked) : Tracked :=
  let pos :=
    if String.eqb side "BUY" then
      let cost := times qty price in
      let tq := plus (totalQty pos) qty in
      let tc := plus (totalCost pos) cost in
      let avg := divide tc tq in
      {| totalQty := tq; totalCost := tc; avgPrice := avg; trackedBreakEven := avg |}
    else pos in
  if String.eqb side "SELL" then
    let costPortion := times (avgPrice pos) qty in
    let tq := minus (totalQty pos) qty in
    let tc := minus (totalCost pos) costPortion in
    if le tq (lit 0) then
      {| totalQty := lit 0; totalCost := lit 0; avgPrice := lit 0; trackedBreakEven := lit 0 |}
    else
      let avg := divide tc tq in
      {| totalQty := tq; totalCost := tc; avgPrice := avg; trackedBreakEven := avg |}
  else pos.

(** An order the exchange has accepted, as the tracking code sees
    it. *)
Record Placed : Type := {
  placed_symbol : string;
  placed_side : string;
  placed_qty : num;
  placed_price : num
}.

(** The fill of an accepted order, as the trade history would list
    it. *)
Definition placed_trade (o : Placed) : Trade num :=
  {| qty := placed_qty o; price := placed_price o;
     isBuyer := String.eqb (placed_side o) "BUY" |}.

End Tracking.

Arguments Tracked num : clear implicits.
Arguments Placed num : clear implicits.

(** The names that every object inherits from [Object.prototype].
    For each of them [positions[symbol]] is a function, and for
    [__proto__] the prototype itself: it is truthy though nothing has
    been stored under the name. *)
Definition inherited_key (s : string) : bool :=
  existsb (String.eqb s)
    ["constructor"; "__defineGetter__"; "__defineSetter__"; "hasOwnProperty";
     "__lookupGetter__"; "__lookupSetter__"; "isPrototypeOf"; "propertyIsEnumerable";
     "toString"; "valueOf"; "__proto__"; "toLocaleString"]%string.

(** What the arithmetic of lines 75 to 99 reads from four fields that
    are [undefined]. *)
Definition undefined_fields : Tracked B64.num :=
  {| totalQty := B64.nan; totalCost := B64.nan; avgPrice := B64.nan;
     trackedBreakEven := B64.nan |}.

(** The object [positions] is kept as a map together with the objects
    it inherits from: under a name of its own, the object stored for a
    symbol; under an inherited name, the four fields once the handler
    has written them on the inherited object.

    [inherited_fields positions symbol] is what [pos.totalQty] and the
    three other fields are for the inherited object [positions[symbol]]:
    its own fields, or those of [Object.prototype], which every object
    inherits and which an order for [__proto__] writes; [None] when
    they are [undefined]. *)
Definition inherited_fields (positions : gmap string (Tracked B64.num)) (symbol : string)
  : option (Tracked B64.num) :=
  match positions !! symbol with
  | Some pos => Some pos
  | None => positions !! "__proto__"%string
  end.

(** Lines 64 to 99 on the object [positions].  For a name of its own
    the entry is created when it is missing, then updated in place.
    For an inherited name [!positions[symbol]] is false: no entry is
    created, [pos] is the inherited object, and a buy or a sell writes
    the four fields on it, computed from fields that were [undefined]
    when it had none. *)
Definition track_order (positions : gmap string (Tracked B64.num)) (o : Placed B64.num)
  : gmap string (Tracked B64.num) :=
  if inherited_key (placed_symbol o) then
    if String.eqb (placed_side o) "BUY" || String.eqb (placed_side o) "SELL" then
      <[placed_symbol o :=
          track (placed_side o) (placed_qty o) (placed_price o)
            (default undefined_fields (inherited_fields positions (placed_symbol o)))]>
        positions
    else positions
  else
    let positions :=
      match positions !! placed_symbol o with
      | Some _ => positions
      | None => <[placed_symbol o := untracked]> positions
      end in
    match positions !! placed_symbol o with
    | Some pos =>
        <[placed_symbol o := track (placed_side o) (placed_qty o) (placed_price o) pos]> positions
    | None => positions
    end.

(** The fields [pos.totalQty] to [pos.breakEven] that the answer
    carries (part_001, lines 103 to 109); [None] when they are
    [undefined]. *)
Definition answered_position (positions : gmap string (Tracked B64.num)) (symbol : string)
  : option (Tracked B64.num) :=
  if inherited_key symbol then inherited_fields positions symbol else positions !! symbol.


(** The object [positions] after a sequence of accepted orders, from
    the empty object the server starts with (part_001, line 4). *)
Definition track_orders (orders : list (Placed B64.num)) : gmap string (Tracked B64.num) :=
  fold_left track_order orders ∅.

(** Two buys of BTCUSDT: 1 at 100, then 1 at 200. *)
Definition two_placed_buys : list (Placed B64.num) :=
  [ {| placed_symbol := "BTCUSDT"; placed_side := "BUY";
       placed_qty := B64.of_Z 1; placed_price := B64.of_Z 100 |};
    {| placed_symbol := "BTCUSDT"; placed_side := "BUY";
       placed_qty := B64.of_Z 1; placed_price := B64.of_Z 200 |} ]%string.

(** ** The quote currency of a symbol (part_000, part_003) *)

Module Quote.

Local Open Scope string_scope.

(** [s.endsWith(suffix)]. *)
Definition endsWith (suffix s : string) : bool :=
  let n := String.length s in
  let k := String.length suffix in
  if (k <=? n)%nat then String.eqb (substring (n - k) k s) suffix else false.

(** [getQuoteCurrency(symbol)] (part_000, lines 63 to 68); [None] is
    [null]. *)
Definition getQuoteCurrency (symbol : string) : option string :=
  if endsWith "USDT" symbol then Some "USDT"
  else if endsWith "USDC" symbol then Some "USDC"
  else if endsWith "USD" symbol then Some "USD"
  else None.

(** [s.startsWith(p)]. *)
Fixpoint startsWith (p s : string) : bool :=
  match p, s with
  | EmptyString, _ => true
  | String a p', String b s' => Ascii.eqb a b && startsWith p' s'
  | String _ _, EmptyString => false
  end.

(** [s.slice(n)]. *)
Fixpoint drop (n : nat) (s : string) : string :=
  match n, s with
  | O, _ => s
  | S n', String _ s' => drop n' s'
  | S _, EmptyString => EmptyString
  end.

(** [s.includes(p)]. *)
Fixpoint occurs (p s : string) : bool :=
  startsWith p s ||
  match s with
  | EmptyString => false
  | String _ s' => occurs p s'
  end.

(** [s.replace(p, empty)] for a string pattern [p] and the empty
    replacement: the first occurrence of [p] is taken out. *)
Fixpoint remove_first (p s : string) : string :=
  if startsWith p s then drop (String.length p) s
  else match s with
       | EmptyString => EmptyString
       | String a s' => String a (remove_first p s')
       end.

(** [symbol.replace(quote, empty)] (part_000, line 135), [quote] being
    what [getQuoteCurrency] returned: [null] is read as the text
    [null]. *)
Definition base_asset (symbol : string) : string :=
  remove_first (default "null" (getQuoteCurrency symbol)) symbol.

(** The last character of a text. *)
Fixpoint last_char (s : string) : option ascii :=
  match s with
  | EmptyString => None
  | String a EmptyString => Some a
  | String _ s' => last_char s'
  end.

End Quote.

(** ** [Number(v)] *)

Module Coercion.

Import JsString JsValue.
Local Open Scope string_scope.
Local Open Scope Z_scope.

(** White space at the end of a text taken off. *)
Fixpoint trim_end (s : string) : string :=
  match s with
  | EmptyString => EmptyString
  | String a s' =>
      match trim_end s' with
      | EmptyString => if is_space a then EmptyString else String a EmptyString
      | t => String a t
      end
  end.

(** The value of a digit in a radix up to 16. *)
Definition radix_digit (radix : Z) (a : ascii) : option Z :=
  let n := Z.of_nat (nat_of_ascii a) in
  let d :=
    if (48 <=? n) && (n <=? 57) then Some (n - 48)
    else if (97 <=? n) && (n <=? 102) then Some (n - 87)
    else if (65 <=? n) && (n <=? 70) then Some (n - 55)
    else None in
  match d with
  | Some v => if v <? radix then Some v else None
  | None => None
  end.

(** A text made of digits of the radix only, at least one. *)
Fixpoint read_radix (radix : Z) (acc : option Z) (s : string) : option Z :=
  match s with
  | EmptyString => acc
  | String a s' =>
      match radix_digit radix a with
      | Some d => read_radix radix (Some (radix * default 0 acc + d)) s'
      | None => None
      end
  end.

(** An exponent part that makes up all of [s], or nothing at all. *)
Definition whole_exponent (s : string) : option Z :=
  match s with
  | EmptyString => Some 0
  | String a s' =>
      if is_e a then
        match s' with
        | String "-" s'' => Z.opp <$> read_radix 10 None s''
        | String "+" s'' => read_radix 10 None s''
        | _ => read_radix 10 None s'
        end
      else None
  end.

(** A [StrUnsignedDecimalLiteral] that makes up all of [s]. *)
Definition whole_literal (negative : bool) (s : string) : option B64.num :=
  if String.eqb s "Infinity" then Some (S754_infinity negative)
  else
    let '(ip, ic, rest) := take_digits 0 0 s in
    let '(m, fc, rest') :=
      match rest with
      | String "." r => let '(v, c, r') := take_digits ip 0 r in (v, c, r')
      | _ => (ip, 0, rest)
      end in
    if (ic =? 0) && (fc =? 0) then None
    else
      match whole_exponent rest' with
      | Some e =>
          if m =? 0 then Some (S754_zero negative)
          else Some (B64.of_decimal (if negative then - m else m) (e - fc))
      | None => None
      end.

(** ECMA-262 [StringToNumber]: the whole text, white space at both ends
    apart, has to be a numeric literal; the empty text is 0. *)
Definition StringToNumber (s : string) : B64.num :=
  let t := trim_end (trim_start s) in
  let radix (r : Z) (digits : string) : B64.num :=
    match read_radix r None digits with
    | Some v => B64.of_Z v
    | None => B64.nan
    end in
  let decimal (negative : bool) (u : string) : B64.num :=
    default B64.nan (whole_literal negative u) in
  match t with
  | EmptyString => B64.pzero
  | String "0" (String "x" r) | String "0" (String "X" r) => radix 16 r
  | String "0" (String "o" r) | String "0" (String "O" r) => radix 8 r
  | String "0" (String "b" r) | String "0" (String "B" r) => radix 2 r
  | String "-" u => decimal true u
  | String "+" u => decimal false u
  | _ => decimal false t
  end.

(** [Number(v)], and what [*] and [/] make of an operand. *)
Definition ToNumber (v : option value) : B64.num :=
  match v with
  | Some (VStr s) => StringToNumber s
  | Some (VNum x) => x
  | None => B64.nan
  end.

End Coercion.

(** ** [POST /order] of the earlier server (part_000, part_003) and
       of the server that tracks positions (part_001) *)

Module LegacyOrder.

Import JsString JsValue.
Local Open Scope string_scope.
Local Open Scope Z_scope.
Local Open Scope js_scope.

(** The fields the handler reads from [req.body], each a string or a
    Number of the JSON body; [None] is [undefined]. *)
Record Body : Type := {
  body_symbol : option value;
  body_side : option value;
  body_quantity : option value;
  body_price : option value;
  body_usdAmount : option value
}.

(** The same body with another [usdAmount]. *)
Definition with_usdAmount (body : Body) (usdAmount : option value) : Body :=
  {| body_symbol := body_symbol body;
     body_side := body_side body;
     body_quantity := body_quantity body;
     body_price := body_price body;
     body_usdAmount := usdAmount |}.

(** What a handler answers: [res.json(body)],
    [res.status(400).json({ error })] or [res.status(500).json(...)]. *)
Inductive Result (A : Type) : Type :=
  | Done (body : A)
  | Refused (error : string)
  | Failed (e : error).
Arguments Done {A} body.
Arguments Refused {A} error.
Arguments Failed {A} e.

(** What [getFilters] returns. *)
Record Filters : Type := {
  f_minQty : B64.num;
  f_stepSize : B64.num;
  f_tickSize : B64.num
}.

(** The accepted order: the reply of the exchange, and the [qty] and
    the [price] that the tracking code of part_001 goes on with. *)
Record Accepted : Type := {
  acc_data : string;
  acc_symbol : string;
  acc_side : value;
  acc_qty : B64.num;
  acc_price : B64.num
}.

Section Environment.

Variable hmac_sha256_hex : string -> string -> string.
Variable API_KEY : option string.
Variable API_SECRET : option string.
Variable exchange : Exchange.

(** [POST /api/v3/order] with the signed query as the body of the
    request: the reply, from the URL, the body, the [X-MBX-APIKEY]
    header and the instant of the request. *)
Variable api_order : string -> string -> option string -> Z -> Reply string.

(** [GET http://localhost:5000/balances]: the server asks itself. *)
Variable api_local_balances : string -> Z -> Reply (list Balances.Row).

(** [getFilters(symbol)] (part_000, lines 71 to 83). *)
Definition getFilters (symbolv : value) : M Filters :=
  let url := Server.BASE ++ "/api/v3/exchangeInfo?symbol=" ++ to_string symbolv in
  let* r := await_get url (api_exchangeInfo exchange url) in
  match symbols r with
  | [] => throw TypeError
  | first :: _ =>
      let fs := filters first in
      match List.find (fun f => String.eqb (filterType f) "LOT_SIZE") fs,
            List.find (fun f => String.eqb (filterType f) "PRICE_FILTER") fs with
      | Some lot, Some priceFilter =>
          ret {| f_minQty := parseFloat (minQty lot);
                 f_stepSize := parseFloat (stepSize lot);
                 f_tickSize := parseFloat (tickSize priceFilter) |}
      | _, _ => throw TypeError
      end
  end.

(** The handler up to the reply of the exchange (part_000, lines 117
    to 158; part_001, lines 12 to 59).  A [symbol] that is no string
    has no [endsWith]. *)
Definition place (body : Body) : M (Result Accepted) :=
  if negb (Orders.truthy (body_symbol body)) || negb (Orders.truthy (body_side body))
     || (negb (Orders.truthy (body_quantity body)) && negb (Orders.truthy (body_usdAmount body)))
     || negb (Orders.truthy (body_price body))
  then ret (Refused "Missing required fields")
  else
    match body_symbol body, body_side body with
    | Some symbolv, Some sidev =>
        let* filters := getFilters symbolv in
        match symbolv with
        | VNum _ => throw TypeError
        | VStr symbol =>
            let qty :=
              if Orders.truthy (body_quantity body) then Coercion.ToNumber (body_quantity body)
              else B64.div (Coercion.ToNumber (body_usdAmount body))
                           (Coercion.ToNumber (body_price body)) in
            let finish (qty : B64.num) : M (Result Accepted) :=
              let* finalQty := lift (Legacy.adjustQtyForLotSize qty (f_stepSize filters)
                                       (f_minQty filters)) in
              let* finalPrice := lift (Legacy.roundPrice (Coercion.ToNumber (body_price body))
                                         (f_tickSize filters)) in
              let* now := Date_now in
              let params := [("symbol", symbolv); ("side", sidev); ("type", VStr "LIMIT");
                             ("timeInForce", VStr "GTC"); ("quantity", VStr finalQty);
                             ("price", VStr finalPrice); ("timestamp", VNum (B64.of_Z now))] in
              let* qs := lift (Server.signQuery hmac_sha256_hex API_SECRET params) in
              let url := Server.BASE ++ "/api/v3/order" in
              let* r := Orders.await_post url (api_order url qs API_KEY) in
              ret (Done {| acc_data := r; acc_symbol := symbol; acc_side := sidev;
                           acc_qty := qty;
                           acc_price := Coercion.ToNumber (body_price body) |}) in
            if Orders.is_string "SELL" sidev && negb (Orders.truthy (body_quantity body)) then
              let base := Quote.base_asset symbol in
              let url := "http://localhost:5000/balances" in
              let* bals := await_get url (api_local_balances url) in
              match List.find (fun b => String.eqb (Balances.row_asset b) base) bals with
              | None => ret (Refused ("No balance found for " ++ base))
              | Some bal => finish (parseFloat (Balances.row_total bal))
              end
            else finish qty
        end
    | _, _ => ret (Refused "Missing required fields")
    end.



(** The handler of part_000 and part_003. *)
Definition post_order (body : Body) : World -> Result string * World :=
  fun w =>
    match place body w with
    | (Normal (Done a), w') => (Done (acc_data a), w')
    | (Normal (Refused error), w') => (Refused error, w')
    | (Normal (Failed e), w') => (Failed e, w')
    | (Throw e, w') => (Failed e, w')
    end.

(** The handler of part_001: the object [positions] is updated once
    the exchange has accepted the order, and the answer carries the
    fields of [positions[symbol]]. *)
Definition post_order_tracked (body : Body)
  : World * gmap string (Tracked B64.num) ->
    Result (string * option (Tracked B64.num)) * (World * gmap string (Tracked B64.num)) :=
  fun '(w, positions) =>
    match place body w with
    | (Normal (Done a), w') =>
        let positions' :=
          track_order positions
            {| placed_symbol := acc_symbol a;
               placed_side := to_string (acc_side a);
               placed_qty := acc_qty a;
               placed_price := acc_price a |} in
        (Done (acc_data a, answered_position positions' (acc_symbol a)), (w', positions'))
    | (Normal (Refused error), w') => (Refused error, (w', positions))
    | (Normal (Failed e), w') => (Failed e, (w', positions))
    | (Throw e, w') => (Failed e, (w', positions))
    end.

End Environment.

End LegacyOrder.

(** An exchange that lists BTCUSDT with a lot size and a price
    filter, an order endpoint that accepts everything, and a
    [/balances] that answers with 2 BTC. *)
Definition exchange_with_filters : Exchange :=
  {| api_account := api_account SampleExchange.exchange;
     api_myTrades := api_myTrades SampleExchange.exchange;
     api_ticker_price := api_ticker_price SampleExchange.exchange;
     api_exchangeInfo := fun _ _ =>
       {| outcome :=
            Normal {| symbols :=
                        [ {| symbol := "BTCUSDT";
                             filters :=
                               [ {| filterType := "LOT_SIZE"; stepSize := "0.00100000";
                                    minQty := "0.00100000"; tickSize := EmptyString |};
                                 {| filterType := "PRICE_FILTER"; stepSize := EmptyString;
                                    minQty := EmptyString; tickSize := "0.01000000" |} ] |} ] |};
          elapsed := 20 |} |}%string.

Definition accepting_limit_orders : string -> string -> option string -> Z -> Reply string :=
  fun _ _ _ _ => {| outcome := Normal "{}"%string; elapsed := 20 |}.

Definition two_bitcoins : string -> Z -> Reply (list Balances.Row) :=
  fun _ _ =>
    {| outcome :=
         Normal [ {| Balances.row_asset := "BTC"; Balances.row_free := "2.00000000";
                     Balances.row_locked := "0.00000000";
                     Balances.row_total := "2.000000000000" |} ];
       elapsed := 5 |}%string.

(** Sell 50 dollars' worth of BTCUSDT at 100. *)
Definition sell_by_amount : LegacyOrder.Body :=
  {| LegacyOrder.body_symbol := Some (JsValue.VStr "BTCUSDT");
     LegacyOrder.body_side := Some (JsValue.VStr "SELL");
     LegacyOrder.body_quantity := None;
     LegacyOrder.body_price := Some (JsValue.VNum (B64.of_Z 100));
     LegacyOrder.body_usdAmount := Some (JsValue.VNum (B64.of_Z 50)) |}%string.

(** * Properties *)

(** ** Comparisons *)

(** What the properties of the cost-basis code need of [<] and [==]:
    nothing is below itself, and equal numbers are not ordered. *)
Class ArithLaws (num : Type) `{Arith num} : Prop := {
  lt_irrefl : forall a, lt a a = false;
  equal_not_lt : forall a b, equal a b = true -> lt a b = false;
  equal_not_gt : forall a b, equal a b = true -> lt b a = false
}.

Module B64Facts.

Import B64.

Lemma b64_compare_refl (x : num) :
  SFcompare x x = Some Eq \/ SFcompare x x = None.
Proof.
  destruct x as [s|s| |s m e]; simpl; auto; left.
  - destruct s; reflexivity.
  - rewrite Z.compare_refl, Pos.compare_cont_refl. destruct s; reflexivity.
Qed.

Lemma b64_ltb_irrefl (x : num) : ltb x x = false.
Proof.
  unfold ltb, SFltb. destruct (b64_compare_refl x) as [-> | ->]; reflexivity.
Qed.

(** Two Numbers that compare equal are both zero or the same Number. *)
Lemma b64_eqb_cases (a b : num) :
  eqb a b = true ->
  (is_zero a = true /\ is_zero b = true) \/ (a = b /\ is_nan a = false).
Proof.
  unfold eqb, SFeqb.
  destruct a as [sa|sa| |sa ma ea], b as [sb|sb| |sb mb eb]; simpl;
    try discriminate; auto;
    try (destruct sa; discriminate); try (destruct sb; discriminate).
  - destruct sa, sb; try discriminate; auto.
  - destruct sa, sb; try discriminate;
      destruct (Z.compare_spec ea eb); try discriminate; subst;
      destruct (Pos.compare_cont Eq ma mb) eqn:E; try discriminate;
      apply Pos.compare_eq in E; subst; auto.
Qed.

Lemma b64_eqb_not_ltb (a b : num) : eqb a b = true -> ltb a b = false.
Proof.
  intros E. destruct (b64_eqb_cases a b E) as [[Ha Hb] | [-> _]].
  - destruct a, b; try discriminate; reflexivity.
  - apply b64_ltb_irrefl.
Qed.

Lemma b64_eqb_not_gtb (a b : num) : eqb a b = true -> ltb b a = false.
Proof.
  intros E. destruct (b64_eqb_cases a b E) as [[Ha Hb] | [-> _]].
  - destruct a, b; try discriminate; reflexivity.
  - apply b64_ltb_irrefl.
Qed.

End B64Facts.

#[export] Instance B64_ArithLaws : ArithLaws B64.num.
Proof.
  split.
  - exact B64Facts.b64_ltb_irrefl.
  - exact B64Facts.b64_eqb_not_ltb.
  - exact B64Facts.b64_eqb_not_gtb.
Qed.

Module ExactFacts.

Import Exact.

Lemma exact_ltb_lt (a b : Qc) : ltb a b = true <-> (a < b)%Qc.
Proof.
  unfold ltb, Qclt. split; intros E.
  - apply Qnot_le_lt. intros Hle. apply Qle_bool_iff in Hle.
    rewrite Hle in E. discriminate.
  - destruct (Qle_bool b a) eqn:Hle; [|reflexivity].
    apply Qle_bool_iff in Hle. exfalso. exact (Qlt_not_le _ _ E Hle).
Qed.

Lemma exact_ltb_irrefl (a : Qc) : ltb a a = false.
Proof.
  unfold ltb. apply negb_false_iff, Qle_bool_iff, Qle_refl.
Qed.

Lemma exact_eqb_eq (a b : Qc) : eqb a b = true <-> a = b.
Proof.
  unfold eqb. split.
  - intros E. apply Qc_is_canon, Qeq_bool_iff, E.
  - intros ->. apply Qeq_bool_iff. reflexivity.
Qed.

Lemma exact_eqb_not_ltb (a b : Qc) : eqb a b = true -> ltb a b = false.
Proof. intros E. apply exact_eqb_eq in E. subst. apply exact_ltb_irrefl. Qed.

Lemma exact_eqb_not_gtb (a b : Qc) : eqb a b = true -> ltb b a = false.
Proof. intros E. apply exact_eqb_eq in E. subst. apply exact_ltb_irrefl. Qed.

End ExactFacts.

#[export] Instance Exact_ArithLaws : ArithLaws Qc.
Proof.
  split.
  - exact ExactFacts.exact_ltb_irrefl.
  - exact ExactFacts.exact_eqb_not_ltb.
  - exact ExactFacts.exact_eqb_not_gtb.
Qed.

(** ** The cost-basis pass *)

Section CostBasisFacts.

Context {num : Type} `{ArithLaws num}.

Lemma positions_pass_snoc (feeRate : num) (prefix : list (Trade num)) (t : Trade num) :
  positions_pass feeRate (prefix ++ [t]) =
  positions_step feeRate (positions_pass feeRate prefix) t.
Proof. unfold positions_pass. rewrite fold_left_app. reflexivity. Qed.

Lemma positions_pass_app (feeRate : num) (prefix rest : list (Trade num)) :
  positions_pass feeRate (prefix ++ rest) =
  fold_left (positions_step feeRate) rest (positions_pass feeRate prefix).
Proof. unfold positions_pass. apply fold_left_app. Qed.

Lemma breakeven_pass_snoc (feeRate : num) (prefix : list (Trade num)) (t : Trade num) :
  breakeven_pass feeRate (prefix ++ [t]) =
  breakeven_step feeRate (breakeven_pass feeRate prefix) t.
Proof. unfold breakeven_pass. rewrite fold_left_app. reflexivity. Qed.

Lemma positions_step_spec (feeRate : num) (s : OpenState num) (t : Trade num) :
  spec_trade feeRate s t (positions_step feeRate s t).
Proof.
  unfold spec_trade, positions_step. repeat split.
  - intros ->. reflexivity.
  - intros -> ->. reflexivity.
  - intros -> E. rewrite (equal_not_gt _ _ E). reflexivity.
Qed.

Lemma positions_step_sell (feeRate : num) (s : OpenState num) (t : Trade num) :
  isBuyer t = false ->
  lt (lit 0) (openQty s) = true ->
  positions_step feeRate s t =
  {| openQty := clamp0 (minus (openQty s) (qty t));
     openCost := clamp0 (minus (openCost s)
                               (times (qty t) (divide (openCost s) (openQty s)))) |}.
Proof. intros Hsell Hopen. unfold positions_step. rewrite Hsell, Hopen. reflexivity. Qed.

Lemma positions_step_buy (feeRate : num) (s : OpenState num) (t : Trade num) :
  isBuyer t = true ->
  positions_step feeRate s t =
  {| openQty := plus (openQty s) (qty t);
     openCost := plus (openCost s)
                      (plus (times (qty t) (price t))
                            (times (times (qty t) (price t)) feeRate)) |}.
Proof. intros Hbuy. unfold positions_step. rewrite Hbuy. reflexivity. Qed.

Lemma clamp0_not_negative (x : num) : lt (clamp0 x) (lit 0) = false.
Proof.
  unfold clamp0. destruct (lt x (lit 0)) eqn:E; [apply lt_irrefl | exact E].
Qed.

End CostBasisFacts.

(** C1. In [/positions], the pass starts from [openQty = 0] and
    [openCost = 0], and every trade of the sequence, processed after any
    prefix of it, changes the state as the specification says: a buy adds
    [qty] and [qty*price + qty*price*feeRate]; a sell met with
    [openQty > 0] subtracts [qty] and [qty * (openCost / openQty)] and
    clamps each at zero; a sell met with [openQty == 0] changes nothing.
    This holds in every arithmetic with the two comparison laws, binary64
    included. *)
Theorem positions_pass_refines_spec
  (num : Type) (A : Arith num) (L : ArithLaws num)
  (feeRate : num) (prefix : list (Trade num)) (t : Trade num) (rest : list (Trade num)) :
  positions_pass feeRate [] = {| openQty := lit 0; openCost := lit 0 |} /\
  spec_trade feeRate (positions_pass feeRate prefix) t
             (positions_pass feeRate (prefix ++ [t])) /\
  positions_pass feeRate (prefix ++ t :: rest) =
  fold_left (positions_step feeRate) rest (positions_pass feeRate (prefix ++ [t])).
Proof.
  split; [reflexivity | split].
  - rewrite positions_pass_snoc. apply positions_step_spec.
  - change (prefix ++ t :: rest) with (prefix ++ [t] ++ rest).
    rewrite app_assoc. apply positions_pass_app.
Qed.

Lemma positions_pass_refines_spec_witness :
  positions_pass Samples.fee [] = {| openQty := lit 0; openCost := lit 0 |} /\
  spec_trade Samples.fee
    (positions_pass Samples.fee (firstn 2 Samples.two_buys_one_sell))
    (Samples.sell (Samples.d 1 0) (Samples.d 300 0))
    (positions_pass Samples.fee
       (firstn 2 Samples.two_buys_one_sell ++
        [Samples.sell (Samples.d 1 0) (Samples.d 300 0)])) /\
  positions_pass Samples.fee
    (firstn 2 Samples.two_buys_one_sell ++
     Samples.sell (Samples.d 1 0) (Samples.d 300 0) :: []) =
  fold_left (positions_step Samples.fee) []
    (positions_pass Samples.fee
       (firstn 2 Samples.two_buys_one_sell ++
        [Samples.sell (Samples.d 1 0) (Samples.d 300 0)])).
Proof.
  exact (positions_pass_refines_spec B64.num B64_Arith B64_ArithLaws Samples.fee
           (firstn 2 Samples.two_buys_one_sell)
           (Samples.sell (Samples.d 1 0) (Samples.d 300 0)) []).
Defined.

(** ** Overselling *)

(** In [/positions] a sell never leaves a negative quantity or cost,
    whatever quantity is sold. *)
Theorem positions_sell_not_negative
  (num : Type) (A : Arith num) (L : ArithLaws num)
  (feeRate : num) (s : OpenState num) (t : Trade num) :
  isBuyer t = false ->
  lt (lit 0) (openQty s) = true ->
  lt (openQty (positions_step feeRate s t)) (lit 0) = false /\
  lt (openCost (positions_step feeRate s t)) (lit 0) = false.
Proof.
  intros Hsell Hopen. rewrite (positions_step_sell _ _ _ Hsell Hopen).
  split; apply clamp0_not_negative.
Qed.

Lemma positions_sell_not_negative_witness :
  (isBuyer (Samples.sell (Samples.d 2 0) (Samples.d 100 0)) = false /\
   B64.ltb (B64.of_Z 0) (openQty (positions_pass Samples.fee (firstn 1 Samples.oversell))) = true) /\
  B64.ltb (openQty (positions_step Samples.fee
                      (positions_pass Samples.fee (firstn 1 Samples.oversell))
                      (Samples.sell (Samples.d 2 0) (Samples.d 100 0))))
          (B64.of_Z 0) = false /\
  B64.ltb (openCost (positions_step Samples.fee
                       (positions_pass Samples.fee (firstn 1 Samples.oversell))
                       (Samples.sell (Samples.d 2 0) (Samples.d 100 0))))
          (B64.of_Z 0) = false.
Proof.
  split.
  - vm_compute. split; reflexivity.
  - apply (positions_sell_not_negative B64.num B64_Arith B64_ArithLaws);
      vm_compute; reflexivity.
Defined.

(** C2. Selling 2 after buying 1 at 100 (fee rate 0.001): the pass of
    [/positions] ends at [openQty = 0] and [openCost = 0], the pass of
    [/breakeven/:symbol] ends at [openQty = -1] and a negative cost, and
    the endpoint reports the total quantity [-1.00000000]. *)
Theorem breakeven_oversell_goes_negative :
  positions_pass Samples.fee Samples.oversell =
    {| openQty := B64.pzero; openCost := B64.pzero |} /\
  openQty (breakeven_pass Samples.fee Samples.oversell) = B64.of_Z (-1) /\
  B64.ltb (openQty (breakeven_pass Samples.fee Samples.oversell)) (B64.of_Z 0) = true /\
  B64.ltb (openCost (breakeven_pass Samples.fee Samples.oversell)) (B64.of_Z 0) = true /\
  B64.toFixed_digits (snd (breakeven_values Samples.fee Samples.oversell)) 8 =
    "-1.00000000"%string.
Proof. vm_compute. repeat split. Qed.

(** ** The dust filter *)

(** C10. For an open position ([openQty <= 0] is false), [/positions]
    leaves it out exactly when [openQty * currentPrice < 10]; a market
    value equal to 10 is reported. *)
Theorem dust_filter_is_strict
  (num : Type) (A : Arith num) (L : ArithLaws num)
  (feeRate : num) (trades : list (Trade num)) (currentPrice : num) :
  le (openQty (positions_pass feeRate trades)) (lit 0) = false ->
  (equal (times (openQty (positions_pass feeRate trades)) currentPrice) (lit 10) = true ->
   exists v, position_values feeRate trades currentPrice = Some v /\
             pv_value v = times (openQty (positions_pass feeRate trades)) currentPrice) /\
  (position_values feeRate trades currentPrice = None <->
   lt (times (openQty (positions_pass feeRate trades)) currentPrice) (lit 10) = true).
Proof.
  intros Hopen. unfold position_values. rewrite Hopen. split.
  - intros E. rewrite (equal_not_lt _ _ E). eexists. split; reflexivity.
  - destruct (lt _ (lit 10)); split; intros; try reflexivity; discriminate.
Qed.

Lemma dust_filter_is_strict_witness :
  le (openQty (positions_pass Samples.fee Samples.worth_ten)) (lit 0) = false /\
  (equal (times (openQty (positions_pass Samples.fee Samples.worth_ten)) (Samples.d 5 0))
         (lit 10) = true ->
   exists v, position_values Samples.fee Samples.worth_ten (Samples.d 5 0) = Some v /\
             pv_value v =
             times (openQty (positions_pass Samples.fee Samples.worth_ten)) (Samples.d 5 0)) /\
  (position_values Samples.fee Samples.worth_ten (Samples.d 5 0) = None <->
   lt (times (openQty (positions_pass Samples.fee Samples.worth_ten)) (Samples.d 5 0))
      (lit 10) = true).
Proof.
  split.
  - vm_compute. reflexivity.
  - apply (dust_filter_is_strict B64.num B64_Arith B64_ArithLaws).
    vm_compute. reflexivity.
Defined.

(** ** Closing a position in full *)

Module FullClose.

Import B64.

Lemma positive_is_not_zero (x : num) : ltb (of_Z 0) x = true -> is_zero x = false.
Proof. destruct x; try reflexivity. discriminate. Qed.

Lemma positive_finite (x : num) :
  ltb (of_Z 0) x = true -> is_finite x = true ->
  exists m e, x = S754_finite false m e.
Proof.
  destruct x as [s|s| |s m e]; try discriminate.
  destruct s; [discriminate|]. intros _ _. eauto.
Qed.

(** A positive finite Number minus itself is [+0]. *)
Lemma sub_self (m : positive) (e : Z) :
  sub (S754_finite false m e) (S754_finite false m e) = pzero.
Proof.
  unfold sub, SFsub. rewrite Z.min_id. unfold shl_align.
  rewrite Z.sub_diag. simpl. reflexivity.
Qed.

Lemma sub_equal (q x : num) :
  eqb q x = true -> ltb (of_Z 0) x = true -> is_finite x = true ->
  sub x q = pzero.
Proof.
  intros E Hpos Hfin.
  destruct (B64Facts.b64_eqb_cases q x E) as [[_ Hz] | [-> _]].
  - rewrite (positive_is_not_zero x Hpos) in Hz. discriminate.
  - destruct (positive_finite x Hpos Hfin) as (m & e & ->). apply sub_self.
Qed.

Lemma exact_sub_self (a : Qc) : (a - a = Q2Qc 0)%Qc.
Proof. ring. Qed.

Lemma exact_cost_cancels (c a : Qc) : a <> Q2Qc 0 -> (c - a * (c / a) = Q2Qc 0)%Qc.
Proof. intros Ha. field. exact Ha. Qed.

Lemma exact_positive_nonzero (a : Qc) : Exact.ltb (Q2Qc 0) a = true -> a <> Q2Qc 0.
Proof.
  intros Hpos ->. rewrite ExactFacts.exact_ltb_irrefl in Hpos. discriminate.
Qed.

End FullClose.

(** C4, as the code has it.  After a sell whose quantity equals the
    tracked [openQty] (positive and finite), [openQty] is exactly [+0] and
    [openCost] is not negative; in exact arithmetic [openCost] is exactly
    0 as well.  In binary64 [qty * (openCost / openQty)] can round below
    [openCost], and a positive residue then stays. *)
Theorem full_close_resets_quantity :
  (forall (feeRate : B64.num) (prefix : list (Trade B64.num)) (t : Trade B64.num),
      isBuyer t = false ->
      B64.eqb (qty t) (openQty (positions_pass feeRate prefix)) = true ->
      B64.ltb (B64.of_Z 0) (openQty (positions_pass feeRate prefix)) = true ->
      B64.is_finite (openQty (positions_pass feeRate prefix)) = true ->
      openQty (positions_pass feeRate (prefix ++ [t])) = B64.pzero /\
      B64.ltb (openCost (positions_pass feeRate (prefix ++ [t]))) (B64.of_Z 0) = false) /\
  (forall (feeRate : Qc) (prefix : list (Trade Qc)) (t : Trade Qc),
      isBuyer t = false ->
      Exact.eqb (qty t) (openQty (positions_pass feeRate prefix)) = true ->
      Exact.ltb (Q2Qc 0) (openQty (positions_pass feeRate prefix)) = true ->
      positions_pass feeRate (prefix ++ [t]) =
      {| openQty := Q2Qc 0; openCost := Q2Qc 0 |}).
Proof.
  split.
  - intros feeRate prefix t Hsell E Hpos Hfin.
    rewrite positions_pass_snoc.
    rewrite (@positions_step_sell B64.num B64_Arith feeRate _ t Hsell Hpos).
    cbn [openQty openCost]. split.
    + change (minus ?a ?b) with (B64.sub a b).
      rewrite (FullClose.sub_equal _ _ E Hpos Hfin). reflexivity.
    + exact (@clamp0_not_negative B64.num B64_Arith B64_ArithLaws _).
  - intros feeRate prefix t Hsell E Hpos.
    rewrite positions_pass_snoc.
    rewrite (@positions_step_sell Qc Exact_Arith feeRate _ t Hsell Hpos).
    apply ExactFacts.exact_eqb_eq in E. rewrite E.
    change (minus ?a ?b) with (Qcminus a b).
    change (times ?a ?b) with (Qcmult a b).
    change (divide ?a ?b) with (Qcdiv a b).
    rewrite FullClose.exact_sub_self.
    rewrite (FullClose.exact_cost_cancels _ _ (FullClose.exact_positive_nonzero _ Hpos)).
    reflexivity.
Qed.

Lemma full_close_resets_quantity_witness :
  (isBuyer (Samples.sell (Samples.d 1 (-1)) (Samples.d 60 (-2))) = false /\
   B64.eqb (qty (Samples.sell (Samples.d 1 (-1)) (Samples.d 60 (-2))))
           (openQty (positions_pass Samples.fee (firstn 1 Samples.full_close))) = true /\
   B64.ltb (B64.of_Z 0) (openQty (positions_pass Samples.fee (firstn 1 Samples.full_close))) = true /\
   B64.is_finite (openQty (positions_pass Samples.fee (firstn 1 Samples.full_close))) = true) /\
  openQty (positions_pass Samples.fee Samples.full_close) = B64.pzero /\
  B64.ltb (openCost (positions_pass Samples.fee Samples.full_close)) (B64.of_Z 0) = false.
Proof.
  split.
  - vm_compute. repeat split.
  - apply (proj1 full_close_resets_quantity Samples.fee
             (firstn 1 Samples.full_close)
             (Samples.sell (Samples.d 1 (-1)) (Samples.d 60 (-2))));
      vm_compute; reflexivity.
Defined.

(** C4 fails as stated: with the default fee rate, buying 0.1 at 0.53
    and selling 0.1 leaves [openQty = 0] and [openCost = 2^-57], about
    [6.9e-18], which is above zero. *)
Lemma full_close_leaves_residue :
  B64.eqb (qty (Samples.sell (Samples.d 1 (-1)) (Samples.d 60 (-2))))
          (openQty (positions_pass Samples.fee (firstn 1 Samples.full_close))) = true /\
  B64.ltb (B64.of_Z 0) (openQty (positions_pass Samples.fee (firstn 1 Samples.full_close))) = true /\
  openQty (positions_pass Samples.fee Samples.full_close) = B64.pzero /\
  openCost (positions_pass Samples.fee Samples.full_close) =
    S754_finite false 4503599627370496 (-109) /\
  B64.ltb (B64.of_Z 0) (openCost (positions_pass Samples.fee Samples.full_close)) = true /\
  B64.toString (openCost (positions_pass Samples.fee Samples.full_close)) =
    "6.938893903907228e-18"%string.
Proof. vm_compute. repeat split. Qed.

(** ** Histories of buys only *)

Section BuysOnly.

Context {num : Type} `{Arith num}.

Lemma sum_of_ext (f g : Trade num -> num) (trades : list (Trade num)) :
  (forall t, f t = g t) -> sum_of f trades = sum_of g trades.
Proof.
  intros Hfg. unfold sum_of. generalize (lit 0).
  induction trades as [|t trades IH]; intros acc; simpl; [reflexivity|].
  rewrite Hfg. apply IH.
Qed.

Lemma positions_fold_buys (feeRate : num) (trades : list (Trade num)) (s : OpenState num) :
  forallb isBuyer trades = true ->
  fold_left (positions_step feeRate) trades s =
  {| openQty := fold_left (fun acc t => plus acc (qty t)) trades (openQty s);
     openCost :=
       fold_left (fun acc t => plus acc (plus (times (qty t) (price t))
                                              (times (times (qty t) (price t)) feeRate)))
                 trades (openCost s) |}.
Proof.
  revert s. induction trades as [|t trades IH]; intros s Hall; simpl.
  - destruct s; reflexivity.
  - simpl in Hall. apply andb_prop in Hall as [Ht Hall].
    rewrite (IH _ Hall). unfold positions_step. rewrite Ht. reflexivity.
Qed.

Lemma breakeven_fold_buys (feeRate : num) (trades : list (Trade num)) (s : OpenState num) :
  forallb isBuyer trades = true ->
  fold_left (breakeven_step feeRate) trades s =
  {| openQty := fold_left (fun acc t => plus acc (qty t)) trades (openQty s);
     openCost :=
       fold_left (fun acc t => plus acc (plus (times (qty t) (price t))
                                              (times (times (qty t) (price t)) feeRate)))
                 trades (openCost s) |}.
Proof.
  revert s. induction trades as [|t trades IH]; intros s Hall; simpl.
  - destruct s; reflexivity.
  - simpl in Hall. apply andb_prop in Hall as [Ht Hall].
    rewrite (IH _ Hall). unfold breakeven_step. rewrite Ht. reflexivity.
Qed.

Lemma positions_pass_buys (feeRate : num) (trades : list (Trade num)) :
  forallb isBuyer trades = true ->
  positions_pass feeRate trades =
  {| openQty := sum_qty trades; openCost := sum_cost feeRate trades |}.
Proof. intros Hall. unfold positions_pass. apply positions_fold_buys, Hall. Qed.

Lemma breakeven_pass_buys (feeRate : num) (trades : list (Trade num)) :
  forallb isBuyer trades = true ->
  breakeven_pass feeRate trades =
  {| openQty := sum_qty trades; openCost := sum_cost feeRate trades |}.
Proof. intros Hall. unfold breakeven_pass. apply breakeven_fold_buys, Hall. Qed.

Lemma filter_all_buys (trades : list (Trade num)) :
  forallb isBuyer trades = true -> List.filter isBuyer trades = trades.
Proof.
  induction trades as [|t trades IH]; intros Hall; [reflexivity|].
  simpl in Hall. apply andb_prop in Hall as [Ht Hall].
  simpl. rewrite Ht, (IH Hall). reflexivity.
Qed.

Lemma buys_only_totals_fold (trades : list (Trade num)) (a b : num) :
  fold_left (fun '(totalQty, totalSpent) t =>
               (plus totalQty (qty t), plus totalSpent (times (qty t) (price t))))
            trades (a, b) =
  (fold_left (fun acc t => plus acc (qty t)) trades a,
   fold_left (fun acc t => plus acc (times (qty t) (price t))) trades b).
Proof.
  revert a b. induction trades as [|t trades IH]; intros a b; simpl; [reflexivity|].
  apply IH.
Qed.

Lemma buys_only_totals_sums (trades : list (Trade num)) :
  buys_only_totals trades = (sum_qty trades, sum_spent trades).
Proof. apply buys_only_totals_fold. Qed.

End BuysOnly.

Module BuysOnlyExact.

(** In exact arithmetic the fee-inclusive cost is the sum of
    [qty * price * (1 + feeRate)]. *)
Lemma sum_cost_factored (feeRate : Qc) (trades : list (Trade Qc)) :
  sum_cost feeRate trades =
  sum_of (fun t => (qty t * price t * (1 + feeRate))%Qc) trades.
Proof.
  unfold sum_cost. apply sum_of_ext. intros t.
  cbn [plus times Exact_Arith]. ring.
Qed.

End BuysOnlyExact.

(** C3, as the code has it.  For a history of buys only:
    [/positions] and the [/breakeven/:symbol] of server.js end the pass at
    [openQty = sum of qty] and [openCost = sum of (qty*price +
    qty*price*feeRate)], so the break-even they report is the
    fee-inclusive weighted average (in exact arithmetic, the sum of
    [qty*price*(1+feeRate)] over the sum of [qty]); the earlier, buys-only
    [/breakeven/:symbol] knows no fee and reports the sum of [qty*price]
    over the sum of [qty]. *)
Theorem buys_only_break_even :
  (forall (num : Type) (A : Arith num)
          (feeRate : num) (trades : list (Trade num)) (currentPrice : num),
      forallb isBuyer trades = true ->
      positions_pass feeRate trades =
        {| openQty := sum_qty trades; openCost := sum_cost feeRate trades |} /\
      (forall v, position_values feeRate trades currentPrice = Some v ->
                 pv_openQty v = sum_qty trades /\
                 pv_breakEven v = divide (sum_cost feeRate trades) (sum_qty trades)) /\
      breakeven_values feeRate trades =
        (if lt (lit 0) (sum_qty trades)
         then divide (sum_cost feeRate trades) (sum_qty trades) else lit 0,
         sum_qty trades) /\
      (trades <> [] ->
       breakeven_buys_only trades =
         (divide (sum_spent trades) (sum_qty trades), sum_qty trades, sum_spent trades))) /\
  (forall (feeRate : Qc) (trades : list (Trade Qc)),
      sum_cost feeRate trades =
      sum_of (fun t => (qty t * price t * (1 + feeRate))%Qc) trades).
Proof.
  split; [|exact BuysOnlyExact.sum_cost_factored].
  intros num A feeRate trades currentPrice Hall. repeat split.
  - apply positions_pass_buys, Hall.
  - unfold position_values in H.
    destruct (le _ _); [discriminate|]. destruct (lt _ _); [discriminate|].
    injection H as <-. cbn [pv_openQty].
    rewrite (positions_pass_buys _ _ Hall). reflexivity.
  - unfold position_values in H.
    destruct (le _ _); [discriminate|]. destruct (lt _ _); [discriminate|].
    injection H as <-. cbn [pv_breakEven].
    rewrite (positions_pass_buys _ _ Hall). reflexivity.
  - unfold breakeven_values. rewrite (breakeven_pass_buys _ _ Hall). reflexivity.
  - intros Hne. unfold breakeven_buys_only. rewrite (filter_all_buys _ Hall).
    destruct trades as [|t trades]; [contradiction|].
    rewrite buys_only_totals_sums. reflexivity.
Qed.

Lemma buys_only_break_even_witness :
  forallb isBuyer Samples.one_buy = true /\
  positions_pass Samples.fee Samples.one_buy =
    {| openQty := sum_qty Samples.one_buy;
       openCost := sum_cost Samples.fee Samples.one_buy |} /\
  breakeven_values Samples.fee Samples.one_buy =
    (if lt (lit 0) (sum_qty Samples.one_buy)
     then divide (sum_cost Samples.fee Samples.one_buy) (sum_qty Samples.one_buy)
     else lit 0,
     sum_qty Samples.one_buy).
Proof.
  split; [reflexivity|].
  destruct (proj1 buys_only_break_even B64.num B64_Arith Samples.fee Samples.one_buy
              (Samples.d 20 0) eq_refl) as (Hpass & _ & Hbe & _).
  exact (conj Hpass Hbe).
Defined.

(** C3 fails as stated for the buys-only endpoint: for one buy of 2 at
    10 and the fee rate 0.001 it reports the break-even 10, not the
    fee-inclusive 10.01 that [/positions] reports. *)
Lemma buys_only_endpoint_ignores_fee :
  breakeven_buys_only Samples.one_buy =
    (Samples.d 10 0, Samples.d 2 0, Samples.d 20 0) /\
  divide (sum_cost Samples.fee Samples.one_buy) (sum_qty Samples.one_buy) =
    Samples.d 1001 (-2) /\
  option_map pv_breakEven (position_values Samples.fee Samples.one_buy (Samples.d 20 0)) =
    Some (Samples.d 1001 (-2)) /\
  B64.eqb (Samples.d 10 0) (Samples.d 1001 (-2)) = false /\
  Exact.eqb
    (fst (fst (breakeven_buys_only
                 [Samples.buy (Exact.of_decimal 2 0) (Exact.of_decimal 10 0)])))
    (Exact.of_decimal 10 0) = true /\
  Exact.eqb
    (Exact.of_decimal 2 0 * Exact.of_decimal 10 0 * (1 + Exact.of_decimal 1 (-3))
     / Exact.of_decimal 2 0)%Qc
    (Exact.of_decimal 10 0) = false.
Proof.
  repeat split; vm_compute; reflexivity.
Qed.

(** ** The cache *)

Section CacheFacts.

Import CacheReads.

Variable hmac_sha256_hex : string -> string -> string.
Variable API_KEY : option string.
Variable secret : string.
Variable exchange : Exchange.

(** The last two clauses of the contract follow from the first three,
    for an entry that the passing of time does not change. *)
Lemma contract_from_basics {A : Type} (read : M A) (stored : World -> option (Entry A))
      (ttl : Z) (request : World -> string * Reply A) :
  (forall w c, stored w = Some c -> clock w - ts c < ttl -> read w = (Normal (data c), w)) ->
  (forall w d, stale stored ttl w -> outcome (snd (request w)) = Normal d ->
     exists w', read w = (Normal d, w') /\
       stored w' = Some {| data := d; ts := clock w' |} /\
       clock w' = clock w + Z.of_N (elapsed (snd (request w))) /\
       requests w' = fst (request w) :: requests w) ->
  (forall w e, stale stored ttl w -> outcome (snd (request w)) = Throw e ->
     exists w', read w = (Throw e, w') /\ stored w' = stored w /\
       requests w' = fst (request w) :: requests w) ->
  (forall delta w, stored (advance delta w) = stored w) ->
  CacheContract read stored ttl request.
Proof.
  intros Hfresh Hrefresh Hfail Hframe. split; auto.
  - intros w d delta Hst Hout Hdelta.
    destruct (Hrefresh w d Hst Hout) as (w' & Hread & Hstored & Hclock & Hreq).
    exists w'. split; [exact Hread|]. split; [|exact Hreq].
    apply (Hfresh (advance delta w') {| data := d; ts := clock w' |}).
    + rewrite Hframe. exact Hstored.
    + simpl. lia.
  - intros w d delta Hst Hout Hdelta.
    destruct (Hrefresh w d Hst Hout) as (w' & Hread & Hstored & Hclock & Hreq).
    exists w'. split; [exact Hread|].
    assert (Hst' : stale stored ttl (advance delta w')).
    { right. exists {| data := d; ts := clock w' |}. rewrite Hframe.
      split; [exact Hstored|]. simpl. lia. }
    destruct (outcome (snd (request (advance delta w')))) as [d2|e2] eqn:Hout2.
    + destruct (Hrefresh _ _ Hst' Hout2) as (w2 & Hread2 & _ & _ & Hreq2).
      rewrite Hread2. simpl. rewrite Hreq2. simpl. rewrite Hreq. reflexivity.
    + destruct (Hfail _ _ Hst' Hout2) as (w2 & Hread2 & _ & Hreq2).
      rewrite Hread2. simpl. rewrite Hreq2. simpl. rewrite Hreq. reflexivity.
Qed.

Ltac run_read :=
  unfold bind, get_world, Date_now, lift, await_get, ret,
    Server.createHmac_hex, Server.signQuery,
    set_cache_trades, set_cache_account, set_cache_prices, set_exchangeInfoCache;
  simpl.

Lemma trades_contract (sym : string) :
  CacheContract (Server.getTradesCached hmac_sha256_hex API_KEY (Some secret) exchange sym)
                (stored_trades sym) Server.TRADES_TTL
                (trades_request hmac_sha256_hex API_KEY secret exchange sym).
Proof.
  apply contract_from_basics.
  - intros w c Hs Hlt. unfold stored_trades in Hs.
    unfold Server.getTradesCached. run_read.
    rewrite Hs. apply Z.ltb_lt in Hlt. rewrite Hlt. reflexivity.
  - intros w d Hst Hout. unfold trades_request, trades_url in Hout. simpl in Hout.
    eexists. split.
    + unfold Server.getTradesCached. run_read.
      destruct Hst as [Hs | (c & Hs & Hge)]; unfold stored_trades in Hs; rewrite Hs;
        [|apply Z.ltb_ge in Hge; rewrite Hge]; run_read; rewrite Hout; reflexivity.
    + simpl. unfold stored_trades. simpl. rewrite lookup_insert_eq. auto.
  - intros w e Hst Hout. unfold trades_request, trades_url in Hout. simpl in Hout.
    eexists. split.
    + unfold Server.getTradesCached. run_read.
      destruct Hst as [Hs | (c & Hs & Hge)]; unfold stored_trades in Hs; rewrite Hs;
        [|apply Z.ltb_ge in Hge; rewrite Hge]; run_read; rewrite Hout; reflexivity.
    + simpl. auto.
  - reflexivity.
Qed.

Lemma price_contract (sym : string) :
  CacheContract (Server.getPriceCached exchange sym)
                (stored_price sym) Server.PRICE_TTL
                (price_request exchange sym).
Proof.
  apply contract_from_basics.
  - intros w c Hs Hlt. unfold stored_price in Hs.
    unfold Server.getPriceCached. run_read.
    destruct (cache_prices w !! sym) as [pe|]; [|discriminate].
    injection Hs as <-. simpl in Hlt. apply Z.ltb_lt in Hlt. rewrite Hlt. reflexivity.
  - intros w d Hst Hout. unfold price_request, price_url in Hout. simpl in Hout.
    destruct (outcome (api_ticker_price exchange _ (clock w))) as [s|e] eqn:Hr;
      [|discriminate]. injection Hout as <-.
    eexists. split.
    + unfold Server.getPriceCached. run_read.
      destruct Hst as [Hs | (c & Hs & Hge)]; unfold stored_price in Hs;
        destruct (cache_prices w !! sym) as [pe|]; try discriminate.
      * run_read. rewrite Hr. reflexivity.
      * injection Hs as <-. simpl in Hge. apply Z.ltb_ge in Hge. rewrite Hge.
        run_read. rewrite Hr. reflexivity.
    + simpl. unfold stored_price. simpl. rewrite lookup_insert_eq. simpl.
      unfold price_request. simpl. auto.
  - intros w e Hst Hout. unfold price_request, price_url in Hout. simpl in Hout.
    destruct (outcome (api_ticker_price exchange _ (clock w))) as [s|e'] eqn:Hr;
      [discriminate|]. injection Hout as <-.
    eexists. split.
    + unfold Server.getPriceCached. run_read.
      destruct Hst as [Hs | (c & Hs & Hge)]; unfold stored_price in Hs;
        destruct (cache_prices w !! sym) as [pe|]; try discriminate.
      * run_read. rewrite Hr. reflexivity.
      * injection Hs as <-. simpl in Hge. apply Z.ltb_ge in Hge. rewrite Hge.
        run_read. rewrite Hr. reflexivity.
    + simpl. auto.
  - reflexivity.
Qed.

Lemma account_contract :
  CacheContract (Server.getAccountCached hmac_sha256_hex API_KEY (Some secret) exchange)
                stored_account Server.ACCOUNT_TTL
                (account_request hmac_sha256_hex API_KEY secret exchange).
Proof.
  apply contract_from_basics.
  - intros w c Hs Hlt. unfold stored_account in Hs.
    unfold Server.getAccountCached. run_read.
    destruct (data (cache_account w)) as [d|]; [|discriminate].
    injection Hs as <-. simpl in Hlt. apply Z.ltb_lt in Hlt. rewrite Hlt. reflexivity.
  - intros w d Hst Hout. unfold account_request, account_url in Hout. simpl in Hout.
    eexists. split.
    + unfold Server.getAccountCached. run_read.
      destruct Hst as [Hs | (c & Hs & Hge)]; unfold stored_account in Hs;
        destruct (data (cache_account w)) as [d0|]; try discriminate.
      * run_read. rewrite Hout. reflexivity.
      * injection Hs as <-. simpl in Hge. apply Z.ltb_ge in Hge. rewrite Hge.
        run_read. rewrite Hout. reflexivity.
    + simpl. auto.
  - intros w e Hst Hout. unfold account_request, account_url in Hout. simpl in Hout.
    eexists. split.
    + unfold Server.getAccountCached. run_read.
      destruct Hst as [Hs | (c & Hs & Hge)]; unfold stored_account in Hs;
        destruct (data (cache_account w)) as [d0|]; try discriminate.
      * run_read. rewrite Hout. reflexivity.
      * injection Hs as <-. simpl in Hge. apply Z.ltb_ge in Hge. rewrite Hge.
        run_read. rewrite Hout. reflexivity.
    + simpl. auto.
  - reflexivity.
Qed.

Lemma info_contract :
  CacheContract (Server.getExchangeInfo exchange)
                stored_info Server.EXCHANGE_INFO_TTL
                (info_request exchange).
Proof.
  apply contract_from_basics.
  - intros w c Hs Hlt. unfold stored_info in Hs.
    unfold Server.getExchangeInfo. run_read.
    destruct (data (exchangeInfoCache w)) as [d|]; [|discriminate].
    injection Hs as <-. simpl in Hlt. apply Z.ltb_lt in Hlt.
    rewrite Hlt. reflexivity.
  - intros w d Hst Hout. unfold info_request, info_url in Hout. simpl in Hout.
    eexists. split.
    + unfold Server.getExchangeInfo. run_read.
      destruct Hst as [Hs | (c & Hs & Hge)]; unfold stored_info in Hs;
        destruct (data (exchangeInfoCache w)) as [d0|]; try discriminate.
      * run_read. rewrite Hout. reflexivity.
      * injection Hs as <-. simpl in Hge. apply Z.ltb_ge in Hge. rewrite Hge.
        run_read. rewrite Hout. reflexivity.
    + simpl. auto.
  - intros w e Hst Hout. unfold info_request, info_url in Hout. simpl in Hout.
    eexists. split.
    + unfold Server.getExchangeInfo. run_read.
      destruct Hst as [Hs | (c & Hs & Hge)]; unfold stored_info in Hs;
        destruct (data (exchangeInfoCache w)) as [d0|]; try discriminate.
      * run_read. rewrite Hout. reflexivity.
      * injection Hs as <-. simpl in Hge. apply Z.ltb_ge in Hge. rewrite Hge.
        run_read. rewrite Hout. reflexivity.
    + simpl. auto.
  - reflexivity.
Qed.

End CacheFacts.

(** C5. With a configured secret, each of the four cached reads of
    server.js keeps the cache contract with its own TTL (account 5 s,
    trades 60 s, price 5 s, exchange info 1 h): a value stored less than
    the TTL ago is returned without a request; otherwise one request is
    sent, its result is stored with the time of arrival and returned; two
    reads within the TTL give the same value for one request; a read after
    the TTL sends a request again. *)
Theorem cached_reads_keep_contract
  (hmac_sha256_hex : string -> string -> string)
  (API_KEY API_SECRET : option string) (secret : string)
  (exchange : Exchange) (sym : string) :
  API_SECRET = Some secret ->
  CacheContract (Server.getAccountCached hmac_sha256_hex API_KEY API_SECRET exchange)
                CacheReads.stored_account Server.ACCOUNT_TTL
                (CacheReads.account_request hmac_sha256_hex API_KEY secret exchange) /\
  CacheContract (Server.getTradesCached hmac_sha256_hex API_KEY API_SECRET exchange sym)
                (CacheReads.stored_trades sym) Server.TRADES_TTL
                (CacheReads.trades_request hmac_sha256_hex API_KEY secret exchange sym) /\
  CacheContract (Server.getPriceCached exchange sym)
                (CacheReads.stored_price sym) Server.PRICE_TTL
                (CacheReads.price_request exchange sym) /\
  CacheContract (Server.getExchangeInfo exchange)
                CacheReads.stored_info Server.EXCHANGE_INFO_TTL
                (CacheReads.info_request exchange).
Proof.
  intros ->. split; [|split; [|split]].
  - apply account_contract.
  - apply trades_contract.
  - apply price_contract.
  - apply info_contract.
Qed.

Lemma cached_reads_keep_contract_witness :
  Some "s3cret"%string = Some "s3cret"%string /\
  CacheContract (Server.getTradesCached SampleExchange.digest (Some "key"%string)
                   (Some "s3cret"%string) SampleExchange.exchange "BTCUSDT")
                (CacheReads.stored_trades "BTCUSDT") Server.TRADES_TTL
                (CacheReads.trades_request SampleExchange.digest (Some "key"%string)
                   "s3cret" SampleExchange.exchange "BTCUSDT").
Proof.
  split; [reflexivity|].
  exact (proj1 (proj2 (cached_reads_keep_contract SampleExchange.digest
                         (Some "key"%string) (Some "s3cret"%string) "s3cret"%string
                         SampleExchange.exchange "BTCUSDT"%string eq_refl))).
Defined.

(** ** Counting decimals *)

Module StringFacts.

Import JsString Digits.
Local Open Scope string_scope.
Local Open Scope Z_scope.

Lemma length_app (a b : string) :
  String.length (a ++ b) = (String.length a + String.length b)%nat.
Proof. induction a as [|c a IH]; simpl; [reflexivity | rewrite IH; reflexivity]. Qed.

Lemma all_chars_app (P : ascii -> bool) (a b : string) :
  all_chars P (a ++ b) = all_chars P a && all_chars P b.
Proof.
  induction a as [|c a IH]; simpl; [reflexivity|].
  rewrite IH, andb_assoc. reflexivity.
Qed.

Lemma all_chars_impl (P Q : ascii -> bool) (s : string) :
  (forall a, P a = true -> Q a = true) -> all_chars P s = true -> all_chars Q s = true.
Proof.
  intros HPQ. induction s as [|c s IH]; simpl; [reflexivity|].
  intros H. apply andb_prop in H as [Hc Hs]. rewrite (HPQ _ Hc), (IH Hs). reflexivity.
Qed.

Lemma all_chars_substring (P : ascii -> bool) (s : string) (n m : nat) :
  all_chars P s = true -> all_chars P (substring n m s) = true.
Proof.
  revert n m. induction s as [|c s IH]; intros n m H.
  - destruct n, m; reflexivity.
  - simpl in H. apply andb_prop in H as [Hc Hs].
    destruct n as [|n]; simpl.
    + destruct m as [|m]; simpl; [reflexivity|]. rewrite Hc. apply IH, Hs.
    + apply IH, Hs.
Qed.

Lemma length_substring (s : string) (n m : nat) :
  (n + m <= String.length s)%nat -> String.length (substring n m s) = m.
Proof.
  revert n m. induction s as [|c s IH]; intros n m H; simpl in H.
  - assert (n = 0%nat) by lia. assert (m = 0%nat) by lia. subst. reflexivity.
  - destruct n as [|n]; simpl.
    + destruct m as [|m]; simpl; [reflexivity|]. rewrite IH; [reflexivity | lia].
    + apply IH. lia.
Qed.

Lemma length_zeros (k : nat) : String.length (zeros k) = k.
Proof. induction k as [|k IH]; simpl; [reflexivity | rewrite IH; reflexivity]. Qed.

Lemma all_digits_zeros (k : nat) : all_chars is_digit (zeros k) = true.
Proof. induction k as [|k IH]; simpl; [reflexivity | exact IH]. Qed.

Lemma all_digits_uint (d : Decimal.uint) :
  all_chars is_digit (NilEmpty.string_of_uint d) = true.
Proof. induction d; simpl; auto. Qed.

Lemma all_digits_of_N (n : N) : all_chars is_digit (digits_of_N n) = true.
Proof. apply all_digits_uint. Qed.

Lemma digit_not_e (a : ascii) : is_digit a = true -> is_e a = false.
Proof.
  unfold is_digit, is_e. intros H.
  destruct (Ascii.eqb_spec a "e") as [-> | _]; [discriminate|].
  destruct (Ascii.eqb_spec a "E") as [-> | _]; [discriminate|]. reflexivity.
Qed.

Lemma digit_not_dot (a : ascii) : is_digit a = true -> is_dot a = false.
Proof.
  unfold is_digit, is_dot. intros H.
  destruct (Ascii.eqb_spec a ".") as [-> | _]; [discriminate|]. reflexivity.
Qed.

Lemma includes_app (c : ascii) (a b : string) :
  includes c (a ++ b) = includes c a || includes c b.
Proof.
  induction a as [|x a IH]; simpl; [reflexivity|].
  destruct (Ascii.eqb x c); [reflexivity | exact IH].
Qed.

Lemma includes_none (c : ascii) (P : ascii -> bool) (s : string) :
  P c = false -> all_chars P s = true -> includes c s = false.
Proof.
  intros Hc. induction s as [|x s IH]; simpl; [reflexivity|].
  intros H. apply andb_prop in H as [Hx Hs].
  destruct (Ascii.eqb_spec x c) as [-> | _]; [congruence | apply IH, Hs].
Qed.

Lemma split_on_none (sep : ascii -> bool) (s : string) :
  all_chars (fun a => negb (sep a)) s = true -> split_on sep s = [s].
Proof.
  induction s as [|x s IH]; simpl; [reflexivity|].
  intros H. apply andb_prop in H as [Hx Hs]. apply negb_true_iff in Hx.
  rewrite Hx, (IH Hs). reflexivity.
Qed.

Lemma split_on_at (sep : ascii -> bool) (a : string) (c : ascii) (b : string) :
  all_chars (fun x => negb (sep x)) a = true -> sep c = true ->
  split_on sep (a ++ String c b) = a :: split_on sep b.
Proof.
  intros Ha Hc. induction a as [|x a IH]; simpl.
  - rewrite Hc. reflexivity.
  - simpl in Ha. apply andb_prop in Ha as [Hx Ha]. apply negb_true_iff in Hx.
    rewrite Hx, (IH Ha). reflexivity.
Qed.

Lemma rev_cons_value (d tail : Decimal.uint) :
  Z.of_N (Unsigned.of_lu (Decimal.revapp d tail)) =
  Z.of_N (Unsigned.of_lu (Decimal.rev d)) +
  Z.of_N (Unsigned.of_lu tail) * 10 ^ Z.of_N (Unsigned.usize d).
Proof.
  rewrite Unsigned.of_lu_revapp, N2Z.inj_add, N2Z.inj_mul, N2Z.inj_pow. reflexivity.
Qed.

Lemma pow10_succ (u : N) : 10 ^ Z.of_N (N.succ u) = 10 * 10 ^ Z.of_N u.
Proof. rewrite N2Z.inj_succ. apply Z.pow_succ_r, N2Z.is_nonneg. Qed.

Lemma read_digits_cons (acc : option Z) (c : ascii) (v : Z) (rest : string) :
  digit_value c = Some v ->
  read_digits acc (String c rest) = read_digits (Some (10 * default 0 acc + v)) rest.
Proof. intros Hc. simpl. rewrite Hc. reflexivity. Qed.

Ltac digit_value_compute :=
  match goal with
  | |- context [Z.of_nat (nat_of_ascii ?c) - 48] =>
      let v := eval vm_compute in (Z.of_nat (nat_of_ascii c) - 48) in
      change (Z.of_nat (nat_of_ascii c) - 48) with v
  end.

Lemma read_digits_uint (d : Decimal.uint) (a : Z) :
  read_digits (Some a) (NilEmpty.string_of_uint d) =
  Some (a * 10 ^ Z.of_N (Unsigned.usize d) + Z.of_N (Unsigned.of_lu (Decimal.rev d))).
Proof.
  revert a. induction d as [|d IH|d IH|d IH|d IH|d IH|d IH|d IH|d IH|d IH|d IH]; intros a;
    [simpl; f_equal; ring | ..];
    cbn [NilEmpty.string_of_uint];
    erewrite read_digits_cons by reflexivity;
    match goal with
    | |- context [Decimal.rev (?D d)] =>
        change (Decimal.rev (D d)) with (Decimal.revapp d (D Decimal.Nil))
    end;
    rewrite IH, rev_cons_value; cbn [Unsigned.usize]; rewrite pow10_succ;
    f_equal; simpl; digit_value_compute; ring.
Qed.

Lemma read_digits_nonnil (d : Decimal.uint) :
  d <> Decimal.Nil ->
  read_digits None (NilEmpty.string_of_uint d) = Some (Z.of_N (N.of_uint d)).
Proof.
  intros Hd. unfold N.of_uint. rewrite Unsigned.of_uint_alt.
  destruct d as [|d|d|d|d|d|d|d|d|d|d]; [contradiction | ..];
    cbn [NilEmpty.string_of_uint];
    erewrite read_digits_cons by reflexivity;
    match goal with
    | |- context [Decimal.rev (?D d)] =>
        change (Decimal.rev (D d)) with (Decimal.revapp d (D Decimal.Nil))
    end;
    rewrite read_digits_uint, rev_cons_value; f_equal; simpl; digit_value_compute; ring.
Qed.

Lemma read_digits_of_N (n : N) : read_digits None (digits_of_N n) = Some (Z.of_N n).
Proof.
  unfold digits_of_N. rewrite read_digits_nonnil.
  - rewrite DecimalN.Unsigned.of_to. reflexivity.
  - destruct n; simpl; [discriminate | apply Unsigned.to_uint_nonnil].
Qed.

Lemma parseInt_plus (s : string) : parseInt (String "+" s) = read_digits None s.
Proof. reflexivity. Qed.

Lemma parseInt_minus (s : string) : parseInt (String "-" s) = Z.opp <$> read_digits None s.
Proof. reflexivity. Qed.

Lemma parseInt_signed (n : Z) :
  parseInt ((if 0 <=? n then "+" else "-") ++ digits_of_N (Z.to_N (Z.abs n))) = Some n.
Proof.
  destruct (0 <=? n) eqn:E.
  - apply Z.leb_le in E. change ("+" ++ ?s) with (String "+" s).
    rewrite parseInt_plus, read_digits_of_N. f_equal. lia.
  - apply Z.leb_gt in E. change ("-" ++ ?s) with (String "-" s).
    rewrite parseInt_minus, read_digits_of_N. simpl. f_equal. lia.
Qed.

Lemma app_assoc (a b c : string) : (a ++ b) ++ c = a ++ (b ++ c).
Proof.
  induction a as [|x a IH]; [reflexivity|].
  change (String x ((a ++ b) ++ c) = String x (a ++ b ++ c)). rewrite IH. reflexivity.
Qed.

(** Characters of a sign, a digit, a point. *)
Definition plain_char (a : ascii) : bool :=
  is_digit a || Ascii.eqb a "-" || Ascii.eqb a "+" || Ascii.eqb a ".".

Definition int_char (a : ascii) : bool :=
  is_digit a || Ascii.eqb a "-" || Ascii.eqb a "+".

Lemma plain_not_e (a : ascii) : plain_char a = true -> negb (is_e a) = true.
Proof.
  unfold plain_char, is_e, is_digit. intros H.
  destruct (Ascii.eqb_spec a "e") as [-> | _]; [discriminate|].
  destruct (Ascii.eqb_spec a "E") as [-> | _]; [discriminate|]. reflexivity.
Qed.

Lemma int_not_dot (a : ascii) : int_char a = true -> negb (is_dot a) = true.
Proof.
  unfold int_char, is_dot, is_digit. intros H.
  destruct (Ascii.eqb_spec a ".") as [-> | _]; [discriminate|]. reflexivity.
Qed.

Lemma digit_int (a : ascii) : is_digit a = true -> int_char a = true.
Proof. unfold int_char. intros ->. reflexivity. Qed.

Lemma int_plain (a : ascii) : int_char a = true -> plain_char a = true.
Proof. unfold plain_char, int_char. intros ->. reflexivity. Qed.

Lemma no_e (s : string) :
  all_chars plain_char s = true -> all_chars (fun a => negb (is_e a)) s = true.
Proof. apply all_chars_impl, plain_not_e. Qed.

Lemma no_dot (s : string) :
  all_chars int_char s = true -> all_chars (fun a => negb (is_dot a)) s = true.
Proof. apply all_chars_impl, int_not_dot. Qed.

Lemma digits_int (s : string) : all_chars is_digit s = true -> all_chars int_char s = true.
Proof. apply all_chars_impl, digit_int. Qed.

Lemma ints_plain (s : string) : all_chars int_char s = true -> all_chars plain_char s = true.
Proof. apply all_chars_impl, int_plain. Qed.

Lemma includes_e_plain (s : string) :
  all_chars plain_char s = true -> includes "e" s = false /\ includes "E" s = false.
Proof. intros H. split; apply (includes_none _ plain_char); auto. Qed.

Lemma includes_dot_int (s : string) :
  all_chars int_char s = true -> includes "." s = false.
Proof. intros H. apply (includes_none _ int_char); auto. Qed.

End StringFacts.

Module CountDecimals.

Import JsString Digits StringFacts.
Local Open Scope string_scope.
Local Open Scope Z_scope.

Lemma countDecimals_count (x : B64.num) : Legacy.countDecimals x = count_in_text (B64.toString x).
Proof. reflexivity. Qed.

Section Format.

Variable sign : string.
Variable digits : string.
Variable n : Z.
Hypothesis sign_ok : all_chars (fun a => Ascii.eqb a "-") sign = true.
Hypothesis digits_ok : all_chars is_digit digits = true.
Hypothesis digits_nonempty : (1 <= String.length digits)%nat.

Lemma sign_int : all_chars int_char sign = true.
Proof.
  revert sign_ok. apply all_chars_impl. intros a Ha. unfold int_char.
  rewrite Ha, orb_true_r. reflexivity.
Qed.

Lemma count_integer :
  Z.of_nat (String.length digits) <= n ->
  count_in_text (sign ++ digits ++ zeros (Z.to_nat (n - Z.of_nat (String.length digits)))) =
  Some (fraction_length digits n).
Proof.
  intros Hk.
  assert (Hint : all_chars int_char
                   (sign ++ digits ++ zeros (Z.to_nat (n - Z.of_nat (String.length digits)))) = true).
  { rewrite !all_chars_app, sign_int, (digits_int _ digits_ok),
      (digits_int _ (all_digits_zeros _)). reflexivity. }
  unfold count_in_text.
  destruct (includes_e_plain _ (ints_plain _ Hint)) as [-> ->].
  rewrite (includes_dot_int _ Hint). cbn [orb].
  unfold fraction_length. f_equal. lia.
Qed.

Lemma count_point (a b : string) :
  all_chars is_digit a = true -> all_chars is_digit b = true ->
  count_in_text (sign ++ a ++ "." ++ b) = Some (Z.of_nat (String.length b)).
Proof.
  intros Ha Hb.
  assert (Hplain : all_chars plain_char (sign ++ a ++ "." ++ b) = true).
  { rewrite !all_chars_app, (ints_plain _ sign_int), (ints_plain _ (digits_int _ Ha)),
      (ints_plain _ (digits_int _ Hb)). reflexivity. }
  unfold count_in_text. destruct (includes_e_plain _ Hplain) as [-> ->]. cbn [orb].
  rewrite <- app_assoc.
  change ((sign ++ a) ++ "." ++ b) with ((sign ++ a) ++ String "." b).
  assert (Hsa : all_chars (fun x => negb (is_dot x)) (sign ++ a) = true).
  { apply no_dot. rewrite all_chars_app, sign_int, (digits_int _ Ha). reflexivity. }
  rewrite includes_app. cbn [includes]. rewrite Ascii.eqb_refl, orb_true_r.
  rewrite (split_on_at is_dot (sign ++ a) "." b Hsa eq_refl).
  rewrite (split_on_none _ b (no_dot _ (digits_int _ Hb))). reflexivity.
Qed.

Lemma count_exponent (mant : string) (ex : Z) :
  all_chars plain_char mant = true ->
  count_in_text (sign ++ mant ++ "e" ++ (if 0 <=? ex then "+" else "-") ++
                 digits_of_N (Z.to_N (Z.abs ex))) =
  Some (Z.max 0 (Z.of_nat (String.length
                            (or_empty (item 1 (split_on is_dot (sign ++ mant))))) - ex)).
Proof.
  intros Hm.
  set (tail := (if 0 <=? ex then "+" else "-") ++ digits_of_N (Z.to_N (Z.abs ex))).
  assert (Htail : all_chars plain_char tail = true).
  { unfold tail. rewrite all_chars_app, (ints_plain _ (digits_int _ (all_digits_of_N _))).
    destruct (0 <=? ex); reflexivity. }
  assert (Hbase : all_chars (fun x => negb (is_e x)) (sign ++ mant) = true).
  { apply no_e. rewrite all_chars_app, (ints_plain _ sign_int), Hm. reflexivity. }
  rewrite <- app_assoc.
  change ((sign ++ mant) ++ "e" ++ tail) with ((sign ++ mant) ++ String "e" tail).
  unfold count_in_text.
  rewrite includes_app. cbn [includes]. rewrite Ascii.eqb_refl, orb_true_r. cbn [orb].
  rewrite (split_on_at is_e (sign ++ mant) "e" tail Hbase eq_refl).
  rewrite (split_on_none _ tail (no_e _ Htail)).
  cbn [nth item nth_error mbind option_bind].
  unfold tail at 1. rewrite parseInt_signed. reflexivity.
Qed.

(** The count for the decimal written out in full. *)
Lemma count_plain_text :
  count_in_text (sign ++ B64.plain_text digits n) = Some (fraction_length digits n).
Proof.
  unfold B64.plain_text, fraction_length.
  set (k := Z.of_nat (String.length digits)).
  assert (Hk : 1 <= k) by (unfold k; lia).
  destruct (k <=? n) eqn:Hkn; [|destruct (0 <? n) eqn:Hn].
  - apply Z.leb_le in Hkn. apply count_integer. exact Hkn.
  - apply Z.leb_gt in Hkn. apply Z.ltb_lt in Hn.
    rewrite count_point by (apply all_chars_substring; exact digits_ok).
    rewrite length_substring by (unfold k in *; lia). f_equal. lia.
  - apply Z.leb_gt in Hkn. apply Z.ltb_ge in Hn.
    change ("0." ++ ?t) with ("0" ++ "." ++ t).
    rewrite count_point; [| reflexivity |].
    + rewrite length_app, length_zeros. f_equal. unfold k in *. lia.
    + rewrite all_chars_app, all_digits_zeros, digits_ok. reflexivity.
Qed.

(** The count for the same decimal in exponential notation. *)
Lemma count_exponent_text :
  count_in_text (sign ++ B64.exponent_text digits n) = Some (fraction_length digits n).
Proof.
  unfold B64.exponent_text, fraction_length.
  set (k := Z.of_nat (String.length digits)).
  assert (Hk : 1 <= k) by (unfold k; lia).
  destruct (k =? 1) eqn:Hk1.
  - apply Z.eqb_eq in Hk1.
    rewrite (count_exponent digits (n - 1) (ints_plain _ (digits_int _ digits_ok))).
    rewrite split_on_none.
    + cbn [item nth_error or_empty String.length]. f_equal. lia.
    + apply no_dot. rewrite all_chars_app, sign_int, (digits_int _ digits_ok). reflexivity.
  - apply Z.eqb_neq in Hk1.
    set (d1 := substring 0 1 digits).
    set (rest := substring 1 (Z.to_nat (k - 1)) digits).
    assert (Hd1 : all_chars is_digit d1 = true)
      by (apply all_chars_substring; exact digits_ok).
    assert (Hrest : all_chars is_digit rest = true)
      by (apply all_chars_substring; exact digits_ok).
    rewrite <- (app_assoc d1 "." _), <- (app_assoc (d1 ++ ".") rest _).
    rewrite (count_exponent ((d1 ++ ".") ++ rest) (n - 1)).
    + rewrite (app_assoc d1 "." rest), <- (app_assoc sign d1 _).
      change ((sign ++ d1) ++ "." ++ rest) with ((sign ++ d1) ++ String "." rest).
      rewrite (split_on_at is_dot (sign ++ d1) "." rest);
        [| apply no_dot; rewrite all_chars_app, sign_int, (digits_int _ Hd1); reflexivity
         | reflexivity].
      rewrite (split_on_none _ rest (no_dot _ (digits_int _ Hrest))).
      cbn [item nth_error or_empty]. unfold rest.
      rewrite length_substring by (unfold k in *; lia). f_equal. lia.
    + rewrite !all_chars_app, (ints_plain _ (digits_int _ Hd1)),
        (ints_plain _ (digits_int _ Hrest)). reflexivity.
Qed.

Lemma count_format :
  count_in_text (sign ++ B64.format_decimal digits n) = Some (fraction_length digits n).
Proof.
  unfold B64.format_decimal.
  destruct ((-6 <? n) && (n <=? 21)); [apply count_plain_text | apply count_exponent_text].
Qed.

End Format.

Lemma length_digits_of_N (x : N) : (1 <= String.length (digits_of_N x))%nat.
Proof.
  unfold digits_of_N.
  assert (H : N.to_uint x <> Decimal.Nil)
    by (destruct x; simpl; [discriminate | apply Unsigned.to_uint_nonnil]).
  destruct (N.to_uint x); [contradiction | ..]; simpl; lia.
Qed.

End CountDecimals.

(** C7. [countDecimals] returns the number of digits after the point of
    the canonical decimal [digits * 10^(n - k)] of its argument,
    [max 0 (k - n)], for every finite non-zero Number, and 0 for zero.  The
    count is the same whether that decimal is written out in full or with
    an exponent.  In particular [1e-7] and [0.0000001] are the same Number
    and give 7. *)
Theorem countDecimals_counts_fraction_digits :
  (forall (s : bool) (m : positive) (e : Z),
      Legacy.countDecimals (S754_finite s m e) =
      Some (Digits.fraction_length
              (JsString.digits_of_N (Z.to_N (fst (B64.shortest m e))))
              (snd (B64.shortest m e)))) /\
  (forall s : bool, Legacy.countDecimals (S754_zero s) = Some 0) /\
  (forall (negative : bool) (d : N) (n : Z),
      Digits.count_in_text
        ((if negative then "-" else EmptyString) ++
         B64.plain_text (JsString.digits_of_N d) n)%string =
      Some (Digits.fraction_length (JsString.digits_of_N d) n) /\
      Digits.count_in_text
        ((if negative then "-" else EmptyString) ++
         B64.exponent_text (JsString.digits_of_N d) n)%string =
      Some (Digits.fraction_length (JsString.digits_of_N d) n)) /\
  Legacy.countDecimals (JsValue.parseFloat "1e-7") = Some 7 /\
  Legacy.countDecimals (JsValue.parseFloat "0.0000001") = Some 7 /\
  JsValue.parseFloat "1e-7" = JsValue.parseFloat "0.0000001".
Proof.
  assert (Hsign : forall negative : bool,
             Digits.all_chars (fun a => Ascii.eqb a "-")
               (if negative then "-" else EmptyString)%string = true)
    by (intros []; reflexivity).
  split; [|split; [|split; [|vm_compute; repeat split]]].
  - intros s m e. rewrite CountDecimals.countDecimals_count.
    cbn [B64.toString]. destruct (B64.shortest m e) as [d n]. cbn [fst snd].
    apply CountDecimals.count_format.
    + apply Hsign.
    + apply StringFacts.all_digits_of_N.
    + apply CountDecimals.length_digits_of_N.
  - intros s. reflexivity.
  - intros negative d n. split.
    + apply CountDecimals.count_plain_text;
        [apply Hsign | apply StringFacts.all_digits_of_N
         | apply CountDecimals.length_digits_of_N].
    + apply CountDecimals.count_exponent_text;
        [apply Hsign | apply StringFacts.all_digits_of_N
         | apply CountDecimals.length_digits_of_N].
Qed.

(** ** Signing without a secret *)

(** C9, as the code has it.  [signQuery] has no check of its own: with
    no secret configured it completes with the [TypeError] that
    [crypto.createHmac] throws for an [undefined] key, and with any string
    secret, the empty one included, it returns the query string followed
    by [&signature=] and the digest. *)
Theorem signQuery_has_no_secret_check
  (hmac_sha256_hex : string -> string -> string)
  (params : list (string * JsValue.value)) :
  Server.signQuery hmac_sha256_hex None params = Throw TypeError /\
  Server.signQuery hmac_sha256_hex (Some EmptyString) params =
    Normal (JsValue.URLSearchParams_toString params ++ "&signature=" ++
            hmac_sha256_hex EmptyString (JsValue.URLSearchParams_toString params))%string /\
  (forall secret : string,
      Server.signQuery hmac_sha256_hex (Some secret) params =
      Normal (JsValue.URLSearchParams_toString params ++ "&signature=" ++
              hmac_sha256_hex secret (JsValue.URLSearchParams_toString params))%string).
Proof. repeat split. Qed.

(** C9 fails as stated: with the empty secret, [signQuery] returns a
    signed query string. *)
Lemma signQuery_signs_with_empty_secret :
  Server.signQuery SampleExchange.digest (Some EmptyString)
    [("timestamp"%string, JsValue.VNum (B64.of_Z 1700000000000))] =
  Normal "timestamp=1700000000000&signature=00"%string.
Proof. vm_compute. reflexivity. Qed.

(** ** A tick or step size of zero *)

Module ZeroStep.

Import B64.

(** Whatever is divided by zero, floored and multiplied by zero is [NaN]. *)
Lemma floored_multiple_of_zero (x : num) (s : bool) :
  mul (floor (div x (S754_zero s))) (S754_zero s) = nan.
Proof. destruct x as [sx|sx| |sx m e]; reflexivity. Qed.

Lemma nan_not_below (x : num) : ltb nan x = false.
Proof. reflexivity. Qed.

End ZeroStep.

(** C8, as the code has it.  With a tick or step size of zero nothing is
    checked and no error of the code's own exists: [roundPrice] and
    [adjustQtyForLotSize] divide by zero and return the text [NaN], for
    every price, quantity and minimum; [adjustToStepSize] asks [toFixed]
    for infinitely many digits and completes with its [RangeError]. *)
Theorem zero_step_is_not_rejected
  (price qty minQty : B64.num) (log10_approx : B64.num -> B64.num) :
  Legacy.roundPrice price B64.pzero = Normal "NaN"%string /\
  Legacy.adjustQtyForLotSize qty B64.pzero minQty = Normal "NaN"%string /\
  Server.adjustToStepSize log10_approx qty B64.pzero = Throw RangeError.
Proof.
  unfold Legacy.roundPrice, Legacy.adjustQtyForLotSize, Server.adjustToStepSize.
  change B64.pzero with (S754_zero false).
  rewrite !ZeroStep.floored_multiple_of_zero. repeat split.
Qed.

(** C8 fails as stated: rounding the price 123.4567 to the tick size 0
    returns a value, the text [NaN]. *)
Lemma roundPrice_zero_tick_returns :
  Legacy.roundPrice (B64.of_decimal 1234567 (-4)) (JsValue.parseFloat "0.00000000") =
  Normal "NaN"%string /\
  Legacy.adjustQtyForLotSize (B64.of_decimal 5 0) (JsValue.parseFloat "0.00000000")
    (B64.of_decimal 1 (-3)) = Normal "NaN"%string.
Proof. vm_compute. split; reflexivity. Qed.

(** ** Lot sizes *)

Module LotSize.

Import B64.

Lemma finite_abs_nonneg (x : num) : (0 <= Qnum (to_Q (SFabs x)))%Z.
Proof.
  destruct x as [s|s| |s m e]; simpl; try lia.
  destruct e; simpl; lia.
Qed.

(** [round_half_up q f] is the integer closest to [q * 10^f]. *)
Lemma round_half_up_bounds (q : Q) (f : nat) :
  (0 <= Qnum q)%Z ->
  ((2 * Z.of_N (round_half_up q f) - 1) * Zpos (Qden q) <= 2 * Qnum q * 10 ^ Z.of_nat f
   /\ 2 * Qnum q * 10 ^ Z.of_nat f < (2 * Z.of_N (round_half_up q f) + 1) * Zpos (Qden q))%Z.
Proof.
  intros Hq. unfold round_half_up.
  set (a := (2 * Qnum q * 10 ^ Z.of_nat f + Zpos (Qden q))%Z).
  set (b := (2 * Zpos (Qden q))%Z).
  assert (Hb : (0 < b)%Z) by (unfold b; lia).
  assert (Hpow : (0 <= 10 ^ Z.of_nat f)%Z) by (apply Z.pow_nonneg; lia).
  assert (Ha : (0 <= a)%Z) by (unfold a; nia).
  assert (Hdiv : (0 <= a / b)%Z) by (apply Z.div_pos; lia).
  rewrite Z2N.id by exact Hdiv.
  pose proof (Z.mul_div_le a b Hb) as Hle.
  pose proof (Z.mul_succ_div_gt a b Hb) as Hgt.
  unfold a, b in *. split; nia.
Qed.

Lemma toFixed_digits_small (x : num) (f : nat) :
  is_finite x = true ->
  leb (of_decimal 1 21) (SFabs x) = false ->
  toFixed_digits x f =
  ((if ltb x pzero then "-" else EmptyString) ++
   fixed_digits (round_half_up (to_Q (SFabs x)) f) f)%string.
Proof.
  intros Hfin Hsmall. unfold toFixed_digits. rewrite Hfin, Hsmall. reflexivity.
Qed.

End LotSize.

Module ExactFloor.

Lemma floor_le (x : Qc) : (Q2Qc (inject_Z (Qfloor x)) <= x)%Qc.
Proof.
  unfold Qcle. simpl. rewrite Qred_correct. apply Qfloor_le.
Qed.

Lemma lt_floor_succ (x : Qc) : (x < Q2Qc (inject_Z (Qfloor x)) + 1)%Qc.
Proof.
  unfold Qclt. simpl. rewrite !Qred_correct.
  pose proof (Qlt_floor x) as H. rewrite inject_Z_plus in H. exact H.
Qed.

Lemma floor_mono_Z (k : Z) (x : Qc) :
  (Q2Qc (inject_Z k) <= x)%Qc ->
  (Q2Qc (inject_Z k) <= Q2Qc (inject_Z (Qfloor x)))%Qc.
Proof.
  unfold Qcle. cbn [this Q2Qc]. intros Hk.
  rewrite (Qred_correct (inject_Z k)) in *.
  rewrite (Qred_correct (inject_Z (Qfloor x))).
  rewrite <- Zle_Qle. rewrite <- (Qfloor_Z k). apply Qfloor_resp_le. exact Hk.
Qed.

(** In exact arithmetic the floored multiple is the largest multiple
    of the step that is not above the quantity. *)
Lemma floored_bounds (qty stepSize : Qc) :
  (0 < stepSize)%Qc ->
  (floored_multiple qty stepSize <= qty)%Qc /\
  (qty < floored_multiple qty stepSize + stepSize)%Qc.
Proof.
  intros Hpos.
  assert (Hne : stepSize <> 0%Qc).
  { intros ->. exact (Qclt_not_eq _ _ Hpos eq_refl). }
  assert (Hq : (qty / stepSize * stepSize = qty)%Qc) by (field; exact Hne).
  unfold floored_multiple. cbn [times divide math_floor Exact_Arith Exact_MathFloor].
  set (k := Q2Qc (inject_Z (Qfloor (qty / stepSize)%Qc))).
  split.
  - rewrite <- Hq at 1. apply Qcmult_le_compat_r; [apply floor_le | apply Qclt_le_weak, Hpos].
  - assert (E : (k * stepSize + stepSize = (k + 1) * stepSize)%Qc) by ring.
    rewrite E. rewrite <- Hq at 1.
    apply Qcmult_lt_compat_r; [exact Hpos | apply lt_floor_succ].
Qed.

Lemma lot_value_cases (qty stepSize minQty : Qc) :
  (minQty <= floored_multiple qty stepSize)%Qc /\
    lot_value qty stepSize minQty = floored_multiple qty stepSize \/
  (floored_multiple qty stepSize < minQty)%Qc /\ lot_value qty stepSize minQty = minQty.
Proof.
  unfold lot_value. cbn [lt Exact_Arith].
  destruct (Exact.ltb (floored_multiple qty stepSize) minQty) eqn:E.
  - right. split; [apply ExactFacts.exact_ltb_lt, E | reflexivity].
  - left. split; [|reflexivity].
    apply Qcnot_lt_le. intros Hlt. apply ExactFacts.exact_ltb_lt in Hlt. congruence.
Qed.

End ExactFloor.

(** C6, as the code has it.  [adjustQtyForLotSize] formats, by [toFixed]
    with [countDecimals(stepSize)] digits, the floored multiple
    [floor(qty / stepSize) * stepSize], or [minQty] when that multiple is
    below it; the value it formats is never below [minQty].  In exact
    arithmetic, for a positive step, the floored multiple is an integer
    times the step and the largest multiple of the step that is not above
    [qty].  In binary64 the quotient [qty / stepSize] is rounded before
    it is floored, so that a quantity on the grid can lose a whole step.
    The text is the value rounded half up at the last digit: it is
    within half a unit of that digit of the value, and may be below
    [minQty]. *)
Theorem adjustQty_floors_then_clamps :
  (forall qty stepSize minQty : B64.num,
      Legacy.adjustQtyForLotSize qty stepSize minQty =
        B64.toFixed (lot_value qty stepSize minQty)
                    (Legacy.fraction_digits (Legacy.countDecimals stepSize)) /\
      B64.ltb (lot_value qty stepSize minQty) minQty = false) /\
  (forall qty stepSize minQty : Qc,
      (0 < stepSize)%Qc ->
      (floored_multiple qty stepSize =
         Q2Qc (inject_Z (Qfloor (qty / stepSize)%Qc)) * stepSize)%Qc /\
      (floored_multiple qty stepSize <= qty)%Qc /\
      (qty < floored_multiple qty stepSize + stepSize)%Qc /\
      (forall k : Z,
          (Q2Qc (inject_Z k) * stepSize <= qty)%Qc ->
          (Q2Qc (inject_Z k) * stepSize <= floored_multiple qty stepSize)%Qc) /\
      (minQty <= lot_value qty stepSize minQty)%Qc /\
      ((minQty <= floored_multiple qty stepSize)%Qc /\
         lot_value qty stepSize minQty = floored_multiple qty stepSize \/
       (floored_multiple qty stepSize < minQty)%Qc /\
         lot_value qty stepSize minQty = minQty)) /\
  (forall (x : B64.num) (f : nat),
      B64.is_finite x = true ->
      B64.leb (B64.of_decimal 1 21) (SFabs x) = false ->
      B64.toFixed_digits x f =
        ((if B64.ltb x B64.pzero then "-" else EmptyString) ++
         B64.fixed_digits (B64.round_half_up (B64.to_Q (SFabs x)) f) f)%string /\
      (2 * Z.of_N (B64.round_half_up (B64.to_Q (SFabs x)) f) - 1)
        * Zpos (Qden (B64.to_Q (SFabs x)))
        <= 2 * Qnum (B64.to_Q (SFabs x)) * 10 ^ Z.of_nat f /\
      2 * Qnum (B64.to_Q (SFabs x)) * 10 ^ Z.of_nat f
        < (2 * Z.of_N (B64.round_half_up (B64.to_Q (SFabs x)) f) + 1)
          * Zpos (Qden (B64.to_Q (SFabs x)))).
Proof.
  split; [|split].
  - intros qty stepSize minQty. split; [reflexivity|].
    unfold lot_value. cbn [lt B64_Arith].
    destruct (B64.ltb (floored_multiple qty stepSize) minQty) eqn:E.
    + apply B64Facts.b64_ltb_irrefl.
    + exact E.
  - intros qty stepSize minQty Hpos.
    destruct (ExactFloor.floored_bounds qty stepSize Hpos) as [Hle Hlt].
    split; [reflexivity|]. split; [exact Hle|]. split; [exact Hlt|]. split; [|split].
    + intros k Hk.
      assert (Hne : stepSize <> 0%Qc).
      { intros ->. exact (Qclt_not_eq _ _ Hpos eq_refl). }
      unfold floored_multiple. cbn [times divide math_floor Exact_Arith Exact_MathFloor].
      apply Qcmult_le_compat_r; [|apply Qclt_le_weak, Hpos].
      assert (Hkq : (Q2Qc (inject_Z k) <= qty / stepSize)%Qc).
      { apply Qcnot_lt_le. intros Hgt.
        apply (Qcmult_lt_compat_r _ _ stepSize Hpos) in Hgt.
        replace (qty / stepSize * stepSize)%Qc with qty in Hgt by (field; exact Hne).
        exact (Qclt_not_le _ _ Hgt Hk). }
      apply ExactFloor.floor_mono_Z, Hkq.
    + destruct (ExactFloor.lot_value_cases qty stepSize minQty) as [[H1 ->] | [H1 ->]];
        [exact H1 | apply Qcle_refl].
    + apply ExactFloor.lot_value_cases.
  - intros x f Hfin Hsmall. split.
    + apply LotSize.toFixed_digits_small; assumption.
    + apply LotSize.round_half_up_bounds, LotSize.finite_abs_nonneg.
Qed.

Lemma adjustQty_floors_then_clamps_witness :
  (floored_multiple (Exact.of_decimal 37 (-2)) (Exact.of_decimal 1 (-1)) <=
     Exact.of_decimal 37 (-2))%Qc /\
  (Exact.of_decimal 37 (-2) <
     floored_multiple (Exact.of_decimal 37 (-2)) (Exact.of_decimal 1 (-1)) +
     Exact.of_decimal 1 (-1))%Qc.
Proof.
  destruct (proj1 (proj2 adjustQty_floors_then_clamps)
              (Exact.of_decimal 37 (-2)) (Exact.of_decimal 1 (-1))
              (Exact.of_decimal 1 (-2)) eq_refl) as (_ & Hle & Hlt & _).
  split; [exact Hle | exact Hlt].
Defined.

(** C6 fails as stated.  For the quantity 0, the step 0.1 and the
    minimum 0.01 the result is the text [0.0], which reads as a number
    below the minimum; for the step 0.005 and the minimum 0.001 it is
    [0.001], which is not a multiple of the step (flooring it to the step
    gives 0).  For the quantity 0.3 and the step 0.1, binary64 rounds the
    quotient to 2.9999999999999996 and the result is [0.2], a whole step
    below the quantity, where exact arithmetic keeps 0.3; for the
    quantity 1.7 the binary64 product is 1.7000000000000002, above the
    quantity.  In exact arithmetic too the minimum 0.001 that is
    returned for the step 0.005 is no multiple of the step. *)
Lemma adjustQty_can_return_less_than_minQty :
  Legacy.adjustQtyForLotSize (B64.of_Z 0) (B64.of_decimal 1 (-1)) (B64.of_decimal 1 (-2)) =
    Normal "0.0"%string /\
  B64.ltb (JsValue.parseFloat "0.0") (B64.of_decimal 1 (-2)) = true /\
  Legacy.adjustQtyForLotSize (B64.of_Z 0) (B64.of_decimal 5 (-3)) (B64.of_decimal 1 (-3)) =
    Normal "0.001"%string /\
  B64.mul (B64.floor (B64.div (JsValue.parseFloat "0.001") (B64.of_decimal 5 (-3))))
          (B64.of_decimal 5 (-3)) = B64.pzero /\
  B64.toString (B64.div (B64.of_decimal 3 (-1)) (B64.of_decimal 1 (-1))) =
    "2.9999999999999996"%string /\
  Legacy.adjustQtyForLotSize (B64.of_decimal 3 (-1)) (B64.of_decimal 1 (-1))
    (B64.of_decimal 1 (-1)) = Normal "0.2"%string /\
  Exact.eqb (floored_multiple (Exact.of_decimal 3 (-1)) (Exact.of_decimal 1 (-1)))
            (Exact.of_decimal 3 (-1)) = true /\
  B64.toString (floored_multiple (B64.of_decimal 17 (-1)) (B64.of_decimal 1 (-1))) =
    "1.7000000000000002"%string /\
  B64.ltb (B64.of_decimal 17 (-1))
          (floored_multiple (B64.of_decimal 17 (-1)) (B64.of_decimal 1 (-1))) = true /\
  Exact.eqb (lot_value (Exact.of_decimal 0 0) (Exact.of_decimal 5 (-3))
                       (Exact.of_decimal 1 (-3)))
            (Exact.of_decimal 1 (-3)) = true /\
  Exact.eqb (floored_multiple (Exact.of_decimal 1 (-3)) (Exact.of_decimal 5 (-3)))
            (Exact.of_decimal 0 0) = true.
Proof. vm_compute. repeat split. Qed.

(** ** The scenarios of the specification *)

(** Buy 1 at 100, buy 1 at 200, sell 1 at 300, no fee: one unit stays
    open at the break-even 150, and at the price 150 nothing is gained or
    lost. *)
Lemma scenario_average_cost_after_sell :
  positions_pass (B64.of_Z 0) Samples.two_buys_one_sell =
    {| openQty := B64.of_Z 1; openCost := B64.of_Z 150 |} /\
  option_map (Server.render_position "BTCUSDT")
             (position_values (B64.of_Z 0) Samples.two_buys_one_sell (B64.of_Z 150)) =
    Some {| Server.pos_symbol := "BTCUSDT";
            Server.positionAmt := "1.00000000";
            Server.breakEven := "150.00000000";
            Server.entryPrice := "150.00000000";
            Server.currentPrice := "150.00000000";
            Server.marketValue := "150.00";
            Server.unrealizedPL := "0.00" |}%string.
Proof. vm_compute. split; reflexivity. Qed.

(** An account holding 2 BTC bought at 10, priced at 20, fee rate 0.001:
    [GET /positions] on a cold cache asks for the account, the trades and
    the price, once each, and answers with the open cost 20.02 spread over
    2 units, the break-even 10.01 and the gain 19.98. *)
Lemma scenario_positions_end_to_end :
  openCost (positions_pass Samples.fee Samples.one_buy) = Samples.d 2002 (-2) /\
  fst (Server.get_positions SampleExchange.digest (Some "key"%string) (Some "s3cret"%string)
         None SampleExchange.exchange (initial_world 1700000000000)) =
    Server.Json
      [ {| Server.pos_symbol := "BTCUSDT";
           Server.positionAmt := "2.00000000";
           Server.breakEven := "10.01000000";
           Server.entryPrice := "10.01000000";
           Server.currentPrice := "20.00000000";
           Server.marketValue := "40.00";
           Server.unrealizedPL := "19.98" |}%string ] /\
  List.length (requests (snd (Server.get_positions SampleExchange.digest (Some "key"%string)
                           (Some "s3cret"%string) None SampleExchange.exchange
                           (initial_world 1700000000000)))) = 3%nat.
Proof. vm_compute. repeat split. Qed.

(** A position worth 9.99 is left out although it is open. *)
Lemma scenario_dust_is_left_out :
  B64.ltb (B64.of_Z 0)
          (openQty (positions_pass Samples.fee [Samples.buy (Samples.d 1 0) (Samples.d 5 0)])) = true /\
  B64.toFixed_digits
    (B64.mul (openQty (positions_pass Samples.fee [Samples.buy (Samples.d 1 0) (Samples.d 5 0)]))
             (Samples.d 999 (-2))) 2 = "9.99"%string /\
  position_values Samples.fee [Samples.buy (Samples.d 1 0) (Samples.d 5 0)] (Samples.d 999 (-2)) =
    None.
Proof. vm_compute. repeat split. Qed.

(** ** Assets without a trade history *)

Section NoHistory.

Variable hmac_sha256_hex : string -> string -> string.
Variable API_KEY API_SECRET BINANCE_FEE : option string.
Variable exchange : Exchange.

(** Every request for a trade history is answered with an empty list,
    or fails. *)
Hypothesis no_history : forall url key t,
  outcome (api_myTrades exchange url key t) = Normal [] \/
  exists e, outcome (api_myTrades exchange url key t) = Throw e.

Lemma read_without_history (s : string) (w : World) :
  no_cached_trades w ->
  exists w',
    no_cached_trades w' /\
    (Server.getTradesCached hmac_sha256_hex API_KEY API_SECRET exchange s w = (Normal [], w') \/
     exists e,
       Server.getTradesCached hmac_sha256_hex API_KEY API_SECRET exchange s w = (Throw e, w')).
Proof.
  intros Hw.
  assert (Hinsert : forall t url k,
             no_cached_trades
               {| clock := t; cache_account := cache_account w;
                  cache_trades := <[s := {| data := []; ts := t |}]> (cache_trades w);
                  cache_prices := cache_prices w;
                  exchangeInfoCache := exchangeInfoCache w;
                  requests := url :: k |}).
  { intros t url k s' c. simpl. destruct (decide (s = s')) as [<- | Hne].
    - rewrite lookup_insert_eq. intros [= <-]. reflexivity.
    - rewrite lookup_insert_ne by exact Hne. apply Hw. }
  unfold Server.getTradesCached, bind, get_world, Date_now, lift, await_get, ret,
    Server.createHmac_hex, set_cache_trades.
  cbn beta iota zeta.
  destruct (cache_trades w !! s) as [c|] eqn:Hc;
    [destruct (clock w - ts c <? Server.TRADES_TTL);
       [exists w; split; [exact Hw | left; rewrite (Hw _ _ Hc); reflexivity] |] |];
    (destruct API_SECRET as [secret|];
       [| exists w; split; [exact Hw | right; exists TypeError; reflexivity]]);
    match goal with
    | |- context [api_myTrades exchange ?u ?k ?t] =>
        destruct (no_history u k t) as [Hr | [e Hr]]; rewrite Hr
    end;
    cbn [clock cache_trades cache_account cache_prices exchangeInfoCache requests];
    eexists;
    (split; [| first [left; reflexivity | right; eexists; reflexivity]]);
    first [apply Hinsert | exact Hw].
Qed.

Lemma resolve_without_history (candidates : list string) (st : Server.Resolved) (w : World) :
  no_cached_trades w ->
  exists w',
    no_cached_trades w' /\
    Server.resolve_symbol hmac_sha256_hex API_KEY API_SECRET exchange candidates st w =
    (Normal st, w').
Proof.
  revert w. induction candidates as [|s rest IH]; intros w Hw.
  - exists w. split; [exact Hw | reflexivity].
  - cbn [Server.resolve_symbol].
    destruct (read_without_history s w Hw) as (w1 & Hw1 & [Hread | [e Hread]]);
      rewrite Hread; apply IH, Hw1.
Qed.

(** An asset none of whose candidate pairs has a trade history yields no
    position and no error, whatever its balance. *)
Theorem asset_without_history_is_skipped (a : string) (w : World) :
  no_cached_trades w ->
  fst (Server.position_of_asset hmac_sha256_hex API_KEY API_SECRET BINANCE_FEE exchange a w) =
  Normal [].
Proof.
  intros Hw. unfold Server.position_of_asset, bind.
  destruct (resolve_without_history
              [(a ++ "USDT")%string; (a ++ "USDC")%string; (a ++ "USD")%string]
              {| Server.r_symbol := None; Server.r_trades := None; Server.r_price := None |}
              w Hw) as (w' & _ & Hres).
  rewrite Hres. reflexivity.
Qed.

End NoHistory.

Lemma asset_without_history_is_skipped_witness :
  fst (Server.position_of_asset SampleExchange.digest (Some "key"%string) (Some "s3cret"%string)
         None exchange_without_history "BTC" (initial_world 1700000000000)) = Normal [].
Proof.
  apply (asset_without_history_is_skipped SampleExchange.digest (Some "key"%string)
           (Some "s3cret"%string) None exchange_without_history).
  - intros url key t. left. reflexivity.
  - intros s c Hc. simpl in Hc. rewrite lookup_empty in Hc. discriminate.
Defined.

(** ** The number model on known values

    What [toString], [toFixed], [Math.floor] and [parseFloat] give in
    JavaScript on a few well-known inputs. *)

Lemma number_text_samples :
  map B64.toString
      [ B64.of_decimal 1 (-1); B64.of_decimal 1 (-7); B64.of_decimal 1 21;
        B64.add (B64.of_decimal 1 (-1)) (B64.of_decimal 2 (-1));
        B64.of_decimal 5 (-324); B64.of_decimal 123456789012345680000 0;
        B64.of_decimal (-15) (-1); B64.div (B64.of_Z 1) (B64.of_Z 3) ] =
    [ "0.1"; "1e-7"; "1e+21"; "0.30000000000000004"; "5e-324";
      "123456789012345680000"; "-1.5"; "0.3333333333333333" ]%string /\
  map (fun x => B64.toFixed_digits x 2)
      [ B64.of_decimal 1005 (-3); B64.of_decimal 25 (-1); B64.of_decimal (-1) (-3);
        B64.nan; B64.of_decimal 123456 (-2) ] =
    [ "1.00"; "2.50"; "-0.00"; "NaN"; "1234.56" ]%string /\
  B64.floor (B64.div (B64.of_decimal 3 (-1)) (B64.of_decimal 1 (-1))) = B64.of_Z 2 /\
  map (fun s => B64.toString (JsValue.parseFloat s))
      [ "0.00100000"; " 12.50abc"; "abc"; ".5"; "1.5E3x"; "-Infinity" ]%string =
    [ "0.001"; "12.5"; "NaN"; "0.5"; "1500"; "-Infinity" ]%string.
Proof. vm_compute. repeat split. Qed.

(** ** Quantities and costs that never go negative *)

Module B64Sign.

(** Rounding a value with a positive sign gives nothing negative. *)
Lemma round_aux_not_negative (mx ex : Z) (lx : location) :
  B64.ltb (binary_round_aux B64.prec B64.emax false mx ex lx) (B64.of_Z 0) = false.
Proof.
  unfold binary_round_aux.
  destruct (shr_fexp B64.prec B64.emax mx ex lx) as [mrs' e'].
  destruct (shr_fexp B64.prec B64.emax _ e' loc_Exact) as [mrs'' e''].
  destruct (shr_m mrs''); try reflexivity.
  destruct (e'' <=? B64.emax - B64.prec); reflexivity.
Qed.

Lemma round_not_negative (m : positive) (e : Z) :
  B64.ltb (binary_round B64.prec B64.emax false m e) (B64.of_Z 0) = false.
Proof.
  unfold binary_round. destruct (shl_align m e _).
  apply round_aux_not_negative.
Qed.

Lemma add_not_negative (a b : B64.num) :
  B64.ltb a (B64.of_Z 0) = false -> B64.ltb b (B64.of_Z 0) = false ->
  B64.ltb (B64.add a b) (B64.of_Z 0) = false.
Proof.
  destruct a as [[|]|[|]| |[|] ma ea], b as [[|]|[|]| |[|] mb eb];
    try discriminate; try reflexivity; intros _ _.
  unfold B64.add, SFadd. cbn [cond_Zopp Z.add].
  unfold binary_normalize. apply round_not_negative.
Qed.

Lemma mul_not_negative (a b : B64.num) :
  B64.ltb a (B64.of_Z 0) = false -> B64.ltb b (B64.of_Z 0) = false ->
  B64.ltb (B64.mul a b) (B64.of_Z 0) = false.
Proof.
  destruct a as [[|]|[|]| |[|] ma ea], b as [[|]|[|]| |[|] mb eb];
    try discriminate; try reflexivity; intros _ _.
  unfold B64.mul, SFmul. cbn [xorb]. apply round_aux_not_negative.
Qed.

End B64Sign.

#[export] Instance B64_SignLaws : SignLaws B64.num.
Proof.
  split.
  - exact B64Sign.add_not_negative.
  - exact B64Sign.mul_not_negative.
Qed.

Module ExactSign.

Lemma exact_not_negative (a : Qc) : Exact.ltb a (Q2Qc (inject_Z 0)) = false <-> (0 <= a)%Qc.
Proof.
  unfold Exact.ltb. rewrite negb_false_iff. unfold Qcle.
  rewrite Qle_bool_iff. reflexivity.
Qed.

Lemma exact_add_not_negative (a b : Qc) :
  Exact.ltb a (Q2Qc (inject_Z 0)) = false -> Exact.ltb b (Q2Qc (inject_Z 0)) = false ->
  Exact.ltb (a + b)%Qc (Q2Qc (inject_Z 0)) = false.
Proof.
  rewrite !exact_not_negative. intros Ha Hb.
  replace 0%Qc with (0 + 0)%Qc by reflexivity. apply Qcplus_le_compat; assumption.
Qed.

Lemma exact_mul_not_negative (a b : Qc) :
  Exact.ltb a (Q2Qc (inject_Z 0)) = false -> Exact.ltb b (Q2Qc (inject_Z 0)) = false ->
  Exact.ltb (a * b)%Qc (Q2Qc (inject_Z 0)) = false.
Proof.
  rewrite !exact_not_negative. intros Ha Hb.
  replace 0%Qc with (0 * b)%Qc by ring. apply Qcmult_le_compat_r; assumption.
Qed.

End ExactSign.

#[export] Instance Exact_SignLaws : SignLaws Qc.
Proof.
  split.
  - exact ExactSign.exact_add_not_negative.
  - exact ExactSign.exact_mul_not_negative.
Qed.

Section NotNegativeFacts.

Context {num : Type} `{ArithLaws num} `{!SignLaws num}.

Lemma positions_step_not_negative (feeRate : num) (s : OpenState num) (t : Trade num) :
  lt feeRate (lit 0) = false -> plain_trade t -> not_negative s ->
  not_negative (positions_step feeRate s t).
Proof.
  intros Hfee [Hq Hp] [Hs1 Hs2]. unfold positions_step, not_negative.
  destruct (isBuyer t).
  - cbn [openQty openCost]. split.
    + apply plus_not_negative; assumption.
    + apply plus_not_negative; [assumption|].
      apply plus_not_negative; repeat apply times_not_negative; assumption.
  - destruct (lt (lit 0) (openQty s)).
    + cbn [openQty openCost]. split; apply clamp0_not_negative.
    + split; assumption.
Qed.

Lemma positions_fold_not_negative (feeRate : num) (trades : list (Trade num)) (s : OpenState num) :
  lt feeRate (lit 0) = false -> Forall plain_trade trades -> not_negative s ->
  Forall not_negative (states_from (positions_step feeRate) s trades) /\
  not_negative (fold_left (positions_step feeRate) trades s).
Proof.
  intros Hfee Htr. revert s. induction Htr as [|t rest Ht _ IH]; intros s Hs.
  - split; [constructor | exact Hs].
  - cbn [states_from fold_left].
    pose proof (positions_step_not_negative feeRate s t Hfee Ht Hs) as Hs'.
    destruct (IH _ Hs') as [Hall Hend]. split; [constructor; assumption | exact Hend].
Qed.

Lemma breakeven_step_agrees (feeRate : num) (s : OpenState num) (t : Trade num) :
  not_negative (breakeven_step feeRate s t) ->
  positions_step feeRate s t = breakeven_step feeRate s t.
Proof.
  unfold not_negative, breakeven_step, positions_step.
  destruct (isBuyer t); [reflexivity|].
  destruct (lt (lit 0) (openQty s)); [|reflexivity].
  cbn [openQty openCost]. intros [Hq Hc]. unfold clamp0. rewrite Hq, Hc. reflexivity.
Qed.

Lemma breakeven_fold_agrees (feeRate : num) (trades : list (Trade num)) (s : OpenState num) :
  Forall not_negative (states_from (breakeven_step feeRate) s trades) ->
  fold_left (positions_step feeRate) trades s = fold_left (breakeven_step feeRate) trades s.
Proof.
  revert s. induction trades as [|t rest IH]; intros s Hall; [reflexivity|].
  cbn [states_from] in Hall. inversion Hall as [|x l Hx Hl]; subst.
  cbn [fold_left]. rewrite (breakeven_step_agrees _ _ _ Hx). apply IH, Hl.
Qed.

End NotNegativeFacts.

(** The invariant of [/positions].  When the fee rate and the quantity
    and price of every trade are not negative, the running [openQty]
    and [openCost] are not negative after any trade of the history, nor
    at its end.  This holds in binary64 and in exact arithmetic. *)
Theorem positions_pass_never_negative
  (num : Type) (A : Arith num) (L : ArithLaws num) (S : SignLaws num)
  (feeRate : num) (trades : list (Trade num)) :
  lt feeRate (lit 0) = false ->
  Forall plain_trade trades ->
  Forall not_negative
    (states_from (positions_step feeRate) {| openQty := lit 0; openCost := lit 0 |} trades) /\
  not_negative (positions_pass feeRate trades).
Proof.
  intros Hfee Htr. apply positions_fold_not_negative; try assumption.
  split; apply lt_irrefl.
Qed.

Lemma positions_pass_never_negative_witness :
  Forall not_negative
    (states_from (positions_step Samples.fee) {| openQty := lit 0; openCost := lit 0 |}
       Samples.oversell) /\
  not_negative (positions_pass Samples.fee Samples.oversell).
Proof.
  apply (positions_pass_never_negative B64.num B64_Arith B64_ArithLaws B64_SignLaws).
  - vm_compute. reflexivity.
  - repeat constructor.
Defined.

(** [/breakeven/:symbol] and [/positions] agree on every history on
    which the running quantity and cost of [/breakeven/:symbol] never
    go negative: the two passes end in the same state, and the
    break-even price that [/breakeven/:symbol] reports is the
    [openCost / openQty] of [/positions], or 0 when nothing is open. *)
Theorem breakeven_agrees_while_not_negative
  (num : Type) (A : Arith num) (L : ArithLaws num)
  (feeRate : num) (trades : list (Trade num)) :
  Forall not_negative
    (states_from (breakeven_step feeRate) {| openQty := lit 0; openCost := lit 0 |} trades) ->
  breakeven_pass feeRate trades = positions_pass feeRate trades /\
  breakeven_values feeRate trades =
    (if lt (lit 0) (openQty (positions_pass feeRate trades))
     then divide (openCost (positions_pass feeRate trades))
                 (openQty (positions_pass feeRate trades))
     else lit 0,
     openQty (positions_pass feeRate trades)).
Proof.
  intros Hall.
  assert (E : breakeven_pass feeRate trades = positions_pass feeRate trades).
  { unfold breakeven_pass, positions_pass. symmetry. apply breakeven_fold_agrees, Hall. }
  split; [exact E|]. unfold breakeven_values. rewrite E. reflexivity.
Qed.

Lemma breakeven_agrees_while_not_negative_witness :
  breakeven_pass Samples.fee Samples.two_buys_one_sell =
    positions_pass Samples.fee Samples.two_buys_one_sell /\
  breakeven_values Samples.fee Samples.two_buys_one_sell =
    (if lt (lit 0) (openQty (positions_pass Samples.fee Samples.two_buys_one_sell))
     then divide (openCost (positions_pass Samples.fee Samples.two_buys_one_sell))
                 (openQty (positions_pass Samples.fee Samples.two_buys_one_sell))
     else lit 0,
     openQty (positions_pass Samples.fee Samples.two_buys_one_sell)).
Proof.
  apply (breakeven_agrees_while_not_negative B64.num B64_Arith B64_ArithLaws).
  repeat constructor.
Defined.

(** ** What the cached reads and the handlers change *)

Lemma touches_refl (keys : list string) (n : nat) (w : World) : Touches keys n w w.
Proof.
  split; try tauto; try lia. exists []. split; [reflexivity | simpl; lia].
Qed.

Lemma touches_trans (k1 k2 : list string) (n1 n2 : nat) (w1 w2 w3 : World) :
  Touches k1 n1 w1 w2 -> Touches k2 n2 w2 w3 -> Touches (k1 ++ k2) (n1 + n2) w1 w3.
Proof.
  intros [c1 (s1 & r1 & l1) i1 t1 p1 tk1 pk1] [c2 (s2 & r2 & l2) i2 t2 p2 tk2 pk2].
  split.
  - lia.
  - exists (s2 ++ s1)%list. split.
    + rewrite r2, r1, app_assoc. reflexivity.
    + rewrite length_app. lia.
  - congruence.
  - intros s Hs. rewrite t2, t1; [reflexivity| |]; intros Hin; apply Hs, in_or_app; tauto.
  - intros s Hs. rewrite p2, p1; [reflexivity| |]; intros Hin; apply Hs, in_or_app; tauto.
  - auto.
  - auto.
Qed.

Lemma touches_weaken (k k' : list string) (n n' : nat) (w w' : World) :
  Touches k n w w' -> incl k k' -> (n <= n')%nat -> Touches k' n' w w'.
Proof.
  intros [c (s & r & l) i t p tk pk] Hk Hn. split; auto.
  exists s. split; [exact r | lia].
Qed.

Lemma upper_is_ascii (a : ascii) :
  (nat_of_ascii a <? 128)%nat = true -> (nat_of_ascii (Server.upper a) <? 128)%nat = true.
Proof.
  intros Ha. unfold Server.upper.
  destruct ((97 <=? nat_of_ascii a) && (nat_of_ascii a <=? 122))%nat eqn:E; [|exact Ha].
  apply andb_true_iff in E. destruct E as [E1 E2].
  apply Nat.leb_le in E1, E2. apply Nat.ltb_lt.
  rewrite nat_ascii_embedding by lia. lia.
Qed.

Lemma upper_case_is_ascii (s : string) :
  ascii_text s = true -> ascii_text (Server.toUpperCase s) = true.
Proof.
  induction s as [|a s IH]; [reflexivity|].
  cbn [ascii_text Server.toUpperCase]. intros H.
  apply andb_true_iff in H. destruct H as [Ha Hs].
  rewrite (upper_is_ascii a Ha), (IH Hs). reflexivity.
Qed.

Section ReadsFrame.

Variable hmac_sha256_hex : string -> string -> string.
Variable API_KEY API_SECRET BINANCE_FEE : option string.
Variable exchange : Exchange.

Ltac run_cached :=
  unfold bind, get_world, Date_now, lift, await_get, ret,
    Server.signQuery, Server.createHmac_hex,
    set_cache_trades, set_cache_account, set_cache_prices, set_exchangeInfoCache;
  cbn beta iota zeta.

(** The four ways a read of the trade history ends. *)
Lemma trades_read_cases (sym : string) (w : World) :
  let read := Server.getTradesCached hmac_sha256_hex API_KEY API_SECRET exchange sym in
  (exists c, cache_trades w !! sym = Some c /\ read w = (Normal (data c), w)) \/
  (API_SECRET = None /\ read w = (Throw TypeError, w)) \/
  (exists url el e, read w = (Throw e, after_request url el w)) \/
  (exists url el d,
     read w = (Normal d,
               {| clock := clock w + Z.of_N el;
                  cache_account := cache_account w;
                  cache_trades := <[sym := {| data := d; ts := clock w + Z.of_N el |}]> (cache_trades w);
                  cache_prices := cache_prices w;
                  exchangeInfoCache := exchangeInfoCache w;
                  requests := url :: requests w |})).
Proof.
  unfold Server.getTradesCached. run_cached.
  destruct (cache_trades w !! sym) as [c|] eqn:Hc;
    [destruct (clock w - ts c <? Server.TRADES_TTL); [left; eauto|] |];
    (destruct API_SECRET as [secret|]; [| right; left; split; reflexivity]);
    match goal with
    | |- context [api_myTrades exchange ?u ?k ?t] =>
        destruct (api_myTrades exchange u k t) as [[r|e] el] eqn:Hr
    end; cbn [outcome elapsed];
    ((right; right; left; do 3 eexists; reflexivity) ||
     (right; right; right; do 3 eexists; reflexivity)).
Qed.

Lemma price_read_cases (sym : string) (w : World) :
  let read := Server.getPriceCached exchange sym in
  (exists c, cache_prices w !! sym = Some c /\ read w = (Normal (pe_price c), w)) \/
  (exists url el e, read w = (Throw e, after_request url el w)) \/
  (exists url el p,
     read w = (Normal p,
               {| clock := clock w + Z.of_N el;
                  cache_account := cache_account w;
                  cache_trades := cache_trades w;
                  cache_prices := <[sym := {| pe_price := p; pe_ts := clock w + Z.of_N el |}]> (cache_prices w);
                  exchangeInfoCache := exchangeInfoCache w;
                  requests := url :: requests w |})).
Proof.
  unfold Server.getPriceCached. run_cached.
  destruct (cache_prices w !! sym) as [c|] eqn:Hc;
    [destruct (clock w - pe_ts c <? Server.PRICE_TTL); [left; eauto|] |];
    match goal with
    | |- context [api_ticker_price exchange ?u ?t] =>
        destruct (api_ticker_price exchange u t) as [[r|e] el] eqn:Hr
    end; cbn [outcome elapsed];
    ((right; left; do 3 eexists; reflexivity) ||
     (right; right; do 3 eexists; reflexivity)).
Qed.

Lemma account_read_cases (w : World) :
  let read := Server.getAccountCached hmac_sha256_hex API_KEY API_SECRET exchange in
  (exists d, data (cache_account w) = Some d /\ read w = (Normal d, w)) \/
  (API_SECRET = None /\ read w = (Throw TypeError, w)) \/
  (exists url el e, read w = (Throw e, after_request url el w)) \/
  (exists url el d,
     read w = (Normal d,
               {| clock := clock w + Z.of_N el;
                  cache_account := {| data := Some d; ts := clock w + Z.of_N el |};
                  cache_trades := cache_trades w;
                  cache_prices := cache_prices w;
                  exchangeInfoCache := exchangeInfoCache w;
                  requests := url :: requests w |})).
Proof.
  unfold Server.getAccountCached. run_cached.
  destruct (data (cache_account w)) as [c|] eqn:Hc;
    [destruct (clock w - ts (cache_account w) <? Server.ACCOUNT_TTL); [left; eauto|] |];
    (destruct API_SECRET as [secret|]; [| right; left; split; reflexivity]);
    cbn beta iota zeta;
    match goal with
    | |- context [api_account exchange ?u ?k ?t] =>
        destruct (api_account exchange u k t) as [[r|e] el] eqn:Hr
    end; cbn [outcome elapsed];
    ((right; right; left; do 3 eexists; reflexivity) ||
     (right; right; right; do 3 eexists; reflexivity)).
Qed.

Lemma after_request_touches (url : string) (el : N) (w : World) :
  Touches [] 1 w (after_request url el w).
Proof.
  split; simpl; try tauto; try lia. exists [url]. split; [reflexivity | simpl; lia].
Qed.

Lemma trades_read_touches (sym : string) (w : World) :
  Touches [sym] 1 w (snd (Server.getTradesCached hmac_sha256_hex API_KEY API_SECRET exchange sym w)).
Proof.
  destruct (trades_read_cases sym w)
    as [(c & _ & ->) | [(_ & ->) | [(url & el & e & ->) | (url & el & d & ->)]]];
    cbn [snd].
  - apply touches_refl.
  - apply touches_refl.
  - eapply touches_weaken; [apply after_request_touches | intros x [] | lia].
  - split; cbn [clock requests exchangeInfoCache cache_trades cache_prices]; try tauto; try lia.
    + exists [url]. split; [reflexivity | simpl; lia].
    + intros s Hs. apply lookup_insert_ne. intros ->. apply Hs. left. reflexivity.
    + intros s Hs. destruct (decide (sym = s)) as [<-|Hne].
      * rewrite lookup_insert_eq. eauto.
      * rewrite lookup_insert_ne by exact Hne. exact Hs.
Qed.

Lemma price_read_touches (sym : string) (w : World) :
  Touches [sym] 1 w (snd (Server.getPriceCached exchange sym w)).
Proof.
  destruct (price_read_cases sym w)
    as [(c & _ & ->) | [(url & el & e & ->) | (url & el & d & ->)]];
    cbn [snd].
  - apply touches_refl.
  - eapply touches_weaken; [apply after_request_touches | intros x [] | lia].
  - split; cbn [clock requests exchangeInfoCache cache_trades cache_prices]; try tauto; try lia.
    + exists [url]. split; [reflexivity | simpl; lia].
    + intros s Hs. apply lookup_insert_ne. intros ->. apply Hs. left. reflexivity.
    + intros s Hs. destruct (decide (sym = s)) as [<-|Hne].
      * rewrite lookup_insert_eq. eauto.
      * rewrite lookup_insert_ne by exact Hne. exact Hs.
Qed.

Lemma account_read_touches (w : World) :
  Touches [] 1 w (snd (Server.getAccountCached hmac_sha256_hex API_KEY API_SECRET exchange w)).
Proof.
  destruct (account_read_cases w)
    as [(c & _ & ->) | [(_ & ->) | [(url & el & e & ->) | (url & el & d & ->)]]];
    cbn [snd].
  - apply touches_refl.
  - apply touches_refl.
  - apply after_request_touches.
  - split; cbn [clock requests exchangeInfoCache cache_trades cache_prices]; try tauto; try lia.
    exists [url]. split; [reflexivity | simpl; lia].
Qed.


Lemma resolve_symbol_returns (cands : list string) (st : Server.Resolved) (w : World) :
  exists st' w',
    Server.resolve_symbol hmac_sha256_hex API_KEY API_SECRET exchange cands st w = (Normal st', w') /\
    Touches cands (2 * List.length cands) w w' /\
    (Server.r_symbol st' = Server.r_symbol st \/
     exists s, In s cands /\ Server.r_symbol st' = Some s).
Proof.
  revert st w. induction cands as [|s rest IH]; intros st w.
  - exists st, w. split; [reflexivity|]. split; [apply touches_refl | left; reflexivity].
  - cbn [Server.resolve_symbol].
    pose proof (trades_read_touches s w) as Ht.
    destruct (Server.getTradesCached hmac_sha256_hex API_KEY API_SECRET exchange s w)
      as [[t|e] w1]; cbn [snd] in Ht.
    + destruct t as [|t0 t].
      * destruct (IH st w1) as (st' & w' & Hr & Hto & Hs).
        exists st', w'. split; [exact Hr|]. split.
        -- eapply touches_weaken; [exact (touches_trans _ _ _ _ _ _ _ Ht Hto) | | simpl; lia].
           intros x Hx; simpl in Hx |- *; tauto.
        -- destruct Hs as [Hs | (s' & Hin & Hs)]; [left; exact Hs | right; exists s'; split; [right; exact Hin | exact Hs]].
      * pose proof (price_read_touches s w1) as Hp.
        destruct (Server.getPriceCached exchange s w1) as [[p|e] w2]; cbn [snd] in Hp.
        -- eexists _, w2. split; [reflexivity|]. split.
           ++ eapply touches_weaken; [exact (touches_trans _ _ _ _ _ _ _ Ht Hp) | | simpl; lia].
              intros x Hx; simpl in Hx |- *; tauto.
           ++ right. exists s. split; [left; reflexivity | reflexivity].
        -- destruct (IH {| Server.r_symbol := Some s; Server.r_trades := Some (t0 :: t);
                           Server.r_price := Server.r_price st |} w2) as (st' & w' & Hr & Hto & Hs).
           exists st', w'. split; [exact Hr|]. split.
           ++ eapply touches_weaken;
                [exact (touches_trans _ _ _ _ _ _ _ (touches_trans _ _ _ _ _ _ _ Ht Hp) Hto) | | simpl; lia].
              intros x Hx; simpl in Hx |- *; tauto.
           ++ right. destruct Hs as [Hs | (s' & Hin & Hs)];
                [exists s; split; [left; reflexivity | exact Hs]
                | exists s'; split; [right; exact Hin | exact Hs]].
    + destruct (IH st w1) as (st' & w' & Hr & Hto & Hs).
      exists st', w'. split; [exact Hr|]. split.
      * eapply touches_weaken; [exact (touches_trans _ _ _ _ _ _ _ Ht Hto) | | simpl; lia].
        intros x Hx; simpl in Hx |- *; tauto.
      * destruct Hs as [Hs | (s' & Hin & Hs)]; [left; exact Hs | right; exists s'; split; [right; exact Hin | exact Hs]].
Qed.

Lemma position_of_asset_returns (a : string) (w : World) :
  exists ps w',
    Server.position_of_asset hmac_sha256_hex API_KEY API_SECRET BINANCE_FEE exchange a w =
      (Normal ps, w') /\
    Touches (candidates a) 6 w w' /\
    (ps = [] \/ exists p, ps = [p] /\ In (Server.pos_symbol p) (candidates a)).
Proof.
  unfold Server.position_of_asset, bind.
  destruct (resolve_symbol_returns (candidates a)
              {| Server.r_symbol := None; Server.r_trades := None; Server.r_price := None |} w)
    as (st & w' & Hr & Hto & Hs).
  unfold candidates in Hr. rewrite Hr.
  destruct (Server.r_symbol st) as [sym|] eqn:Hsym;
    [destruct (Server.r_trades st) as [trades|];
       [destruct (Server.r_price st) as [p|];
          [destruct (position_values _ _ _) as [v|] |] |] |];
    eexists _, w'; (split; [reflexivity|]); (split; [exact Hto|]);
    try (left; reflexivity).
  right. eexists. split; [reflexivity|]. cbn [Server.render_position Server.pos_symbol].
  destruct Hs as [Hs | (s & Hin & Hs)]; [discriminate|]. injection Hs as <-. exact Hin.
Qed.

Lemma positions_of_assets_returns (assets : list (string * B64.num)) (w : World) :
  exists ps w',
    Server.positions_of_assets hmac_sha256_hex API_KEY API_SECRET BINANCE_FEE exchange assets w =
      (Normal ps, w') /\
    Touches (flat_map candidates (map fst assets)) (6 * List.length assets) w w' /\
    (List.length ps <= List.length assets)%nat /\
    Forall (fun p => exists a, In a (map fst assets) /\ In (Server.pos_symbol p) (candidates a)) ps /\
    exists pss,
      ps = concat pss /\
      Forall2 (fun a l => l = [] \/
                          exists p, l = [p] /\ In (Server.pos_symbol p) (candidates (fst a)))
              assets pss.
Proof.
  revert w. induction assets as [|a rest IH]; intros w.
  - exists [], w. split; [reflexivity|]. split; [apply touches_refl|].
    split; [simpl; lia|]. split; [constructor|].
    exists []. split; [reflexivity | constructor].
  - cbn [Server.positions_of_assets]. unfold bind.
    destruct (position_of_asset_returns (fst a) w) as (ps & w1 & Hp & Hto1 & Hps).
    rewrite Hp.
    destruct (IH w1) as (qs & w2 & Hq & Hto2 & Hlen & Hall & pss & Hcat & Hpss).
    rewrite Hq. exists (ps ++ qs)%list, w2. split; [reflexivity|]. split; [|split; [|split]].
    + eapply touches_weaken; [exact (touches_trans _ _ _ _ _ _ _ Hto1 Hto2) | | simpl; lia].
      cbn [map flat_map]. apply incl_refl.
    + rewrite length_app. destruct Hps as [-> | (p & -> & _)]; simpl; lia.
    + apply Forall_app. split.
      * destruct Hps as [-> | (p & -> & Hin)]; [constructor|].
        constructor; [|constructor]. exists (fst a). split; [left; reflexivity | exact Hin].
      * eapply Forall_impl; [exact Hall|]. intros p (b & Hb & Hin).
        exists b. split; [right; exact Hb | exact Hin].
    + exists (ps :: pss). split; [rewrite Hcat; reflexivity|].
      constructor; [exact Hps | exact Hpss].
Qed.

(** The three ways a read of the exchange information ends. *)
Lemma info_read_cases (w : World) :
  let read := Server.getExchangeInfo exchange in
  (exists d, data (exchangeInfoCache w) = Some d /\ read w = (Normal d, w)) \/
  (exists url el e, read w = (Throw e, after_request url el w)) \/
  (exists url el d,
     read w = (Normal d,
               {| clock := clock w + Z.of_N el;
                  cache_account := cache_account w;
                  cache_trades := cache_trades w;
                  cache_prices := cache_prices w;
                  exchangeInfoCache := {| data := Some d; ts := clock w + Z.of_N el |};
                  requests := url :: requests w |})).
Proof.
  unfold Server.getExchangeInfo. run_cached.
  destruct (data (exchangeInfoCache w)) as [c|] eqn:Hc;
    [destruct (clock w - ts (exchangeInfoCache w) <? Server.EXCHANGE_INFO_TTL); [left; eauto|] |];
    match goal with
    | |- context [api_exchangeInfo exchange ?u ?t] =>
        destruct (api_exchangeInfo exchange u t) as [[r|e] el] eqn:Hr
    end; cbn [outcome elapsed];
    ((right; left; do 3 eexists; reflexivity) ||
     (right; right; do 3 eexists; reflexivity)).
Qed.

Lemma held_assets_are_held (acct : Account) (a : string) :
  In a (map fst (Server.held_assets acct)) ->
  Server.is_quote_asset a = false /\
  exists b, In b (balances acct) /\ asset b = a /\
            B64.ltb (B64.of_Z 0) (B64.add (JsValue.parseFloat (free b))
                                          (JsValue.parseFloat (locked b))) = true.
Proof.
  intros Hin. apply in_map_iff in Hin. destruct Hin as ([a' q] & <- & Hin).
  unfold Server.held_assets in Hin. apply filter_In in Hin. destruct Hin as [Hin Hok].
  apply in_map_iff in Hin. destruct Hin as (b & [= <- <-] & Hb).
  cbn [fst snd] in *. apply andb_true_iff in Hok. destruct Hok as [Hpos Hq].
  apply negb_true_iff in Hq. split; [exact Hq|]. exists b. auto.
Qed.

(** [/positions] answers with an error only when the account cannot
    be read, and then with that error.  Otherwise it answers with a
    list, whatever the requests for trades and prices do.  The list
    goes through the assets held in their order, and has for each of
    them nothing or one position, for one of the three pairs of that
    asset; an asset held is an asset of the account that is no quote
    currency and has a positive balance. *)
Theorem positions_fails_only_with_the_account (w : World) :
  match Server.getAccountCached hmac_sha256_hex API_KEY API_SECRET exchange w with
  | (Throw e, w1) =>
      Server.get_positions hmac_sha256_hex API_KEY API_SECRET BINANCE_FEE exchange w =
        (Server.Status500 e, w1)
  | (Normal acct, w1) =>
      exists pss w2,
        Server.get_positions hmac_sha256_hex API_KEY API_SECRET BINANCE_FEE exchange w =
          (Server.Json (concat pss), w2) /\
        Forall2 (fun a ps =>
                   ps = [] \/
                   exists p, ps = [p] /\ In (Server.pos_symbol p) (candidates (fst a)))
                (Server.held_assets acct) pss /\
        Forall (fun a =>
                  Server.is_quote_asset (fst a) = false /\
                  exists b, In b (balances acct) /\ asset b = fst a /\
                            B64.ltb (B64.of_Z 0)
                              (B64.add (JsValue.parseFloat (free b))
                                       (JsValue.parseFloat (locked b))) = true)
               (Server.held_assets acct) /\
        (List.length (concat pss) <= List.length (Server.held_assets acct))%nat /\
        Forall (fun p =>
                  exists b, In b (balances acct) /\
                            In (Server.pos_symbol p) (candidates (asset b)) /\
                            Server.is_quote_asset (asset b) = false /\
                            B64.ltb (B64.of_Z 0)
                              (B64.add (JsValue.parseFloat (free b))
                                       (JsValue.parseFloat (locked b))) = true) (concat pss)
  end.
Proof.
  unfold Server.get_positions, Server.respond, bind.
  destruct (Server.getAccountCached hmac_sha256_hex API_KEY API_SECRET exchange w)
    as [[acct|e] w1]; [|reflexivity].
  destruct (positions_of_assets_returns (Server.held_assets acct) w1)
    as (ps & w2 & Hp & _ & Hlen & Hall & pss & -> & Hpss).
  rewrite Hp. exists pss, w2. split; [reflexivity|]. split; [exact Hpss|].
  split; [|split; [exact Hlen|]].
  - apply List.Forall_forall. intros a Ha.
    apply (held_assets_are_held acct (fst a)), in_map, Ha.
  - eapply Forall_impl; [exact Hall|]. intros p (a & Ha & Hin).
    destruct (held_assets_are_held acct a Ha) as (Hq & b & Hb & <- & Hpos).
    exists b. auto.
Qed.

(** The requests of [/positions]: one for the account at most, then
    at most six for each asset held (a trade history and a price for
    each of its three pairs).  The handler leaves the exchange
    information alone, removes nothing from the cache, and changes the
    cached trade lists and prices of those pairs only. *)
Theorem positions_request_budget (w : World) :
  let assets :=
    match fst (Server.getAccountCached hmac_sha256_hex API_KEY API_SECRET exchange w) with
    | Normal acct => map fst (Server.held_assets acct)
    | Throw _ => []
    end in
  Touches (flat_map candidates assets) (1 + 6 * List.length assets) w
          (snd (Server.get_positions hmac_sha256_hex API_KEY API_SECRET BINANCE_FEE exchange w)).
Proof.
  unfold Server.get_positions, Server.respond, bind.
  pose proof (account_read_touches w) as Ha.
  destruct (Server.getAccountCached hmac_sha256_hex API_KEY API_SECRET exchange w)
    as [[acct|e] w1]; cbn [fst snd] in *.
  - destruct (positions_of_assets_returns (Server.held_assets acct) w1)
      as (ps & w2 & Hp & Hto & _).
    rewrite Hp. cbn [snd]. rewrite length_map.
    exact (touches_trans _ _ _ _ _ _ _ Ha Hto).
  - eapply touches_weaken; [exact Ha | apply incl_refl | simpl; lia].
Qed.

(** Each cached read sends one request at most and changes nothing but
    its own entry: a read of the trades or of the price of a symbol
    leaves the entries of every other symbol, the account and the
    exchange information as they were, and no read removes an entry. *)
Theorem cached_reads_touch_only_their_entry (sym : string) (w : World) :
  (let w' := snd (Server.getTradesCached hmac_sha256_hex API_KEY API_SECRET exchange sym w) in
   Touches [sym] 1 w w' /\ cache_prices w' = cache_prices w /\
   cache_account w' = cache_account w) /\
  (let w' := snd (Server.getPriceCached exchange sym w) in
   Touches [sym] 1 w w' /\ cache_trades w' = cache_trades w /\
   cache_account w' = cache_account w) /\
  (let w' := snd (Server.getAccountCached hmac_sha256_hex API_KEY API_SECRET exchange w) in
   Touches [] 1 w w' /\ cache_trades w' = cache_trades w /\
   cache_prices w' = cache_prices w) /\
  (let w' := snd (Server.getExchangeInfo exchange w) in
   (requests w' = requests w \/ exists url, requests w' = url :: requests w) /\
   clock w <= clock w' /\
   cache_trades w' = cache_trades w /\ cache_prices w' = cache_prices w /\
   cache_account w' = cache_account w).
Proof.
  split; [|split; [|split]]; cbn zeta.
  - split; [apply trades_read_touches|].
    destruct (trades_read_cases sym w)
      as [(c & _ & ->) | [(_ & ->) | [(url & el & e & ->) | (url & el & d & ->)]]];
      split; reflexivity.
  - split; [apply price_read_touches|].
    destruct (price_read_cases sym w)
      as [(c & _ & ->) | [(url & el & e & ->) | (url & el & d & ->)]];
      split; reflexivity.
  - split; [apply account_read_touches|].
    destruct (account_read_cases w)
      as [(c & _ & ->) | [(_ & ->) | [(url & el & e & ->) | (url & el & d & ->)]]];
      split; reflexivity.
  - destruct (info_read_cases w)
      as [(c & _ & ->) | [(url & el & e & ->) | (url & el & d & ->)]];
      cbn [snd after_request clock requests cache_trades cache_prices cache_account];
      (split; [first [left; reflexivity | right; eexists; reflexivity]|]);
      (split; [lia|]); repeat split.
Qed.

(** [/breakeven/:symbol], for a symbol written in ASCII, reads one
    trade history, that of the symbol in upper case, which is ASCII
    again: it sends one request at most and leaves the world as that
    read leaves it.  It answers with an error exactly when the read
    fails, with the error of the read; a symbol without any trade is no
    error, the answer is zero three times.  (Outside ASCII the key is
    what the Unicode case mapping makes of the symbol, which
    [Server.toUpperCase] does not give.) *)
Theorem breakeven_endpoint_reads_one_history (param : string) (w : World) :
  ascii_text param = true ->
  let read :=
    Server.getTradesCached hmac_sha256_hex API_KEY API_SECRET exchange
      (Server.toUpperCase param) w in
  let reply := Server.get_breakeven hmac_sha256_hex API_KEY API_SECRET BINANCE_FEE exchange param w in
  ascii_text (Server.toUpperCase param) = true /\
  snd reply = snd read /\
  Touches [Server.toUpperCase param] 1 w (snd reply) /\
  match fst read with
  | Throw e => fst reply = Server.Status500 e
  | Normal [] =>
      fst reply =
      Server.Json {| Server.be_breakEven := "0.00000000";
                     Server.be_averagePrice := "0.00000000";
                     Server.be_totalQuantity := "0.00000000" |}%string
  | Normal trades =>
      exists be q,
        breakeven_values (Server.FEE_RATE BINANCE_FEE) (map Server.parse_trade trades) = (be, q) /\
        fst reply =
        Server.Json {| Server.be_breakEven := B64.toFixed_digits be 8;
                       Server.be_averagePrice := B64.toFixed_digits be 8;
                       Server.be_totalQuantity := B64.toFixed_digits q 8 |}
  end.
Proof.
  intros Hascii. cbn zeta. split; [exact (upper_case_is_ascii param Hascii)|].
  unfold Server.get_breakeven, Server.respond, bind.
  pose proof (trades_read_touches (Server.toUpperCase param) w) as Ht.
  destruct (Server.getTradesCached hmac_sha256_hex API_KEY API_SECRET exchange
              (Server.toUpperCase param) w) as [[trades|e] w1]; cbn [fst snd] in *.
  - destruct trades as [|t0 trades].
    + split; [reflexivity|]. split; [exact Ht|]. reflexivity.
    + destruct (breakeven_values _ _) as [be q] eqn:E. cbn [fst snd].
      split; [reflexivity|]. split; [exact Ht|]. exists be, q. auto.
  - auto.
Qed.

End ReadsFrame.

Lemma breakeven_endpoint_reads_one_history_witness :
  snd (Server.get_breakeven SampleExchange.digest (Some "key"%string) (Some "s3cret"%string)
         None SampleExchange.exchange "btcusdt"%string (initial_world 1700000000000)) =
  snd (Server.getTradesCached SampleExchange.digest (Some "key"%string)
         (Some "s3cret"%string) SampleExchange.exchange "BTCUSDT"%string
         (initial_world 1700000000000)).
Proof.
  exact (proj1 (proj2 (breakeven_endpoint_reads_one_history SampleExchange.digest
                         (Some "key"%string) (Some "s3cret"%string) None
                         SampleExchange.exchange "btcusdt"%string
                         (initial_world 1700000000000) eq_refl))).
Defined.

(** ** When the price endpoint is down *)

Section PricesDown.

Variable hmac_sha256_hex : string -> string -> string.
Variable API_KEY API_SECRET BINANCE_FEE : option string.
Variable exchange : Exchange.

Hypothesis prices_down : forall url t,
  exists e, outcome (api_ticker_price exchange url t) = Throw e.

Lemma no_fresh_price_later (w w' : World) :
  no_fresh_price w -> cache_prices w' = cache_prices w -> clock w <= clock w' ->
  no_fresh_price w'.
Proof.
  intros Hw Hp Hc s c Hs. rewrite Hp in Hs. specialize (Hw s c Hs). lia.
Qed.

Lemma trades_read_keeps_prices (s : string) (w : World) :
  no_fresh_price w ->
  no_fresh_price (snd (Server.getTradesCached hmac_sha256_hex API_KEY API_SECRET exchange s w)).
Proof.
  intros Hw.
  destruct (trades_read_cases hmac_sha256_hex API_KEY API_SECRET exchange s w)
    as [(c & _ & ->) | [(_ & ->) | [(url & el & e & ->) | (url & el & d & ->)]]];
    cbn [snd]; try exact Hw;
    (eapply no_fresh_price_later; [exact Hw | reflexivity | simpl; lia]).
Qed.

Lemma account_read_keeps_prices (w : World) :
  no_fresh_price w ->
  no_fresh_price (snd (Server.getAccountCached hmac_sha256_hex API_KEY API_SECRET exchange w)).
Proof.
  intros Hw.
  destruct (account_read_cases hmac_sha256_hex API_KEY API_SECRET exchange w)
    as [(c & _ & ->) | [(_ & ->) | [(url & el & e & ->) | (url & el & d & ->)]]];
    cbn [snd]; try exact Hw;
    (eapply no_fresh_price_later; [exact Hw | reflexivity | simpl; lia]).
Qed.

Lemma price_read_down (s : string) (w : World) :
  no_fresh_price w ->
  exists e w', Server.getPriceCached exchange s w = (Throw e, w') /\ no_fresh_price w'.
Proof.
  intros Hw. unfold Server.getPriceCached, bind, get_world, Date_now, await_get, ret.
  cbn beta iota zeta.
  destruct (cache_prices w !! s) as [c|] eqn:Hc.
  - pose proof (Hw s c Hc) as Hge. apply Z.ltb_ge in Hge. rewrite Hge.
    destruct (prices_down (Server.BASE +:+ "/api/v3/ticker/price?symbol=" +:+ s) (clock w)) as [e He].
    rewrite He. eexists _, _. split; [reflexivity|].
    eapply no_fresh_price_later; [exact Hw | reflexivity | simpl; lia].
  - destruct (prices_down (Server.BASE +:+ "/api/v3/ticker/price?symbol=" +:+ s) (clock w)) as [e He].
    rewrite He. eexists _, _. split; [reflexivity|].
    eapply no_fresh_price_later; [exact Hw | reflexivity | simpl; lia].
Qed.


Lemma resolve_without_prices (cands : list string) (st : Server.Resolved) (w : World) :
  no_fresh_price w ->
  exists st' w',
    Server.resolve_symbol hmac_sha256_hex API_KEY API_SECRET exchange cands st w = (Normal st', w') /\
    Server.r_price st' = Server.r_price st /\ no_fresh_price w'.
Proof.
  revert st w. induction cands as [|s rest IH]; intros st w Hw.
  - exists st, w. auto.
  - cbn [Server.resolve_symbol].
    pose proof (trades_read_keeps_prices s w Hw) as Hw1.
    destruct (Server.getTradesCached hmac_sha256_hex API_KEY API_SECRET exchange s w)
      as [[[|t0 t]|e] w1]; cbn [snd] in Hw1; try (apply IH; exact Hw1).
    destruct (price_read_down s w1 Hw1) as (e & w2 & -> & Hw2).
    destruct (IH {| Server.r_symbol := Some s; Server.r_trades := Some (t0 :: t);
                    Server.r_price := Server.r_price st |} w2 Hw2) as (st' & w' & Hr & Hp & Hw').
    exists st', w'. auto.
Qed.

Lemma asset_without_prices (a : string) (w : World) :
  no_fresh_price w ->
  exists w',
    Server.position_of_asset hmac_sha256_hex API_KEY API_SECRET BINANCE_FEE exchange a w =
      (Normal [], w') /\ no_fresh_price w'.
Proof.
  intros Hw. unfold Server.position_of_asset, bind.
  destruct (resolve_without_prices
              [(a ++ "USDT")%string; (a ++ "USDC")%string; (a ++ "USD")%string]
              {| Server.r_symbol := None; Server.r_trades := None; Server.r_price := None |} w Hw)
    as (st & w' & -> & Hp & Hw').
  exists w'. split; [|exact Hw']. cbn [Server.r_price] in Hp. rewrite Hp.
  destruct (Server.r_symbol st); [destruct (Server.r_trades st)|]; reflexivity.
Qed.

Lemma assets_without_prices (assets : list (string * B64.num)) (w : World) :
  no_fresh_price w ->
  fst (Server.positions_of_assets hmac_sha256_hex API_KEY API_SECRET BINANCE_FEE exchange assets w) =
    Normal [].
Proof.
  revert w. induction assets as [|a rest IH]; intros w Hw; [reflexivity|].
  cbn [Server.positions_of_assets]. unfold bind.
  destruct (asset_without_prices (fst a) w Hw) as (w1 & -> & Hw1).
  specialize (IH w1 Hw1).
  destruct (Server.positions_of_assets _ _ _ _ _ rest w1) as [[qs|e] w2];
    cbn [fst] in IH; [|discriminate]. injection IH as ->. reflexivity.
Qed.

(** With the price endpoint down and no fresh price in the cache,
    [/positions] reports no failure: once the account is read, it
    answers with the empty list, whatever is held and whatever was
    traded. *)
Theorem positions_empty_when_prices_fail (w : World) :
  no_fresh_price w ->
  match fst (Server.getAccountCached hmac_sha256_hex API_KEY API_SECRET exchange w) with
  | Normal _ =>
      fst (Server.get_positions hmac_sha256_hex API_KEY API_SECRET BINANCE_FEE exchange w) =
        Server.Json []
  | Throw e =>
      fst (Server.get_positions hmac_sha256_hex API_KEY API_SECRET BINANCE_FEE exchange w) =
        Server.Status500 e
  end.
Proof.
  intros Hw. unfold Server.get_positions, Server.respond, bind.
  pose proof (account_read_keeps_prices w Hw) as Hw1.
  destruct (Server.getAccountCached hmac_sha256_hex API_KEY API_SECRET exchange w)
    as [[acct|e] w1]; cbn [fst snd] in *; [|reflexivity].
  pose proof (assets_without_prices (Server.held_assets acct) w1 Hw1) as Hps.
  destruct (Server.positions_of_assets _ _ _ _ _ _ w1) as [[ps|e] w2];
    cbn [fst] in *; [|discriminate]. injection Hps as ->. reflexivity.
Qed.

End PricesDown.

Lemma positions_empty_when_prices_fail_witness :
  fst (Server.get_positions SampleExchange.digest (Some "key"%string) (Some "s3cret"%string)
         None exchange_without_prices (initial_world 1700000000000)) = Server.Json [].
Proof.
  refine (positions_empty_when_prices_fail SampleExchange.digest (Some "key"%string)
            (Some "s3cret"%string) None exchange_without_prices _
            (initial_world 1700000000000) _).
  - intros url t. exists (RequestFailed 503). reflexivity.
  - intros s c Hc. simpl in Hc. rewrite lookup_empty in Hc. discriminate.
Defined.

(** ** Without a secret *)

(** With no secret configured, a handler that has to ask the exchange
    for the account or for a trade history answers with the
    [TypeError] of [crypto.createHmac] before anything is sent: the
    world, the log of requests included, stays as it was. *)
Theorem signed_reads_need_the_secret
  (hmac_sha256_hex : string -> string -> string)
  (API_KEY BINANCE_FEE : option string) (exchange : Exchange) (param : string) (w : World) :
  stale CacheReads.stored_account Server.ACCOUNT_TTL w ->
  stale (CacheReads.stored_trades (Server.toUpperCase param)) Server.TRADES_TTL w ->
  Server.get_positions hmac_sha256_hex API_KEY None BINANCE_FEE exchange w =
    (Server.Status500 TypeError, w) /\
  Server.get_breakeven hmac_sha256_hex API_KEY None BINANCE_FEE exchange param w =
    (Server.Status500 TypeError, w).
Proof.
  intros Ha Ht. split.
  - unfold Server.get_positions, Server.respond, bind at 1.
    assert (E : Server.getAccountCached hmac_sha256_hex API_KEY None exchange w = (Throw TypeError, w)).
    { unfold Server.getAccountCached, bind, get_world, Date_now, lift, ret,
        Server.signQuery, Server.createHmac_hex. cbn beta iota zeta.
      destruct Ha as [Hs | (c & Hs & Hge)]; unfold CacheReads.stored_account in Hs;
        destruct (data (cache_account w)); try discriminate; [reflexivity|].
      injection Hs as <-. cbn [ts] in Hge. apply Z.ltb_ge in Hge. rewrite Hge. reflexivity. }
    rewrite E. reflexivity.
  - unfold Server.get_breakeven, Server.respond, bind at 1.
    assert (E : Server.getTradesCached hmac_sha256_hex API_KEY None exchange
                  (Server.toUpperCase param) w = (Throw TypeError, w)).
    { unfold Server.getTradesCached, bind, get_world, Date_now, lift, ret,
        Server.createHmac_hex. cbn beta iota zeta.
      destruct Ht as [Hs | (c & Hs & Hge)]; unfold CacheReads.stored_trades in Hs;
        rewrite Hs; [reflexivity|].
      apply Z.ltb_ge in Hge. rewrite Hge. reflexivity. }
    rewrite E. reflexivity.
Qed.

Lemma signed_reads_need_the_secret_witness :
  Server.get_positions SampleExchange.digest (Some "key"%string) None None
    SampleExchange.exchange (initial_world 1700000000000) =
    (Server.Status500 TypeError, initial_world 1700000000000) /\
  Server.get_breakeven SampleExchange.digest (Some "key"%string) None None
    SampleExchange.exchange "btcusdt" (initial_world 1700000000000) =
    (Server.Status500 TypeError, initial_world 1700000000000).
Proof.
  apply (signed_reads_need_the_secret SampleExchange.digest (Some "key"%string) None
           SampleExchange.exchange "btcusdt"%string (initial_world 1700000000000)).
  - left. reflexivity.
  - left. reflexivity.
Defined.

(** ** Digit counts *)

Module DecimalsFacts.

Lemma countDecimals_total (x : B64.num) :
  exists d, Legacy.countDecimals x = Some d /\ 0 <= d.
Proof.
  destruct x as [s|s| |s m e].
  - exists 0. split; [reflexivity | lia].
  - exists 0. split; [destruct s; reflexivity | lia].
  - exists 0. split; [reflexivity | lia].
  - exists (Digits.fraction_length
              (JsString.digits_of_N (Z.to_N (fst (B64.shortest m e))))
              (snd (B64.shortest m e))). split.
    + rewrite CountDecimals.countDecimals_count.
      cbn [B64.toString]. destruct (B64.shortest m e) as [d n]. cbn [fst snd].
      apply CountDecimals.count_format.
      * destruct s; reflexivity.
      * apply StringFacts.all_digits_of_N.
      * apply CountDecimals.length_digits_of_N.
    + unfold Digits.fraction_length. lia.
Qed.

End DecimalsFacts.

(** [countDecimals] returns a count for every Number, never [NaN] and
    never a negative one, so [roundPrice] and [adjustQtyForLotSize]
    fail in one case only: with the [RangeError] of [toFixed], when the
    tick or step size has more than 100 decimals, as [1e-101] has.
    Whether they fail does not depend on the price or the quantity. *)
Theorem rounding_fails_only_beyond_100_decimals :
  (forall x : B64.num, exists d, Legacy.countDecimals x = Some d /\ 0 <= d) /\
  (forall (price tickSize : B64.num) (d : Z),
      Legacy.countDecimals tickSize = Some d ->
      Legacy.roundPrice price tickSize =
        if 100 <? d then Throw RangeError
        else Normal (B64.toFixed_digits
                       (B64.mul (B64.floor (B64.div price tickSize)) tickSize) (Z.to_nat d))) /\
  (forall (qty stepSize minQty : B64.num) (d : Z),
      Legacy.countDecimals stepSize = Some d ->
      Legacy.adjustQtyForLotSize qty stepSize minQty =
        if 100 <? d then Throw RangeError
        else Normal (B64.toFixed_digits
                       (if B64.ltb (B64.mul (B64.floor (B64.div qty stepSize)) stepSize) minQty
                        then minQty
                        else B64.mul (B64.floor (B64.div qty stepSize)) stepSize)
                       (Z.to_nat d))) /\
  Legacy.countDecimals (B64.of_decimal 1 (-101)) = Some 101 /\
  Legacy.roundPrice (B64.of_Z 1) (B64.of_decimal 1 (-101)) = Throw RangeError.
Proof.
  split; [exact DecimalsFacts.countDecimals_total|].
  split; [|split; [|vm_compute; split; reflexivity]].
  - intros price tickSize d Hd.
    destruct (DecimalsFacts.countDecimals_total tickSize) as (d' & Hd' & Hpos).
    assert (d' = d) by congruence. subst d'.
    unfold Legacy.roundPrice. rewrite Hd. cbn [Legacy.fraction_digits B64.toFixed].
    replace (d <? 0) with false by (symmetry; apply Z.ltb_ge; lia). reflexivity.
  - intros qty stepSize minQty d Hd.
    destruct (DecimalsFacts.countDecimals_total stepSize) as (d' & Hd' & Hpos).
    assert (d' = d) by congruence. subst d'.
    unfold Legacy.adjustQtyForLotSize. rewrite Hd. cbn [Legacy.fraction_digits B64.toFixed].
    replace (d <? 0) with false by (symmetry; apply Z.ltb_ge; lia). reflexivity.
Qed.

(** ** An unreadable quantity *)

Module NanFacts.

Lemma step_keeps_nan (feeRate : B64.num) (s : OpenState B64.num) (t : Trade B64.num) :
  openQty s = B64.nan -> openQty (positions_step feeRate s t) = B64.nan.
Proof.
  intros Hs. unfold positions_step. destruct (isBuyer t).
  - cbn [openQty plus B64_Arith]. rewrite Hs. reflexivity.
  - rewrite Hs at 1. change (lt (lit 0) B64.nan) with false. cbn iota. exact Hs.
Qed.

Lemma fold_keeps_nan (feeRate : B64.num) (trades : list (Trade B64.num)) (s : OpenState B64.num) :
  openQty s = B64.nan -> openQty (fold_left (positions_step feeRate) trades s) = B64.nan.
Proof.
  revert s. induction trades as [|t rest IH]; intros s Hs; [exact Hs|].
  cbn [fold_left]. apply IH, step_keeps_nan, Hs.
Qed.

Lemma breakeven_step_keeps_nan (feeRate : B64.num) (s : OpenState B64.num) (t : Trade B64.num) :
  openQty s = B64.nan -> openQty (breakeven_step feeRate s t) = B64.nan.
Proof.
  intros Hs. unfold breakeven_step. destruct (isBuyer t).
  - cbn [openQty plus B64_Arith]. rewrite Hs. reflexivity.
  - rewrite Hs at 1. change (lt (lit 0) B64.nan) with false. cbn iota. exact Hs.
Qed.

Lemma breakeven_fold_keeps_nan (feeRate : B64.num) (trades : list (Trade B64.num))
      (s : OpenState B64.num) :
  openQty s = B64.nan -> openQty (fold_left (breakeven_step feeRate) trades s) = B64.nan.
Proof.
  revert s. induction trades as [|t rest IH]; intros s Hs; [exact Hs|].
  cbn [fold_left]. apply IH, breakeven_step_keeps_nan, Hs.
Qed.

Lemma add_nan (x y : B64.num) : y = B64.nan -> B64.add x y = B64.nan.
Proof. intros ->. destruct x; reflexivity. Qed.

End NanFacts.

(** A buy whose quantity does not read as a number ([parseFloat]
    gives [NaN]) makes [openQty] [NaN] for the rest of the pass,
    whatever comes before and after it.  [/positions] then reports a
    position, since [NaN <= 0] and [NaN < 10] are both false, with
    [NaN] for its amount, break-even, value and profit;
    [/breakeven/:symbol] reports the total quantity [NaN] and the
    break-even 0. *)
Theorem unreadable_quantity_is_reported_as_a_position
  (feeRate : B64.num) (before after : list (Trade B64.num)) (t : Trade B64.num)
  (currentPrice : B64.num) (sym : string) :
  isBuyer t = true ->
  qty t = B64.nan ->
  openQty (positions_pass feeRate (before ++ t :: after)) = B64.nan /\
  (exists v,
      position_values feeRate (before ++ t :: after) currentPrice = Some v /\
      Server.positionAmt (Server.render_position sym v) = "NaN"%string /\
      Server.breakEven (Server.render_position sym v) = "NaN"%string /\
      Server.marketValue (Server.render_position sym v) = "NaN"%string /\
      Server.unrealizedPL (Server.render_position sym v) = "NaN"%string) /\
  B64.toFixed_digits (snd (breakeven_values feeRate (before ++ t :: after))) 8 = "NaN"%string /\
  B64.toFixed_digits (fst (breakeven_values feeRate (before ++ t :: after))) 8 =
    "0.00000000"%string.
Proof.
  intros Hbuy Hq.
  assert (Hp : openQty (positions_pass feeRate (before ++ t :: after)) = B64.nan).
  { unfold positions_pass. rewrite fold_left_app. cbn [fold_left].
    apply NanFacts.fold_keeps_nan. unfold positions_step. rewrite Hbuy.
    cbn [openQty plus B64_Arith]. apply NanFacts.add_nan, Hq. }
  assert (Hb : openQty (breakeven_pass feeRate (before ++ t :: after)) = B64.nan).
  { unfold breakeven_pass. rewrite fold_left_app. cbn [fold_left].
    apply NanFacts.breakeven_fold_keeps_nan. unfold breakeven_step. rewrite Hbuy.
    cbn [openQty plus B64_Arith]. apply NanFacts.add_nan, Hq. }
  split; [exact Hp|]. split; [|split].
  - unfold position_values. rewrite Hp.
    change (le B64.nan (lit 0)) with false. cbn iota.
    change (times B64.nan currentPrice) with B64.nan.
    change (lt B64.nan (lit 10)) with false. cbn iota.
    eexists. split; [reflexivity|].
    cbn [Server.render_position Server.positionAmt Server.breakEven Server.marketValue
         Server.unrealizedPL pv_openQty pv_breakEven pv_value pv_pnl].
    assert (Hd : forall x, divide x B64.nan = B64.nan) by (intros x; destruct x; reflexivity).
    assert (Hm : forall x, times x B64.nan = B64.nan) by (intros x; destruct x; reflexivity).
    rewrite Hd, Hm. repeat split.
  - unfold breakeven_values. rewrite Hb. reflexivity.
  - unfold breakeven_values. rewrite Hb. reflexivity.
Qed.

Lemma unreadable_quantity_is_reported_as_a_position_witness :
  openQty (positions_pass Samples.fee
             (Samples.one_buy ++ Samples.buy B64.nan (Samples.d 10 0) :: Samples.oversell)) =
    B64.nan.
Proof.
  apply (unreadable_quantity_is_reported_as_a_position Samples.fee Samples.one_buy
           Samples.oversell (Samples.buy B64.nan (Samples.d 10 0)) (Samples.d 20 0)
           "BTCUSDT"%string); reflexivity.
Defined.

(** ** Balances *)

Module BalancesFacts.

Import JsString JsValue Balances.
Local Open Scope string_scope.

Lemma take_digits_zeros (f : nat) (count : Z) :
  take_digits 0 count (zeros f) = (0, count + Z.of_nat f, EmptyString).
Proof.
  revert count. induction f as [|f IH]; intros count.
  - simpl. f_equal. f_equal. lia.
  - cbn [zeros take_digits]. change (digit_value "0") with (Some 0).
    cbn beta iota. rewrite IH. f_equal. f_equal. lia.
Qed.

Lemma fixed_digits_zero (f : nat) :
  B64.fixed_digits 0 f = match f with O => "0" | _ => "0." ++ zeros f end.
Proof.
  unfold B64.fixed_digits. destruct f as [|f]; [reflexivity|].
  change (digits_of_N 0) with "0". cbn [String.length].
  replace (1 <=? S f)%nat with true by (symmetry; apply Nat.leb_le; lia).
  replace (S f + 1 - 1)%nat with (S f) by lia.
  change (zeros (S f) ++ "0") with (String "0" (zeros f ++ "0")).
  assert (Hlen : String.length (zeros f ++ "0") = S f).
  { induction f as [|f IH]; [reflexivity|].
    change (zeros (S f) ++ "0") with (String "0" (zeros f ++ "0")). simpl. rewrite IH. reflexivity. }
  cbn [String.length]. rewrite Hlen.
  replace (S (S f) - S f)%nat with 1%nat by lia.
  assert (Hsub : forall k s, String.length s = k -> substring 0 k s = s).
  { intros k s <-. induction s as [|c s IHs]; [reflexivity|]. simpl. rewrite IHs. reflexivity. }
  cbn [substring].
  replace (substring 0 0 (zeros f ++ "0")) with EmptyString by (destruct (zeros f ++ "0"); reflexivity).
  rewrite (Hsub (S f) (zeros f ++ "0") Hlen).
  assert (Hz : forall f, zeros f ++ "0" = String "0" (zeros f)).
  { clear. induction f as [|f IH]; [reflexivity|].
    change (zeros (S f) ++ "0") with (String "0" (zeros f ++ "0")). rewrite IH. reflexivity. }
  rewrite Hz. reflexivity.
Qed.

(** The text of a total that rounds to zero reads as zero. *)
Lemma parse_rounded_zero (negative : bool) (f : nat) :
  B64.ltb (B64.of_Z 0)
    (parseFloat ((if negative then "-" else EmptyString) ++ B64.fixed_digits 0 f)) = false.
Proof.
  rewrite fixed_digits_zero.
  assert (H : forall neg, unsigned_literal neg (match f with O => "0" | _ => "0." ++ zeros f end)
                          = Some (S754_zero neg)).
  { intros neg. destruct f as [|f]; [reflexivity|].
    unfold unsigned_literal.
    change (starts_with_Infinity ("0." ++ zeros (S f))) with false. cbn iota.
    change ("0." ++ zeros (S f)) with (String "0" (String "." (zeros (S f)))).
    cbn [take_digits]. change (digit_value "0") with (Some 0).
    change (digit_value ".") with (@None Z). cbn beta iota.
    rewrite take_digits_zeros. reflexivity. }
  unfold parseFloat. destruct negative.
  - change ("-" ++ ?x) with (String "-" x). cbn [trim_start].
    change (is_space "-") with false. cbn iota. rewrite H. reflexivity.
  - change (EmptyString ++ ?x) with x.
    destruct f as [|f].
    + reflexivity.
    + specialize (H false).
      change ("0." ++ zeros (S f)) with (String "0" (String "." (zeros (S f)))) in *.
      cbn [trim_start]. change (is_space "0") with false. cbn iota.
      rewrite H. reflexivity.
Qed.

End BalancesFacts.

Module RowsFacts.

Import Balances.

Lemma rows_app (digits : nat) (l1 l2 : list Balance) :
  rows digits (l1 ++ l2) = (rows digits l1 ++ rows digits l2)%list.
Proof. unfold rows. rewrite map_app. apply List.filter_app. Qed.

Lemma round_half_up_zero (q : Q) (f : nat) :
  0 <= Qnum q -> 2 * Qnum q * 10 ^ Z.of_nat f < Zpos (Qden q) ->
  B64.round_half_up q f = 0%N.
Proof.
  intros Hq Hsmall. unfold B64.round_half_up.
  assert (Hpow : 0 <= 10 ^ Z.of_nat f) by (apply Z.pow_nonneg; lia).
  rewrite Z.div_small by nia. reflexivity.
Qed.

(** A total that is [NaN] or rounds to zero is not listed. *)
Lemma hidden_total (digits : nat) (x : B64.num) :
  B64.is_nan x = true \/
  (B64.is_finite x = true /\ B64.leb (B64.of_decimal 1 21) (SFabs x) = false /\
   2 * Qnum (B64.to_Q (SFabs x)) * 10 ^ Z.of_nat digits < Zpos (Qden (B64.to_Q (SFabs x)))) ->
  B64.ltb (B64.of_Z 0) (JsValue.parseFloat (B64.toFixed_digits x digits)) = false.
Proof.
  intros [Hnan | (Hfin & Hbig & Hsmall)].
  - destruct x; try discriminate. reflexivity.
  - rewrite (LotSize.toFixed_digits_small x digits Hfin Hbig).
    rewrite (round_half_up_zero _ _ (LotSize.finite_abs_nonneg x) Hsmall).
    destruct (B64.ltb x B64.pzero);
      [apply (BalancesFacts.parse_rounded_zero true) | apply (BalancesFacts.parse_rounded_zero false)].
Qed.

End RowsFacts.

(** [/balances] leaves out every balance whose total
    [parseFloat(free) + parseFloat(locked)] is [NaN], or is so close to
    zero that [toFixed] writes it with zeros only (its absolute value
    times [10^digits] is below one half; [digits] is 8 in part_002 and
    12 in part_000): the response is the same as without that balance.
    [/positions] looks at the total before it is rounded, and still
    counts such an asset among those held when the total is above
    zero. *)
Theorem balances_hide_totals_that_round_to_zero
  (digits : nat) (before after : list Balance) (b : Balance) :
  B64.is_nan (Balances.total b) = true \/
  (B64.is_finite (Balances.total b) = true /\
   B64.leb (B64.of_decimal 1 21) (SFabs (Balances.total b)) = false /\
   2 * Qnum (B64.to_Q (SFabs (Balances.total b))) * 10 ^ Z.of_nat digits
     < Zpos (Qden (B64.to_Q (SFabs (Balances.total b))))) ->
  Balances.rows digits (before ++ b :: after) = Balances.rows digits (before ++ after) /\
  (B64.ltb (B64.of_Z 0) (Balances.total b) = true ->
   Server.is_quote_asset (asset b) = false ->
   forall accountType,
     In (asset b, Balances.total b)
        (Server.held_assets {| accountType := accountType; balances := before ++ b :: after |})).
Proof.
  intros Hb. split.
  - rewrite !RowsFacts.rows_app. f_equal.
    change (b :: after) with ([b] ++ after)%list. rewrite RowsFacts.rows_app.
    unfold Balances.rows at 1. cbn [map List.filter Balances.row_total].
    rewrite (RowsFacts.hidden_total digits _ Hb). reflexivity.
  - intros Hpos Hq accountType. unfold Server.held_assets. apply filter_In. split.
    + cbn [balances]. apply in_map_iff. exists b. split; [reflexivity|].
      apply in_or_app. right. left. reflexivity.
    + cbn [fst snd]. rewrite Hpos, Hq. reflexivity.
Qed.

Lemma balances_hide_totals_that_round_to_zero_witness :
  Balances.rows 8 (balances SampleExchange.account ++ dust_balance :: []) =
  Balances.rows 8 (balances SampleExchange.account ++ []).
Proof.
  refine (proj1 (balances_hide_totals_that_round_to_zero 8
            (balances SampleExchange.account) [] dust_balance _)).
  right. vm_compute. repeat split.
Defined.

Section BalancesEndpoints.

Variable hmac_sha256_hex : string -> string -> string.
Variable API_KEY : option string.
Variable exchange : Exchange.

(** The two [/balances] handlers and the exchange.  The earlier one
    (part_000) sends one request on every call when a secret is
    configured and caches nothing; the later one (part_002) sends none
    while the account it has read is less than five seconds old, and
    answers from it. *)
Theorem balances_cached_and_uncached (secret : string) (w : World) :
  (let w' := snd (Balances.get_balances_uncached hmac_sha256_hex API_KEY (Some secret) exchange w) in
   requests w' = CacheReads.account_url hmac_sha256_hex secret w :: requests w /\
   cache_account w' = cache_account w) /\
  (forall acct,
      data (cache_account w) = Some acct ->
      clock w - ts (cache_account w) < Server.ACCOUNT_TTL ->
      Balances.get_balances hmac_sha256_hex API_KEY (Some secret) exchange w =
        (Server.Json (Balances.rows 8 (balances acct)), w)).
Proof.
  split.
  - unfold Balances.get_balances_uncached, Server.respond, bind, Date_now, lift, await_get, ret,
      Server.signQuery, Server.createHmac_hex, CacheReads.account_url.
    cbn beta iota zeta.
    destruct (outcome _); split; reflexivity.
  - intros acct Hd Hfresh.
    unfold Balances.get_balances, Server.respond, bind.
    rewrite (cc_fresh _ _ _ _ (account_contract hmac_sha256_hex API_KEY secret exchange)
               w {| data := acct; ts := ts (cache_account w) |}).
    + reflexivity.
    + unfold CacheReads.stored_account. rewrite Hd. reflexivity.
    + exact Hfresh.
Qed.

End BalancesEndpoints.

(** ** The position tracker of part_001 *)

Section TrackingFacts.

Context {num : Type} `{Arith num}.


Lemma track_sell_cases (q p : num) (pos : Tracked num) :
  track "SELL" q p pos = untracked \/
  (le (minus (totalQty pos) q) (lit 0) = false /\
   track "SELL" q p pos =
     {| totalQty := minus (totalQty pos) q;
        totalCost := minus (totalCost pos) (times (avgPrice pos) q);
        avgPrice := divide (minus (totalCost pos) (times (avgPrice pos) q))
                           (minus (totalQty pos) q);
        trackedBreakEven := divide (minus (totalCost pos) (times (avgPrice pos) q))
                                   (minus (totalQty pos) q) |}).
Proof.
  unfold track. cbn [String.eqb Ascii.eqb Bool.eqb].
  destruct (le (minus (totalQty pos) q) (lit 0)) eqn:E; [left | right; split]; reflexivity.
Qed.

End TrackingFacts.

Module TrackerFacts.




Lemma track_order_lookup (positions : gmap string (Tracked B64.num)) (o : Placed B64.num) :
  inherited_key (placed_symbol o) = false ->
  track_order positions o !! placed_symbol o =
  Some (track (placed_side o) (placed_qty o) (placed_price o)
          (default untracked (positions !! placed_symbol o))).
Proof.
  intros Hk. unfold track_order. rewrite Hk.
  destruct (positions !! placed_symbol o) as [pos|] eqn:E.
  - rewrite E. rewrite lookup_insert_eq. reflexivity.
  - rewrite lookup_insert_eq. rewrite lookup_insert_eq. reflexivity.
Qed.












Lemma track_buys_fold (s : string) (orders : list (Placed B64.num))
      (m : gmap string (Tracked B64.num)) (tq tc : B64.num) :
  inherited_key s = false ->
  Forall (fun o => placed_symbol o = s /\ placed_side o = "BUY"%string) orders ->
  default untracked (m !! s) =
    {| totalQty := tq; totalCost := tc; avgPrice := divide tc tq;
       trackedBreakEven := divide tc tq |} \/
  (default untracked (m !! s) = untracked /\ tq = lit 0 /\ tc = lit 0) ->
  orders <> [] ->
  exists pos',
    fold_left track_order orders m !! s = Some pos' /\
    (totalQty pos', totalCost pos') =
      fold_left (fun '(totalQty, totalSpent) t =>
                   (plus totalQty (qty t), plus totalSpent (times (qty t) (price t))))
                (map placed_trade orders) (tq, tc) /\
    avgPrice pos' = divide (totalCost pos') (totalQty pos') /\
    trackedBreakEven pos' = divide (totalCost pos') (totalQty pos').
Proof.
  intros Hk Hall. revert m tq tc.
  induction Hall as [|o rest [Hs Hside] _ IH]; intros m tq tc Hm Hne; [congruence|].
  cbn [fold_left map].
  assert (Hstep : track_order m o !! s =
                  Some {| totalQty := plus tq (placed_qty o);
                          totalCost := plus tc (times (placed_qty o) (placed_price o));
                          avgPrice := divide (plus tc (times (placed_qty o) (placed_price o)))
                                             (plus tq (placed_qty o));
                          trackedBreakEven :=
                            divide (plus tc (times (placed_qty o) (placed_price o)))
                                   (plus tq (placed_qty o)) |}).
  { subst s. rewrite (track_order_lookup _ _ Hk), Hside.
    destruct Hm as [-> | (-> & -> & ->)]; reflexivity. }
  destruct rest as [|o' rest'].
  - eexists. split; [exact Hstep|]. repeat split; reflexivity.
  - apply IH; [|discriminate]. left. rewrite Hstep. reflexivity.
Qed.

End TrackerFacts.



(** After buys only of a symbol that is no inherited name, the tracker
    holds what the earlier [/breakeven/:symbol] (part_000) computes
    from the same fills: the same total quantity, the same total spent,
    and their quotient as break-even.  (Under an inherited name it
    holds [NaN], as the theorem before has it.) *)
Theorem tracker_matches_buys_only_breakeven
  (s : string) (orders : list (Placed B64.num)) :
  inherited_key s = false ->
  Forall (fun o => placed_symbol o = s /\ placed_side o = "BUY"%string) orders ->
  orders <> [] ->
  exists pos,
    track_orders orders !! s = Some pos /\
    breakeven_buys_only (map placed_trade orders) =
      (trackedBreakEven pos, totalQty pos, totalCost pos).
Proof.
  intros Hk Hall Hne.
  destruct (TrackerFacts.track_buys_fold s orders ∅ (lit 0) (lit 0) Hk Hall)
    as (pos & Hl & Ht & Ha & Hb).
  { right. rewrite lookup_empty. auto. }
  { exact Hne. }
  exists pos. split; [exact Hl|].
  unfold breakeven_buys_only.
  assert (Hf : List.filter isBuyer (map placed_trade orders) = map placed_trade orders).
  { clear -Hall. induction Hall as [|o rest [_ Hside] _ IH]; [reflexivity|].
    cbn [map List.filter placed_trade isBuyer]. rewrite Hside. cbn. f_equal. exact IH. }
  rewrite Hf. destruct orders as [|o rest]; [congruence|].
  cbn [map]. unfold buys_only_totals.
  change (placed_trade o :: map placed_trade rest) with (map placed_trade (o :: rest)).
  rewrite <- Ht. rewrite Hb. reflexivity.
Qed.

Lemma tracker_matches_buys_only_breakeven_witness :
  exists pos,
    track_orders two_placed_buys !! "BTCUSDT"%string = Some pos /\
    breakeven_buys_only (map placed_trade two_placed_buys) =
      (trackedBreakEven pos, totalQty pos, totalCost pos).
Proof.
  apply (tracker_matches_buys_only_breakeven "BTCUSDT"%string two_placed_buys).
  - reflexivity.
  - repeat constructor.
  - discriminate.
Defined.

(** A sell in the tracker leaves the entry empty, all four fields 0,
    or with a quantity for which [<= 0] is false.  It empties it when
    the quantity sold equals the tracked one (positive and finite), so
    that, unlike in [/positions], no rounding residue of the cost
    stays; when nothing was tracked and the quantity sold is positive;
    and, in exact arithmetic, whenever the quantity sold is the tracked
    one or more. *)
Theorem tracker_sell_empties_the_position :
  (forall (num : Type) (A : Arith num) (q p : num) (pos : Tracked num),
      track "SELL" q p pos = untracked \/
      (le (totalQty (track "SELL" q p pos)) (lit 0) = false /\
       totalQty (track "SELL" q p pos) = minus (totalQty pos) q /\
       totalCost (track "SELL" q p pos) = minus (totalCost pos) (times (avgPrice pos) q))) /\
  (forall (q p : B64.num) (pos : Tracked B64.num),
      B64.eqb q (totalQty pos) = true ->
      B64.ltb (B64.of_Z 0) (totalQty pos) = true ->
      B64.is_finite (totalQty pos) = true ->
      track "SELL" q p pos = untracked) /\
  (forall q p : B64.num,
      B64.ltb (B64.of_Z 0) q = true ->
      track "SELL" q p untracked = untracked) /\
  (forall (q p : Qc) (pos : Tracked Qc),
      (totalQty pos <= q)%Qc ->
      track "SELL" q p pos = untracked).
Proof.
  split; [|split; [|split]].
  - intros num A q p pos.
    destruct (track_sell_cases q p pos) as [E | [Hle E]]; [left; exact E | right].
    rewrite E. cbn [totalQty totalCost]. auto.
  - intros q p pos E Hpos Hfin.
    destruct (track_sell_cases q p pos) as [Hu | [Hle _]]; [exact Hu|].
    exfalso. change (B64.leb (B64.sub (totalQty pos) q) (B64.of_Z 0) = false) in Hle.
    rewrite (FullClose.sub_equal _ _ E Hpos Hfin) in Hle. discriminate.
  - intros q p Hpos.
    destruct (track_sell_cases q p untracked) as [Hu | [Hle _]]; [exact Hu|].
    exfalso. change (B64.leb (B64.sub (B64.of_Z 0) q) (B64.of_Z 0) = false) in Hle.
    destruct q as [[|]|[|]| |[|] m e]; discriminate.
  - intros q p pos Hle.
    destruct (track_sell_cases q p pos) as [Hu | [Hnot _]]; [exact Hu|].
    exfalso. change (Qle_bool (totalQty pos - q)%Qc (Q2Qc (inject_Z 0)) = false) in Hnot.
    assert (Hq : Qle_bool (totalQty pos - q)%Qc (Q2Qc (inject_Z 0)) = true).
    { apply Qle_bool_iff. change ((totalQty pos - q)%Qc <= 0%Qc)%Qc.
      apply Qcle_minus_iff. 
      replace (0 + - (totalQty pos - q))%Qc with (q + - totalQty pos)%Qc by ring.
      apply Qcle_minus_iff in Hle. exact Hle. }
    congruence.
Qed.

(** ** The quote currency and the base asset of a symbol *)

Module QuoteFacts.

Import Quote.
Local Open Scope string_scope.

Lemma length_append (a b : string) :
  String.length (a ++ b) = (String.length a + String.length b)%nat.
Proof.
  induction a as [|c a IH]; [reflexivity|].
  change (String c a ++ b) with (String c (a ++ b)). simpl. rewrite IH. reflexivity.
Qed.

Lemma substring_suffix (a b : string) :
  substring (String.length a) (String.length b) (a ++ b) = b.
Proof.
  induction a as [|c a IH].
  - change (EmptyString ++ b) with b. simpl.
    induction b as [|c b IHb]; [reflexivity|]. simpl. rewrite IHb. reflexivity.
  - change (String c a ++ b) with (String c (a ++ b)). simpl. exact IH.
Qed.

Lemma endsWith_append (a b : string) : endsWith b (a ++ b) = true.
Proof.
  unfold endsWith. rewrite length_append.
  replace (String.length b <=? String.length a + String.length b)%nat with true
    by (symmetry; apply Nat.leb_le; lia).
  replace (String.length a + String.length b - String.length b)%nat with (String.length a) by lia.
  rewrite substring_suffix. apply String.eqb_refl.
Qed.

Lemma substring_split (n : nat) (s : string) :
  (n <= String.length s)%nat ->
  s = substring 0 n s ++ substring n (String.length s - n) s.
Proof.
  revert s. induction n as [|n IH]; intros s Hn.
  - simpl. rewrite Nat.sub_0_r.
    replace (substring 0 0 s) with EmptyString by (destruct s; reflexivity).
    change (EmptyString ++ ?x) with x.
    clear Hn. induction s as [|c s IHs]; [reflexivity|]. simpl. rewrite <- IHs. reflexivity.
  - destruct s as [|c s]; [simpl in Hn; lia|]. simpl in Hn.
    simpl. change (String c ?x ++ ?y) with (String c (x ++ y)).
    f_equal. apply IH. lia.
Qed.

Lemma endsWith_inv (suffix s : string) :
  endsWith suffix s = true -> exists base, s = base ++ suffix.
Proof.
  unfold endsWith. remember (String.length suffix) as k eqn:Hk. clear Hk.
  destruct (k <=? String.length s)%nat eqn:E; [|discriminate].
  apply Nat.leb_le in E. intros H. apply String.eqb_eq in H.
  exists (substring 0 (String.length s - k) s). rewrite <- H.
  pose proof (substring_split (String.length s - k) s ltac:(lia)) as Hs.
  replace (String.length s - (String.length s - k))%nat with k in Hs by lia.
  exact Hs.
Qed.

Lemma last_char_append (a b : string) :
  b <> EmptyString -> last_char (a ++ b) = last_char b.
Proof.
  intros Hb. induction a as [|c a IH]; [reflexivity|].
  change (String c a ++ b) with (String c (a ++ b)).
  cbn [last_char]. destruct (a ++ b) eqn:E; [|exact IH].
  destruct a; [|discriminate]. change (EmptyString ++ b) with b in E. congruence.
Qed.

Lemma endsWith_last (suffix s : string) :
  suffix <> EmptyString -> last_char s <> last_char suffix -> endsWith suffix s = false.
Proof.
  intros Hne Hlast. destruct (endsWith suffix s) eqn:E; [|reflexivity].
  destruct (endsWith_inv _ _ E) as [base ->].
  rewrite last_char_append in Hlast by exact Hne. congruence.
Qed.

Lemma quote_of_append (base : string) :
  getQuoteCurrency (base ++ "USDT") = Some "USDT" /\
  getQuoteCurrency (base ++ "USDC") = Some "USDC" /\
  getQuoteCurrency (base ++ "USD") = Some "USD".
Proof.
  unfold getQuoteCurrency.
  rewrite !endsWith_append.
  rewrite (endsWith_last "USDT" (base ++ "USDC")),
          (endsWith_last "USDT" (base ++ "USD")),
          (endsWith_last "USDC" (base ++ "USD"));
    try discriminate; try (rewrite last_char_append by discriminate; discriminate).
  auto.
Qed.

End QuoteFacts.


(** [getQuoteCurrency] returns the suffix of the symbol among [USDT],
    [USDC] and [USD]: each of the three for every symbol that ends with
    it, and [null] for exactly the symbols that end with none of
    them. *)
Theorem getQuoteCurrency_is_the_suffix :
  (forall base : string,
      Quote.getQuoteCurrency (base ++ "USDT") = Some "USDT"%string /\
      Quote.getQuoteCurrency (base ++ "USDC") = Some "USDC"%string /\
      Quote.getQuoteCurrency (base ++ "USD") = Some "USD"%string) /\
  (forall symbol quote : string,
      Quote.getQuoteCurrency symbol = Some quote ->
      In quote ["USDT"; "USDC"; "USD"]%string /\ exists base, symbol = (base ++ quote)%string) /\
  (forall symbol : string,
      Quote.getQuoteCurrency symbol = None ->
      forall base, symbol <> (base ++ "USD")%string /\ symbol <> (base ++ "USDT")%string /\
                   symbol <> (base ++ "USDC")%string).
Proof.
  split; [|split].
  - exact QuoteFacts.quote_of_append.
  - intros symbol quote. unfold Quote.getQuoteCurrency.
    destruct (Quote.endsWith "USDT" symbol) eqn:E1;
      [|destruct (Quote.endsWith "USDC" symbol) eqn:E2;
        [|destruct (Quote.endsWith "USD" symbol) eqn:E3]];
      intros [= <-]; (split; [simpl; tauto|]); apply QuoteFacts.endsWith_inv; assumption.
  - intros symbol. unfold Quote.getQuoteCurrency.
    destruct (Quote.endsWith "USDT" symbol) eqn:E1; [discriminate|].
    destruct (Quote.endsWith "USDC" symbol) eqn:E2; [discriminate|].
    destruct (Quote.endsWith "USD" symbol) eqn:E3; [discriminate|].
    intros _ base. repeat split; intros ->; rewrite QuoteFacts.endsWith_append in *; discriminate.
Qed.

Module BaseFacts.

Import Quote.
Local Open Scope string_scope.

Lemma startsWith_refl (s : string) : startsWith s s = true.
Proof. induction s as [|c s IH]; [reflexivity|]. simpl. rewrite Ascii.eqb_refl. exact IH. Qed.

Lemma drop_all (s : string) : drop (String.length s) s = EmptyString.
Proof. induction s as [|c s IH]; [reflexivity | exact IH]. Qed.

(** A quote currency is [USD] followed by [r]. *)
Lemma no_earlier_quote (r : string) (c : ascii) (b : string) :
  startsWith "USD" (String c b) = false ->
  startsWith ("USD" ++ r) (String c (b ++ "USD" ++ r)) = false.
Proof.
  change ("USD" ++ r) with (String "U" (String "S" (String "D" r))).
  destruct b as [|b0 [|b1 b]].
  - intros _. change (EmptyString ++ ?x) with x. cbn [startsWith].
    change (Ascii.eqb "S" "U") with false. cbn [andb]. apply andb_false_r.
  - intros _. change (String b0 EmptyString ++ ?x) with (String b0 x). cbn [startsWith].
    change (Ascii.eqb "D" "U") with false. cbn [andb]. rewrite andb_false_r. apply andb_false_r.
  - change (String b0 (String b1 b) ++ String "U" (String "S" (String "D" r)))
      with (String b0 (String b1 (b ++ String "U" (String "S" (String "D" r))))).
    cbn [startsWith]. intros H.
    destruct (Ascii.eqb "U" c); [|reflexivity].
    destruct (Ascii.eqb "S" b0); [|reflexivity].
    destruct (Ascii.eqb "D" b1); [discriminate | reflexivity].
Qed.

Lemma remove_first_suffix (r base : string) :
  occurs "USD" base = false ->
  remove_first ("USD" ++ r) (base ++ "USD" ++ r) = base.
Proof.
  induction base as [|c b IH]; intros Hocc.
  - change (EmptyString ++ ?x) with x. 
    destruct ("USD" ++ r) as [|q0 q] eqn:E; [reflexivity|].
    cbn [remove_first]. rewrite startsWith_refl. apply drop_all.
  - cbn [occurs] in Hocc. apply orb_false_iff in Hocc. destruct Hocc as [Hs Hocc].
    change (String c b ++ ?x) with (String c (b ++ x)).
    change ("USD" ++ r) with (String "U" (String "S" (String "D" r))) at 1.
    cbn [remove_first].
    change (String "U" (String "S" (String "D" r))) with ("USD" ++ r).
    rewrite (no_earlier_quote r c b Hs). f_equal. apply IH, Hocc.
Qed.

End BaseFacts.

(** The base asset that the order handler of part_000 takes out of a
    symbol, [symbol.replace(quote, empty)], is the symbol without its
    quote currency when [USD] does not occur in the base.  [replace]
    takes out the first occurrence, not the suffix: of [USDTUSD], whose
    quote currency is [USD], it leaves [TUSD]. *)
Theorem base_asset_needs_a_base_without_USD :
  (forall base quote : string,
      In quote ["USDT"; "USDC"; "USD"]%string ->
      Quote.occurs "USD" base = false ->
      Quote.base_asset (base ++ quote) = base) /\
  Quote.getQuoteCurrency "USDTUSD" = Some "USD"%string /\
  Quote.base_asset "USDTUSD" = "TUSD"%string.
Proof.
  split; [|split; reflexivity].
  intros base quote Hq Hocc. unfold Quote.base_asset.
  destruct (QuoteFacts.quote_of_append base) as (H1 & H2 & H3).
  destruct Hq as [<- | [<- | [<- | []]]].
  - rewrite H1. exact (BaseFacts.remove_first_suffix "T" base Hocc).
  - rewrite H2. exact (BaseFacts.remove_first_suffix "C" base Hocc).
  - rewrite H3. exact (BaseFacts.remove_first_suffix EmptyString base Hocc).
Qed.

(** ** Placing an order (server.js) *)

Section OrderFacts.

Import JsValue Orders.

Variable hmac_sha256_hex : string -> string -> string.
Variable API_KEY : option string.
Variable API_SECRET : option string.
Variable exchange : Exchange.
Variable log10_approx : B64.num -> B64.num.
Variable api_order : string -> option string -> Z -> Reply string.



Lemma post_order_unfold (body : Body) (w : World) :
  post_order hmac_sha256_hex API_KEY API_SECRET exchange log10_approx api_order body w =
  match body_symbol body, body_side body, body_quantity body with
  | Some symbolv, Some sidev, Some quantityv =>
      if truthy (body_symbol body) && truthy (body_side body) && truthy (body_quantity body)
      then
        match Server.getExchangeInfo exchange w with
        | (Normal info, w1) =>
            answer (place hmac_sha256_hex API_KEY API_SECRET log10_approx api_order
                      symbolv sidev quantityv body info) w1
        | (Throw e, w1) => (Status500 e, w1)
        end
      else (Status400 "Missing required parameters"%string, w)
  | _, _, _ => (Status400 "Missing required parameters"%string, w)
  end.
Proof.
  unfold post_order, answer, bind.
  destruct (body_symbol body), (body_side body), (body_quantity body); try reflexivity.
  destruct (truthy _ && truthy _ && truthy _); [|reflexivity].
  destruct (Server.getExchangeInfo exchange w) as [[info|e] w1]; reflexivity.
Qed.

(** Where the handler stops once it has the exchange information: with
    an answer and nothing sent, or with the order sent. *)
Lemma place_cases (symbolv sidev quantityv : value) (body : Body) (info : ExchangeInfo)
      (w : World) :
  (exists a,
      answer (place hmac_sha256_hex API_KEY API_SECRET log10_approx api_order
                symbolv sidev quantityv body info) w = (a, w) /\
      forall data, a <> Sent data) \/
  (exists sym lot adjusted params qs,
      List.find (fun s => is_string (symbol s) symbolv) (symbols info) = Some sym /\
      List.find (fun f => String.eqb (filterType f) "LOT_SIZE") (filters sym) = Some lot /\
      Server.adjustToStepSize log10_approx (parseFloat (to_string quantityv))
        (parseFloat (stepSize lot)) = Normal adjusted /\
      B64.ltb (parseFloat adjusted) (parseFloat (minQty lot)) = false /\
      order_params symbolv sidev (default (VStr "MARKET") (body_type body))
        (parseFloat adjusted) (clock w) (body_price body) (body_timeInForce body) = inr params /\
      Server.signQuery hmac_sha256_hex API_SECRET params = Normal qs /\
      let url := (Server.BASE ++ "/api/v3/order?" ++ qs)%string in
      let r := api_order url API_KEY (clock w) in
      answer (place hmac_sha256_hex API_KEY API_SECRET log10_approx api_order
                symbolv sidev quantityv body info) w =
        (match outcome r with Normal data => Sent data | Throw e => Status500 e end,
         after_request url (elapsed r) w)).
Proof.
  unfold place, answer, bind, lift, ret, throw, Date_now, await_post, await_get.
  destruct (List.find _ (symbols info)) as [sym|] eqn:Hsym;
    [|left; eexists; split; [reflexivity | discriminate]].
  destruct (List.find _ (filters sym)) as [lot|] eqn:Hlot;
    [|left; eexists; split; [reflexivity | discriminate]].
  destruct (Server.adjustToStepSize _ _ _) as [adjusted|e] eqn:Hadj;
    [|left; eexists; split; [reflexivity | discriminate]].
  destruct (B64.ltb _ _) eqn:Hlt;
    [left; eexists; split; [reflexivity | discriminate]|].
  destruct (order_params _ _ _ _ _ _ _) as [msg|params] eqn:Hpar;
    [left; eexists; split; [reflexivity | discriminate]|].
  destruct (Server.signQuery _ _ params) as [qs|e] eqn:Hqs;
    [|left; eexists; split; [reflexivity | discriminate]].
  right. exists sym, lot, adjusted, params, qs.
  repeat (split; [first [reflexivity | assumption]|]).
  cbn zeta. destruct (outcome _); reflexivity.
Qed.

(** An order that the handler refuses with a 400 (a missing field, an
    unknown symbol, a quantity below [minQty] after the adjustment, a
    limit order without a price) has not reached the exchange: the
    world is as it was, or as the read of the exchange information
    left it. *)
Theorem unsent_order_reaches_no_order_endpoint (body : Body) (w : World) (error : string) :
  fst (post_order hmac_sha256_hex API_KEY API_SECRET exchange log10_approx api_order body w) =
    Status400 error ->
  snd (post_order hmac_sha256_hex API_KEY API_SECRET exchange log10_approx api_order body w) = w \/
  snd (post_order hmac_sha256_hex API_KEY API_SECRET exchange log10_approx api_order body w) =
    snd (Server.getExchangeInfo exchange w).
Proof.
  rewrite post_order_unfold.
  destruct (body_symbol body) as [symbolv|]; [|left; reflexivity].
  destruct (body_side body) as [sidev|]; [|left; reflexivity].
  destruct (body_quantity body) as [quantityv|]; [|left; reflexivity].
  destruct (truthy _ && truthy _ && truthy _); [|left; reflexivity].
  destruct (Server.getExchangeInfo exchange w) as [[info|e] w1]; [|discriminate].
  cbn [snd].
  destruct (place_cases symbolv sidev quantityv body info w1)
    as [(a & -> & _) | (sym & lot & adjusted & params & qs & _ & _ & _ & _ & _ & _ & ->)].
  - intros _. right. reflexivity.
  - cbn [fst]. destruct (outcome _); discriminate.
Qed.



End OrderFacts.

Lemma unsent_order_reaches_no_order_endpoint_witness :
  snd (Orders.post_order SampleExchange.digest (Some "key"%string) (Some "s3cret"%string)
         SampleExchange.exchange log10_of_1000 accepting_orders
         {| Orders.body_symbol := Some (JsValue.VStr "DOGEUSDT");
            Orders.body_side := Orders.body_side sample_order;
            Orders.body_quantity := Orders.body_quantity sample_order;
            Orders.body_type := None;
            Orders.body_price := None;
            Orders.body_timeInForce := None |}
         (initial_world 1700000000000)) = initial_world 1700000000000 \/
  snd (Orders.post_order SampleExchange.digest (Some "key"%string) (Some "s3cret"%string)
         SampleExchange.exchange log10_of_1000 accepting_orders
         {| Orders.body_symbol := Some (JsValue.VStr "DOGEUSDT");
            Orders.body_side := Orders.body_side sample_order;
            Orders.body_quantity := Orders.body_quantity sample_order;
            Orders.body_type := None;
            Orders.body_price := None;
            Orders.body_timeInForce := None |}
         (initial_world 1700000000000)) =
    snd (Server.getExchangeInfo SampleExchange.exchange (initial_world 1700000000000)).
Proof.
  apply (unsent_order_reaches_no_order_endpoint SampleExchange.digest (Some "key"%string)
           (Some "s3cret"%string) SampleExchange.exchange log10_of_1000 accepting_orders
           _ _ "Unknown symbol"%string).
  vm_compute. reflexivity.
Defined.



(** ** Placing an order (part_000, part_001, part_003) *)

Section LegacyOrderFacts.

Import JsValue LegacyOrder.

Variable hmac_sha256_hex : string -> string -> string.
Variable API_KEY : option string.
Variable API_SECRET : option string.
Variable exchange : Exchange.
Variable api_order : string -> string -> option string -> Z -> Reply string.
Variable api_local_balances : string -> Z -> Reply (list Balances.Row).




(** A sell without a quantity sells the whole balance of the base
    asset, whatever amount is asked: the handlers answer and act alike
    for any two amounts that are not falsy. *)
Theorem sell_by_amount_sells_the_whole_balance
  (body : Body) (amount amount' : option value) (w : World)
  (positions : gmap string (Tracked B64.num)) :
  option_map (Orders.is_string "SELL") (body_side body) = Some true ->
  Orders.truthy (body_quantity body) = false ->
  Orders.truthy amount = true ->
  Orders.truthy amount' = true ->
  post_order hmac_sha256_hex API_KEY API_SECRET exchange api_order api_local_balances
    (with_usdAmount body amount) w =
  post_order hmac_sha256_hex API_KEY API_SECRET exchange api_order api_local_balances
    (with_usdAmount body amount') w /\
  post_order_tracked hmac_sha256_hex API_KEY API_SECRET exchange api_order api_local_balances
    (with_usdAmount body amount) (w, positions) =
  post_order_tracked hmac_sha256_hex API_KEY API_SECRET exchange api_order api_local_balances
    (with_usdAmount body amount') (w, positions).
Proof.
  intros Hside Hq Ha Ha'.
  assert (E : place hmac_sha256_hex API_KEY API_SECRET exchange api_order api_local_balances
                (with_usdAmount body amount) w =
              place hmac_sha256_hex API_KEY API_SECRET exchange api_order api_local_balances
                (with_usdAmount body amount') w).
  { unfold place, with_usdAmount.
    cbn [body_symbol body_side body_quantity body_price body_usdAmount].
    rewrite Hq, Ha, Ha'.
    destruct (body_side body) as [sidev|]; [|discriminate].
    cbn [option_map] in Hside. injection Hside as Hside. rewrite Hside.
    cbn [negb andb]. reflexivity. }
  unfold post_order, post_order_tracked. rewrite E. split; reflexivity.
Qed.


End LegacyOrderFacts.


Lemma sell_by_amount_sells_the_whole_balance_witness :
  LegacyOrder.post_order SampleExchange.digest (Some "key"%string) (Some "s3cret"%string)
    exchange_with_filters accepting_limit_orders two_bitcoins
    (LegacyOrder.with_usdAmount sell_by_amount (Some (JsValue.VNum (B64.of_Z 50))))
    (initial_world 1700000000000) =
  LegacyOrder.post_order SampleExchange.digest (Some "key"%string) (Some "s3cret"%string)
    exchange_with_filters accepting_limit_orders two_bitcoins
    (LegacyOrder.with_usdAmount sell_by_amount (Some (JsValue.VNum (B64.of_Z 5))))
    (initial_world 1700000000000) /\
  LegacyOrder.post_order_tracked SampleExchange.digest (Some "key"%string)
    (Some "s3cret"%string) exchange_with_filters accepting_limit_orders two_bitcoins
    (LegacyOrder.with_usdAmount sell_by_amount (Some (JsValue.VNum (B64.of_Z 50))))
    (initial_world 1700000000000, ∅) =
  LegacyOrder.post_order_tracked SampleExchange.digest (Some "key"%string)
    (Some "s3cret"%string) exchange_with_filters accepting_limit_orders two_bitcoins
    (LegacyOrder.with_usdAmount sell_by_amount (Some (JsValue.VNum (B64.of_Z 5))))
    (initial_world 1700000000000, ∅).
Proof.
  apply (sell_by_amount_sells_the_whole_balance SampleExchange.digest (Some "key"%string)
           (Some "s3cret"%string) exchange_with_filters accepting_limit_orders two_bitcoins
           sell_by_amount (Some (JsValue.VNum (B64.of_Z 50))) (Some (JsValue.VNum (B64.of_Z 5)))
           (initial_world 1700000000000) ∅); reflexivity.
Defined.
